(** * Advanced LoRA Stacker: state store, persistence bridge and UI rebuild

    A shallow embedding of [js/advanced_lora_stacker.js] (the v2 "simplified
    state management" extension) and the properties of its state
    synchronisation core.

    Conventions of the embedding.
    - A node instance ([this]) is the record [Node.t]; every method is a
      function [Node.t -> Node.t].  The process-wide [localStorage] travels
      inside the record; a write to it can be refused ([setItem] throws).
    - Ids and indices are JavaScript integers, modelled as [Z]; a [group_id]
      is [null] or an integer, modelled as [option Z].  Truthiness follows
      JavaScript: [0], [null] and [undefined] are falsy.
    - Strengths and ceilings are JavaScript numbers on which the code does no
      arithmetic; they are modelled as rationals [Q].
    - An item is an open JavaScript object: besides [id] and [group_id] its
      remaining keys ([name], [preset], the lock or randomize fields) are kept
      in a finite map from key to value; an absent key reads as [undefined].
    - The snapshot always carries its two lists, so the defaults
      [state.groups || []] and [state.loras || []] are the identity.
    - The text held by the [stack_data] field and by [localStorage] is only
      ever tested for emptiness, copied, or handed to [JSON.parse]; it is
      represented by what those three uses can observe (type [Text]).
    - Controls hold closures; a closure is represented by the call it makes
      (type [Callback]) and run by [fire]. *)

From Stdlib Require Import ZArith QArith.
From stdpp Require Import base gmap strings list pretty.

Close Scope Q_scope.
Local Open Scope string_scope.
Local Open Scope list_scope.
Local Open Scope Z_scope.

(** ** JavaScript values *)

Inductive JsVal : Type :=
| VBool (b : bool)
| VNum (q : Q)
| VStr (s : string).

#[global] Instance Q_eq_dec : EqDecision Q.
Proof. solve_decision. Defined.

#[global] Instance JsVal_eq_dec : EqDecision JsVal.
Proof. solve_decision. Defined.

(** [if (v)] on a property that may be absent. *)
Definition truthy (v : option JsVal) : bool :=
  match v with
  | Some (VBool b) => b
  | Some (VNum q) => negb (Qeq_bool q 0)
  | Some (VStr s) => negb (String.eqb s "")
  | None => false
  end.

(** [if (n)] on an integer. *)
Definition truthyZ (z : Z) : bool := negb (z =? 0).

(** [if (id)] on an id that may be [null]. *)
Definition truthyId (i : option Z) : bool :=
  match i with
  | Some z => truthyZ z
  | None => false
  end.

(** ** Data model *)

Module Group.
Record t : Type := mk {
  id : Z;
  index : Z;
  max_model : Q;
  max_clip : Q
}.

Definition set_id (v : Z) (g : t) : t := mk v (index g) (max_model g) (max_clip g).
Definition set_index (v : Z) (g : t) : t := mk (id g) v (max_model g) (max_clip g).
Definition set_max_model (v : Q) (g : t) : t := mk (id g) (index g) v (max_clip g).
Definition set_max_clip (v : Q) (g : t) : t := mk (id g) (index g) (max_model g) v.

#[global] Instance eq_dec : EqDecision t.
Proof. solve_decision. Defined.
End Group.

Module Lora.
Record t : Type := mk {
  id : Z;
  group_id : option Z;
  props : gmap string JsVal
}.

Definition set_id (v : Z) (l : t) : t := mk v (group_id l) (props l).
Definition set_group_id (v : option Z) (l : t) : t := mk (id l) v (props l).

(** [lora.key] and [lora.key = v]. *)
Definition get (key : string) (l : t) : option JsVal := props l !! key.
Definition set (key : string) (v : JsVal) (l : t) : t :=
  mk (id l) (group_id l) (<[key := v]> (props l)).

#[global] Instance eq_dec : EqDecision t.
Proof. solve_decision. Defined.
End Lora.

(** The persisted snapshot [{groups, loras}]. *)
Record LoraState : Type := mkState {
  groups : list Group.t;
  loras : list Lora.t
}.

#[global] Instance LoraState_eq_dec : EqDecision LoraState.
Proof. solve_decision. Defined.

(** ** Serialized text

    [Empty] is the empty string (or a missing value); [Garbled raw] is a
    non-empty text on which [JSON.parse] throws; [Json s] is a text that
    [JSON.parse] reads as the snapshot [s]. *)
Inductive Text : Type :=
| Empty
| Garbled (raw : string)
| Json (s : LoraState).

Definition JSON_stringify (s : LoraState) : Text := Json s.

(** [None] stands for the [SyntaxError] that every caller catches. *)
Definition JSON_parse (t : Text) : option LoraState :=
  match t with
  | Json s => Some s
  | Empty | Garbled _ => None
  end.

(** [if (text)]: only the empty string is falsy. *)
Definition truthyText (t : Text) : bool :=
  match t with
  | Empty => false
  | Garbled _ | Json _ => true
  end.

(** ** Controls *)

Inductive GroupField : Type := MaxModel | MaxClip.

Inductive Callback : Type :=
| NoCallback
| CallAddLora (groupId : option Z)
| CallAddGroup
| CallToggleGroupCollapse (groupId : Z)
| CallRemoveGroup (groupId : Z)
| CallRemoveLora (loraId : Z)
| SetGroupField (groupId : Z) (field : GroupField)
| SetLoraField (loraId : Z) (field : string).

#[global] Instance GroupField_eq_dec : EqDecision GroupField.
Proof. solve_decision. Defined.

#[global] Instance Callback_eq_dec : EqDecision Callback.
Proof. solve_decision. Defined.

Module Widget.
(** [_groupId] is [None] when the tag was never set, [Some None] when it
    was set to [null].  [computeSize], when present, is the constant size
    the control reports. *)
Record t : Type := mk {
  type : string;
  name : string;
  value : option JsVal;
  callback : Callback;
  _groupId : option (option Z);
  _loraId : option Z;
  _isGroupWidget : bool;
  computeSize : option (Z * Z)
}.

#[global] Instance eq_dec : EqDecision t.
Proof. solve_decision. Defined.
End Widget.

(** ** The page's local storage *)

Module Storage.
(** The entries the store holds, and the writes it takes: [setItem(key,
    value)] on a store holding [items] stores the entry when [accepts items
    key value] holds and throws otherwise (the quota is exceeded, storage is
    disabled). *)
Record t : Type := mk {
  items : gmap string Text;
  accepts : gmap string Text → string → Text → bool
}.

(** [localStorage.getItem(key)], [None] for [null]. *)
Definition getItem (key : string) (storage : t) : option Text := items storage !! key.

(** [localStorage.setItem(key, value)], [None] when it throws. *)
Definition setItem (key : string) (value : Text) (storage : t) : option t :=
  if accepts storage (items storage) key value
  then Some (mk (<[key := value]> (items storage)) (accepts storage))
  else None.
End Storage.

(** An empty store that takes every write. *)
#[global] Instance Storage_empty : base.Empty Storage.t := Storage.mk ∅ (λ _ _ _, true).

(** ** The node *)

Module Node.
(** [stack_data] is [this.stackDataWidget.value]; the control itself sits
    in [widgets]. *)
Record t : Type := mk {
  id : Z;
  loraState : LoraState;
  nextGroupId : Z;
  nextLoraId : Z;
  collapsedGroups : gset Z;
  widgets : list Widget.t;
  stack_data : Text;
  _saving : bool;
  size : Z * Z;
  localStorage : Storage.t
}.

Definition set_loraState (v : LoraState) (n : t) : t :=
  mk (id n) v (nextGroupId n) (nextLoraId n) (collapsedGroups n) (widgets n)
     (stack_data n) (_saving n) (size n) (localStorage n).
Definition set_nextGroupId (v : Z) (n : t) : t :=
  mk (id n) (loraState n) v (nextLoraId n) (collapsedGroups n) (widgets n)
     (stack_data n) (_saving n) (size n) (localStorage n).
Definition set_nextLoraId (v : Z) (n : t) : t :=
  mk (id n) (loraState n) (nextGroupId n) v (collapsedGroups n) (widgets n)
     (stack_data n) (_saving n) (size n) (localStorage n).
Definition set_collapsedGroups (v : gset Z) (n : t) : t :=
  mk (id n) (loraState n) (nextGroupId n) (nextLoraId n) v (widgets n)
     (stack_data n) (_saving n) (size n) (localStorage n).
Definition set_widgets (v : list Widget.t) (n : t) : t :=
  mk (id n) (loraState n) (nextGroupId n) (nextLoraId n) (collapsedGroups n) v
     (stack_data n) (_saving n) (size n) (localStorage n).
Definition set_stack_data (v : Text) (n : t) : t :=
  mk (id n) (loraState n) (nextGroupId n) (nextLoraId n) (collapsedGroups n) (widgets n)
     v (_saving n) (size n) (localStorage n).
Definition set_saving (v : bool) (n : t) : t :=
  mk (id n) (loraState n) (nextGroupId n) (nextLoraId n) (collapsedGroups n) (widgets n)
     (stack_data n) v (size n) (localStorage n).
Definition set_size (v : Z * Z) (n : t) : t :=
  mk (id n) (loraState n) (nextGroupId n) (nextLoraId n) (collapsedGroups n) (widgets n)
     (stack_data n) (_saving n) v (localStorage n).
Definition set_localStorage (v : Storage.t) (n : t) : t :=
  mk (id n) (loraState n) (nextGroupId n) (nextLoraId n) (collapsedGroups n) (widgets n)
     (stack_data n) (_saving n) (size n) v.
End Node.

(** ** Local backup cache *)

Definition storageKey (nodeId : Z) : string := "AdvancedLoraStacker_" +:+ pretty nodeId.

(** [saveStateToLocalStorage(nodeId, state)]: when [setItem] throws, the
    [catch] logs the error and the store stays as it was. *)
Definition saveStateToLocalStorage (nodeId : Z) (state : LoraState)
    (storage : Storage.t) : Storage.t :=
  let key := storageKey nodeId in
  match Storage.setItem key (JSON_stringify state) storage with
  | Some storage' => storage'
  | None => storage
  end.

(** [loadStateFromLocalStorage(nodeId)]: [None] is the [null] result, also
    returned when [JSON.parse] throws inside the [try]. *)
Definition loadStateFromLocalStorage (nodeId : Z) (storage : Storage.t)
    : option LoraState :=
  match Storage.getItem (storageKey nodeId) storage with
  | Some data => if truthyText data then JSON_parse data else None
  | None => None
  end.

(** ** Permanent controls, made by [onNodeCreated] *)

Definition stackDataWidget : Widget.t :=
  Widget.mk "converted-widget" "stack_data" None NoCallback None None false (Some (0, -4)).

Definition addLoraButton : Widget.t :=
  Widget.mk "button" "➕ Add LoRA" None (CallAddLora None) None None false None.

Definition addGroupButton : Widget.t :=
  Widget.mk "button" "➕ Add Group" None CallAddGroup None None false None.

(** The host's seed control, when the node has one. *)
Definition seedWidget : Widget.t :=
  Widget.mk "number" "seed" (Some (VNum 0)) NoCallback None None false None.

(** [this.saveState] *)
Definition saveState (n : Node.t) : Node.t :=
  if Node._saving n then n
  else
    let n := Node.set_saving true n in
    let stateJson := JSON_stringify (Node.loraState n) in
    let n := Node.set_stack_data stateJson n in
    let n :=
      if truthyZ (Node.id n)
      then Node.set_localStorage
             (saveStateToLocalStorage (Node.id n) (Node.loraState n) (Node.localStorage n)) n
      else n in
    Node.set_saving false n.

(** ** The control list *)

(** [this.widgets.indexOf(w)], [-1] when absent.  Controls are compared by
    content. *)
Definition indexOf (w : Widget.t) (ws : list Widget.t) : Z :=
  match list_find (λ x, x = w) ws with
  | Some (i, _) => Z.of_nat i
  | None => -1
  end.

(** [ws.splice(start, 0, w)], with JavaScript's treatment of a negative or
    too large [start]. *)
Definition spliceInsert (start : Z) (w : Widget.t) (ws : list Widget.t) : list Widget.t :=
  let len := Z.of_nat (length ws) in
  let s := if start <? 0 then Z.max (len + start) 0 else Z.min start len in
  take (Z.to_nat s) ws ++ w :: drop (Z.to_nat s) ws.

(** [this.addWidget(...)] and the [ComfyWidgets] helpers append the new
    control. *)
Definition addWidget (w : Widget.t) (n : Node.t) : Node.t :=
  Node.set_widgets (Node.widgets n ++ [w]) n.

(** [moveWidgetBeforeActionButtons(widget)].  Every caller passes the control
    it has just added, which [indexOf] finds, by identity, in the last
    position. *)
Definition moveWidgetBeforeActionButtons (widget : Widget.t) (n : Node.t) : Node.t :=
  let ws := Node.widgets n in
  let widgetIdx := Z.of_nat (length ws) - 1 in
  let actionButtonIdx := indexOf addLoraButton ws in
  if actionButtonIdx <? widgetIdx
  then Node.set_widgets
         (spliceInsert actionButtonIdx widget (delete (Z.to_nat widgetIdx) ws)) n
  else n.

(** Create a control and move it in front of the action buttons. *)
Definition place (w : Widget.t) (n : Node.t) : Node.t :=
  moveWidgetBeforeActionButtons w (addWidget w n).

Definition placeAll (ws : list Widget.t) (n : Node.t) : Node.t :=
  foldl (λ n w, place w n) n ws.

(** [keepWidgets] of [clearDynamicWidgets]. *)
Definition keepWidgets (ws : list Widget.t) : list Widget.t :=
  match list_find (λ w, Widget.name w = "seed") ws with
  | Some (_, seed) => [seed; stackDataWidget; addLoraButton; addGroupButton]
  | None => [stackDataWidget; addLoraButton; addGroupButton]
  end.

(** [clearDynamicWidgets()] *)
Definition clearDynamicWidgets (n : Node.t) : Node.t :=
  let keep := keepWidgets (Node.widgets n) in
  Node.set_widgets (filter (λ w, w ∈ keep) (Node.widgets n)) n.

(** ** Controls of a group *)

Definition groupTag (groupId : Z) : option (option Z) := Some (Some groupId).

(** The five controls [createGroupWidgets] makes, in creation order. *)
Definition groupWidgets (collapsed : bool) (groupId : Z) (groupData : Group.t)
    : list Widget.t :=
  [ Widget.mk "button"
      ((if collapsed then "▶" else "▼") +:+ " Group " +:+ pretty (Group.index groupData))
      None (CallToggleGroupCollapse groupId) (groupTag groupId) None true None;
    Widget.mk "button" "✕ Remove" None (CallRemoveGroup groupId)
      (groupTag groupId) None true None;
    Widget.mk "number" "  Max MODEL" (Some (VNum (Group.max_model groupData)))
      (SetGroupField groupId MaxModel) (groupTag groupId) None true None;
    Widget.mk "number" "  Max CLIP" (Some (VNum (Group.max_clip groupData)))
      (SetGroupField groupId MaxClip) (groupTag groupId) None true None;
    Widget.mk "button" "  ➕ Add LoRA" None (CallAddLora (Some groupId))
      (groupTag groupId) None true None ].

(** [createGroupWidgets(groupId, groupData)] *)
Definition createGroupWidgets (groupId : Z) (groupData : Group.t) (n : Node.t) : Node.t :=
  let collapsed := bool_decide (groupId ∈ Node.collapsedGroups n) in
  placeAll (groupWidgets collapsed groupId groupData) n.

(** ** Controls of an item *)

(** A control bound to one key of the item [loraId], showing the value the
    item holds under that key. *)
Definition fieldWidget (type name key : string) (loraId : Z)
    (tag : option (option Z)) (loraData : Lora.t) : Widget.t :=
  Widget.mk type name (Lora.get key loraData) (SetLoraField loraId key)
    tag (Some loraId) false None.

(** The controls [createGroupedLoraControls] makes. *)
Definition groupedLoraControls (loraId groupId : Z) (loraData : Lora.t) : list Widget.t :=
  let tag := groupTag groupId in
  [fieldWidget "toggle" "    🔒 MODEL" "lock_model" loraId tag loraData]
  ++ (if truthy (Lora.get "lock_model" loraData)
      then [fieldWidget "number" "      Value" "locked_model_value" loraId tag loraData]
      else [])
  ++ [fieldWidget "toggle" "    🔒 CLIP" "lock_clip" loraId tag loraData]
  ++ (if truthy (Lora.get "lock_clip" loraData)
      then [fieldWidget "number" "      Value" "locked_clip_value" loraId tag loraData]
      else []).

(** The controls [createUngroupedLoraControls] makes; they carry no
    [_groupId] tag. *)
Definition ungroupedLoraControls (loraId : Z) (loraData : Lora.t) : list Widget.t :=
  [fieldWidget "number" "MODEL Str" "model_strength" loraId None loraData;
   fieldWidget "toggle" "  🎲 Random" "random_model" loraId None loraData]
  ++ (if truthy (Lora.get "random_model" loraData)
      then [fieldWidget "number" "    Min" "min_model" loraId None loraData;
            fieldWidget "number" "    Max" "max_model" loraId None loraData]
      else [])
  ++ [fieldWidget "number" "CLIP Str" "clip_strength" loraId None loraData;
      fieldWidget "toggle" "  🎲 Random" "random_clip" loraId None loraData]
  ++ (if truthy (Lora.get "random_clip" loraData)
      then [fieldWidget "number" "    Min" "min_clip" loraId None loraData;
            fieldWidget "number" "    Max" "max_clip" loraId None loraData]
      else []).

(** All controls [createLoraWidgets] makes for one item, in creation order. *)
Definition loraWidgets (loraId : Z) (groupId : option Z) (loraData : Lora.t)
    : list Widget.t :=
  let prefix := if truthyId groupId then "    " else "" in
  [ fieldWidget "combo" (prefix +:+ "LoRA") "name" loraId (Some groupId) loraData;
    Widget.mk "button" "✕" None (CallRemoveLora loraId) (Some groupId) (Some loraId) false None;
    fieldWidget "combo" (prefix +:+ "Type") "preset" loraId (Some groupId) loraData ]
  ++ match groupId with
     | Some g => groupedLoraControls loraId g loraData
     | None => ungroupedLoraControls loraId loraData
     end.

(** [createLoraWidgets(loraId, groupId, loraData)] *)
Definition createLoraWidgets (loraId : Z) (groupId : option Z) (loraData : Lora.t)
    (n : Node.t) : Node.t :=
  placeAll (loraWidgets loraId groupId loraData) n.

(** ** Size *)

(** What one control adds to the height in [computeSize]. *)
Definition widgetHeight (w : Widget.t) : Z :=
  match Widget.computeSize w with
  | Some (_, h) => if 0 <? h then h + 4 else 0
  | None => if bool_decide (Widget.type w ≠ "converted-widget") then 30 else 0
  end.

(** [computeSize()] *)
Definition computeSize (n : Node.t) : Z * Z :=
  let height := foldl (λ h w, h + widgetHeight w) 60 (Node.widgets n) in
  (450, Z.max 140 height).

Definition setSize (size : Z * Z) (n : Node.t) : Node.t := Node.set_size size n.

(** ** Rebuild *)

(** The local variables of [rebuildUI]. *)
Record RebuildVars : Type := mkVars {
  groupIdMap : gmap Z Z;
  loraIdMap : gmap Z Z;
  nextGlobalGroupId : Z;
  nextGlobalLoraId : Z
}.

(** The inner loop [for (const loraData of ...)], used for the items of one
    group and for the ungrouped items. *)
Fixpoint rebuildLoras (newGroupId : option Z) (ls : list Lora.t)
    (acc : Node.t * RebuildVars) : Node.t * RebuildVars :=
  match ls with
  | [] => acc
  | loraData :: rest =>
      let (n, v) := acc in
      let oldLoraId := Lora.id loraData in
      let newLoraId := nextGlobalLoraId v in
      let v := mkVars (groupIdMap v) (<[oldLoraId := newLoraId]> (loraIdMap v))
                 (nextGlobalGroupId v) (newLoraId + 1) in
      rebuildLoras newGroupId rest (createLoraWidgets newLoraId newGroupId loraData n, v)
  end.

(** The loop [for (const groupData of state.groups)]. *)
Fixpoint rebuildGroups (state : LoraState) (gs : list Group.t)
    (acc : Node.t * RebuildVars) : Node.t * RebuildVars :=
  match gs with
  | [] => acc
  | groupData :: rest =>
      let (n, v) := acc in
      let oldGroupId := Group.id groupData in
      let newGroupId := nextGlobalGroupId v in
      let v := mkVars (<[oldGroupId := newGroupId]> (groupIdMap v)) (loraIdMap v)
                 (newGroupId + 1) (nextGlobalLoraId v) in
      let n := createGroupWidgets newGroupId groupData n in
      let groupLoras := filter (λ l, Lora.group_id l = Some oldGroupId) (loras state) in
      rebuildGroups state rest (rebuildLoras (Some newGroupId) groupLoras (n, v))
  end.

(** [if (newId) group.id = newId] *)
Definition updateGroupId (v : RebuildVars) (group : Group.t) : Group.t :=
  match groupIdMap v !! Group.id group with
  | Some newId => if truthyZ newId then Group.set_id newId group else group
  | None => group
  end.

(** The body of the loop over [state.loras] that writes the new ids.
    [newGroupId] is [None] for [undefined] and [Some None] for [null]. *)
Definition updateLoraIds (v : RebuildVars) (lora : Lora.t) : Lora.t :=
  let newLoraId := loraIdMap v !! Lora.id lora in
  let newGroupId : option (option Z) :=
    if truthyId (Lora.group_id lora)
    then match Lora.group_id lora with
         | Some g => Some <$> (groupIdMap v !! g)
         | None => None
         end
    else Some None in
  let lora :=
    match newLoraId with
    | Some i => if truthyZ i then Lora.set_id i lora else lora
    | None => lora
    end in
  match newGroupId with
  | Some g => Lora.set_group_id g lora
  | None => lora
  end.

(** [rebuildUI()] *)
Definition rebuildUI (n : Node.t) : Node.t :=
  let state := Node.loraState n in
  let n := clearDynamicWidgets n in
  let v := mkVars ∅ ∅ 1 1 in
  let (n, v) := rebuildGroups state (groups state) (n, v) in
  let ungroupedLoras := filter (λ l, truthyId (Lora.group_id l) = false) (loras state) in
  let (n, v) := rebuildLoras None ungroupedLoras (n, v) in
  let state := mkState (updateGroupId v <$> groups state) (updateLoraIds v <$> loras state) in
  let n := Node.set_loraState state n in
  let n := Node.set_nextGroupId (nextGlobalGroupId v) n in
  let n := Node.set_nextLoraId (nextGlobalLoraId v) n in
  setSize (computeSize n) n.

(** ** Mutation API *)

(** [addGroup()] *)
Definition addGroup (n : Node.t) : Node.t :=
  let groupId := Node.nextGroupId n in
  let n := Node.set_nextGroupId (groupId + 1) n in
  let state := Node.loraState n in
  let groupIndex := Z.of_nat (length (groups state)) + 1 in
  let groupData := Group.mk groupId groupIndex 1%Q 1%Q in
  let n := Node.set_loraState (mkState (groups state ++ [groupData]) (loras state)) n in
  let n := createGroupWidgets groupId groupData n in
  let n := saveState n in
  setSize (computeSize n) n.

(** [groups[i].index = i + 1] for every position. *)
Definition renumberIndex (gs : list Group.t) : list Group.t :=
  imap (λ i g, Group.set_index (Z.of_nat i + 1) g) gs.

(** [removeGroup(groupId)] *)
Definition removeGroup (groupId : Z) (n : Node.t) : Node.t :=
  let state := Node.loraState n in
  match list_find (λ g, Group.id g = groupId) (groups state) with
  | None => n
  | Some (groupIdx, _) =>
      let ls := filter (λ l, Lora.group_id l ≠ Some groupId) (loras state) in
      let gs := renumberIndex (delete groupIdx (groups state)) in
      let n := Node.set_loraState (mkState gs ls) n in
      saveState (rebuildUI n)
  end.

(** [toggleGroupCollapse(groupId)] *)
Definition toggleGroupCollapse (groupId : Z) (n : Node.t) : Node.t :=
  let collapsed := Node.collapsedGroups n in
  let n :=
    if bool_decide (groupId ∈ collapsed)
    then Node.set_collapsedGroups (collapsed ∖ {[groupId]}) n
    else Node.set_collapsedGroups (collapsed ∪ {[groupId]}) n in
  rebuildUI n.

(** The keys [addLora] gives an ungrouped and a grouped item. *)
Definition ungroupedDefaults : gmap string JsVal :=
  list_to_map
    [("name", VStr "None"); ("preset", VStr "Full");
     ("model_strength", VNum 1); ("clip_strength", VNum 1);
     ("random_model", VBool false); ("min_model", VNum 0); ("max_model", VNum 1);
     ("random_clip", VBool false); ("min_clip", VNum 0); ("max_clip", VNum 1)].

Definition groupedDefaults : gmap string JsVal :=
  list_to_map
    [("name", VStr "None"); ("preset", VStr "Full");
     ("lock_model", VBool false); ("locked_model_value", VNum 0);
     ("lock_clip", VBool false); ("locked_clip_value", VNum 0)].

(** [addLora(groupId)] *)
Definition addLora (groupId : option Z) (n : Node.t) : Node.t :=
  let loraId := Node.nextLoraId n in
  let n := Node.set_nextLoraId (loraId + 1) n in
  let loraData :=
    Lora.mk loraId groupId
      (match groupId with
       | None => ungroupedDefaults
       | Some _ => groupedDefaults
       end) in
  let state := Node.loraState n in
  let n := Node.set_loraState (mkState (groups state) (loras state ++ [loraData])) n in
  let n := createLoraWidgets loraId groupId loraData n in
  let n := saveState n in
  setSize (computeSize n) n.

(** [removeLora(loraId)] *)
Definition removeLora (loraId : Z) (n : Node.t) : Node.t :=
  let state := Node.loraState n in
  match list_find (λ l, Lora.id l = loraId) (loras state) with
  | None => n
  | Some (loraIdx, _) =>
      let n := Node.set_loraState (mkState (groups state) (delete loraIdx (loras state))) n in
      saveState (rebuildUI n)
  end.

(** The keys whose control decides which other controls exist; their
    callbacks rebuild before saving. *)
Definition togglesControls (key : string) : bool :=
  bool_decide (key ∈ ["lock_model"; "lock_clip"; "random_model"; "random_clip"]).

(** What the closure of a control does to the node when the host runs it
    with the value [v].  The closures of number and toggle controls first
    call [origCallback.call(widget, v)], the callback the host gave the
    control: it works on the control itself (the value it shows) and is the
    host's, so it is not part of [fire]; nothing below reads a control's
    value.  A ceiling control reports a number; with another value the
    ceiling closure is not modelled and [fire] leaves the node as it is. *)
Definition fire (cb : Callback) (v : JsVal) (n : Node.t) : Node.t :=
  let state := Node.loraState n in
  match cb with
  | NoCallback => n
  | CallAddLora groupId => addLora groupId n
  | CallAddGroup => addGroup n
  | CallToggleGroupCollapse groupId => toggleGroupCollapse groupId n
  | CallRemoveGroup groupId => removeGroup groupId n
  | CallRemoveLora loraId => removeLora loraId n
  | SetGroupField groupId field =>
      match list_find (λ g, Group.id g = groupId) (groups state), v with
      | Some (i, _), VNum q =>
          let set := match field with
                     | MaxModel => Group.set_max_model q
                     | MaxClip => Group.set_max_clip q
                     end in
          saveState (Node.set_loraState (mkState (alter set i (groups state)) (loras state)) n)
      | _, _ => n
      end
  | SetLoraField loraId key =>
      match list_find (λ l, Lora.id l = loraId) (loras state) with
      | Some (i, _) =>
          let n := Node.set_loraState
                     (mkState (groups state) (alter (Lora.set key v) i (loras state))) n in
          saveState (if togglesControls key then rebuildUI n else n)
      | None => n
      end
  end.

(** ** Persistence bridge: load *)

(** [restoreState()] *)
Definition restoreState (n : Node.t) : Node.t :=
  let afterFallback : option Node.t :=
    if truthyText (Node.stack_data n) then Some n
    else match loadStateFromLocalStorage (Node.id n) (Node.localStorage n) with
         | Some localState => Some (saveState (Node.set_loraState localState n))
         | None => None
         end in
  match afterFallback with
  | None => n
  | Some n =>
      match JSON_parse (Node.stack_data n) with
      | Some state => rebuildUI (Node.set_loraState state (clearDynamicWidgets n))
      | None => n
      end
  end.

(** [onConfigure(info)], given [info.widgets_values]. *)
Definition onConfigure (widgets_values : option (list Text)) (n : Node.t) : Node.t :=
  let n :=
    match widgets_values with
    | Some values =>
        match list_find (λ w, Widget.name w = "stack_data") (Node.widgets n) with
        | Some (stackDataIndex, _) =>
            match values !! stackDataIndex with
            | Some stateJson =>
                if truthyText stateJson then Node.set_stack_data stateJson n else n
            | None => n
            end
        | None => n
        end
    | None => n
    end in
  restoreState n.

(** [onNodeCreated()], for a node whose host gave it the id [nodeId], with or
    without a seed control, in a page whose local storage is [storage].  The
    size is the one the code sets, [this.setSize([450, 140])]; every later
    operation sets it again from [computeSize]. *)
Definition onNodeCreated (nodeId : Z) (hasSeed : bool) (storage : Storage.t)
    : Node.t :=
  Node.mk nodeId (mkState [] []) 1 1 ∅
    ((if hasSeed then [seedWidget] else [])
     ++ [stackDataWidget; addLoraButton; addGroupButton])
    Empty false (450, 140) storage.

(** * Reading the rebuild as functions of the snapshot

    The loops of [rebuildUI] thread the node and the local variables
    together.  The definitions below give, separately, the numbering the
    loops compute and the controls they create; [rebuildUI_unfold] shows that
    [rebuildUI] is made of exactly these parts. *)

(** The map built by [map.set(oldId, next++)] over a sequence of old ids. *)
Fixpoint numberIds (ids : list Z) (next : Z) (m : gmap Z Z) : gmap Z Z :=
  match ids with
  | [] => m
  | i :: rest => numberIds rest (next + 1) (<[i := next]> m)
  end.

(** The items of one group, [state.loras.filter(l => l.group_id === id)]. *)
Definition groupLoras (state : LoraState) (groupData : Group.t) : list Lora.t :=
  filter (λ l, Lora.group_id l = Some (Group.id groupData)) (loras state).

(** The ungrouped items, [state.loras.filter(l => !l.group_id)]. *)
Definition ungroupedLoras (state : LoraState) : list Lora.t :=
  filter (λ l, truthyId (Lora.group_id l) = false) (loras state).

(** The items in the order in which the rebuild creates their controls: group
    by group, then the ungrouped ones. *)
Definition groupedOrder (state : LoraState) (gs : list Group.t) : list Lora.t :=
  gs ≫= groupLoras state.

Definition buildOrder (state : LoraState) : list Lora.t :=
  groupedOrder state (groups state) ++ ungroupedLoras state.

(** The controls created for a run of items numbered from [next]. *)
Fixpoint lorasCreated (newGroupId : option Z) (ls : list Lora.t) (next : Z)
    : list Widget.t :=
  match ls with
  | [] => []
  | loraData :: rest =>
      loraWidgets next newGroupId loraData ++ lorasCreated newGroupId rest (next + 1)
  end.

(** The controls created for a run of groups numbered from [nextGroup], whose
    items are numbered from [nextLora]. *)
Fixpoint groupsCreated (collapsed : gset Z) (state : LoraState) (gs : list Group.t)
    (nextGroup nextLora : Z) : list Widget.t :=
  match gs with
  | [] => []
  | groupData :: rest =>
      groupWidgets (bool_decide (nextGroup ∈ collapsed)) nextGroup groupData
      ++ lorasCreated (Some nextGroup) (groupLoras state groupData) nextLora
      ++ groupsCreated collapsed state rest (nextGroup + 1)
           (nextLora + Z.of_nat (length (groupLoras state groupData)))
  end.

(** Every control one rebuild creates, in creation order. *)
Definition rebuildCreated (collapsed : gset Z) (state : LoraState) : list Widget.t :=
  groupsCreated collapsed state (groups state) 1 1
  ++ lorasCreated None (ungroupedLoras state)
       (1 + Z.of_nat (length (groupedOrder state (groups state)))).

(** The local variables at the end of the two creation loops. *)
Definition rebuildVars (state : LoraState) : RebuildVars :=
  mkVars (numberIds (Group.id <$> groups state) 1 ∅)
         (numberIds (Lora.id <$> buildOrder state) 1 ∅)
         (1 + Z.of_nat (length (groups state)))
         (1 + Z.of_nat (length (buildOrder state))).

(** The snapshot after the id-writing loops. *)
Definition renumber (state : LoraState) : LoraState :=
  let v := rebuildVars state in
  mkState (updateGroupId v <$> groups state) (updateLoraIds v <$> loras state).

(** [place] and [placeAll] on the control list alone. *)
Definition placeIn (w : Widget.t) (ws : list Widget.t) : list Widget.t :=
  let ws1 := ws ++ [w] in
  let widgetIdx := Z.of_nat (length ws1) - 1 in
  let actionButtonIdx := indexOf addLoraButton ws1 in
  if actionButtonIdx <? widgetIdx
  then spliceInsert actionButtonIdx w (delete (Z.to_nat widgetIdx) ws1)
  else ws1.

Definition placeAllIn (ws created : list Widget.t) : list Widget.t :=
  foldl (λ ws w, placeIn w ws) ws created.

(** The control list after a rebuild. *)
Definition rebuiltWidgets (collapsed : gset Z) (state : LoraState)
    (ws : list Widget.t) : list Widget.t :=
  placeAllIn (filter (λ w, w ∈ keepWidgets ws) ws) (rebuildCreated collapsed state).

(** ** Relating snapshots up to ids *)

(** An item is ungrouped when the ungrouped loop of the rebuild takes it. *)
Definition isUngrouped (l : Lora.t) : Prop := truthyId (Lora.group_id l) = false.

(** Referential integrity: every item is ungrouped or names an existing
    group. *)
Definition refsResolve (state : LoraState) : Prop :=
  ∀ l, l ∈ loras state →
    isUngrouped l ∨ ∃ g, g ∈ groups state ∧ Lora.group_id l = Some (Group.id g).

(** No group carries a falsy id, which the rebuild would read as
    "ungrouped". *)
Definition groupIdsTruthy (state : LoraState) : Prop :=
  ∀ g, g ∈ groups state → Group.id g ≠ 0.

(** All fields of a group but its id. *)
Definition sameGroupFields (g g' : Group.t) : Prop :=
  Group.index g = Group.index g'
  ∧ Group.max_model g = Group.max_model g'
  ∧ Group.max_clip g = Group.max_clip g'.

(** All fields of an item but its id and group id. *)
Definition sameLoraFields (l l' : Lora.t) : Prop := Lora.props l = Lora.props l'.

(** Membership of an item in a group, as the group loop of the rebuild and
    the cascade of [removeGroup] test it: [l.group_id === g.id]. *)
Definition isMember (l : Lora.t) (g : Group.t) : Prop :=
  Lora.group_id l = Some (Group.id g).

(** Structural equality of two snapshots up to id renumbering: the same
    groups and the same items, position by position, with every field but
    the ids equal; the item in position [p] is a member of the group in
    position [j] in the one exactly when it is in the other; and the same
    items are ungrouped. *)
Definition sameUpToIds (s s' : LoraState) : Prop :=
  Forall2 sameGroupFields (groups s) (groups s')
  ∧ Forall2 sameLoraFields (loras s) (loras s')
  ∧ (∀ p j l l' g g',
        loras s !! p = Some l → loras s' !! p = Some l' →
        groups s !! j = Some g → groups s' !! j = Some g' →
        (isMember l g ↔ isMember l' g'))
  ∧ (∀ p l l',
        loras s !! p = Some l → loras s' !! p = Some l' →
        (isUngrouped l ↔ isUngrouped l')).

(** ** Auxiliary notions used in the proofs *)

(** No two keys share a number, and every number is below [next]. *)
Definition injBelow (m : gmap Z Z) (next : Z) : Prop :=
  (∀ a b i, m !! a = Some i → m !! b = Some i → a = b)
  ∧ (∀ a i, m !! a = Some i → i < next).

#[global] Instance isUngrouped_dec l : Decision (isUngrouped l).
Proof. unfold isUngrouped. apply _. Defined.

#[global] Instance refsResolve_dec state : Decision (refsResolve state).
Proof.
  refine (cast_if (decide (Forall (λ l, isUngrouped l
            ∨ Exists (λ g, Lora.group_id l = Some (Group.id g)) (groups state))
            (loras state))));
    match goal with H : _ |- _ =>
      rewrite Forall_forall in H; setoid_rewrite Exists_exists in H; exact H
    end.
Defined.

#[global] Instance groupIdsTruthy_dec state : Decision (groupIdsTruthy state).
Proof.
  refine (cast_if (decide (Forall (λ g, Group.id g ≠ 0) (groups state))));
    match goal with H : _ |- _ => rewrite Forall_forall in H; exact H end.
Defined.

(** The control found by [this.widgets.find(w => w.name === "seed")]. *)
Definition seedOf (ws : list Widget.t) : option Widget.t :=
  snd <$> list_find (λ w, Widget.name w = "seed") ws.

(** A control that [clearDynamicWidgets] can never keep. *)
Definition isDynamic (w : Widget.t) : Prop :=
  Widget.name w ≠ "seed"
  ∧ w ≠ stackDataWidget ∧ w ≠ addLoraButton ∧ w ≠ addGroupButton.

(** The prior values handed to the load hook give the [stack_data] field no
    text: there are none, the node has no such control, the list is too
    short, or the entry is empty. *)
Definition noPriorText (widgets_values : option (list Text)) (n : Node.t) : Prop :=
  match widgets_values with
  | Some values =>
      match list_find (λ w, Widget.name w = "stack_data") (Node.widgets n) with
      | Some (stackDataIndex, _) =>
          match values !! stackDataIndex with
          | Some stateJson => truthyText stateJson = false
          | None => True
          end
      | None => True
      end
  | None => True
  end.

(** ** Example nodes *)

(** A fresh node without seed control, in a page with empty local storage. *)
Definition freshNode : Node.t := onNodeCreated 7 false ∅.

(** Two groups with one item each and one ungrouped item. *)
Definition exampleNode : Node.t :=
  addLora None (addLora (Some 2) (addLora (Some 1)
    (addGroup (addGroup (onNodeCreated 7 true ∅))))).

(** One group holding one item. *)
Definition oneGroupNode : Node.t := addLora (Some 1) (addGroup freshNode).

(** A fresh node in a page whose local storage holds the snapshot of
    [oneGroupNode] under the node's key. *)
Definition cachedNode : Node.t :=
  onNodeCreated 7 false (Node.localStorage oneGroupNode).

(** Scenario B of the specification: an ungrouped item is added to a fresh
    node, its clip randomization is switched on and the bounds are set to
    0.2 and 0.8, each through the callback of the control concerned. *)
Definition scenarioB : Node.t :=
  fire (SetLoraField 1 "max_clip") (VNum 0.8)
    (fire (SetLoraField 1 "min_clip") (VNum 0.2)
       (fire (SetLoraField 1 "random_clip") (VBool true) (addLora None freshNode))).

(** The item of [scenarioB]. *)
Definition scenarioBItem : Lora.t :=
  Lora.mk 1 None
    (<["max_clip" := VNum 0.8]>
       (<["min_clip" := VNum 0.2]> (<["random_clip" := VBool true]> ungroupedDefaults))).


(** A fresh node given the snapshot [state]. *)
Definition nodeWith (state : LoraState) : Node.t := Node.set_loraState state freshNode.

(** A group with id 0 and an item naming it. *)
Definition zeroIdState : LoraState :=
  mkState [Group.mk 0 1 1 1] [Lora.mk 1 (Some 0) groupedDefaults].

(** Two groups with the same id. *)
Definition sameGroupIdState : LoraState :=
  mkState [Group.mk 1 1 1 1; Group.mk 1 2 1 1] [Lora.mk 1 (Some 1) groupedDefaults].

(** A node reached through the code alone: a document whose only item names
    a group that does not exist is loaded into a fresh node, then a group is
    added (it gets the id 1, which the item names) and an item is added to
    that group (it gets the id 1, which the loaded item already has). *)
Definition sameLoraIdNode : Node.t :=
  addLora (Some 1)
    (addGroup
       (onConfigure
          (Some [JSON_stringify (mkState [] [Lora.mk 1 (Some 1) groupedDefaults])])
          freshNode)).

(** An item naming group 1 while the only group has id 5. *)
Definition danglingState : LoraState :=
  mkState [Group.mk 5 1 1 1] [Lora.mk 1 (Some 1) groupedDefaults].

(** A dangling item that shares its id with an ungrouped item. *)
Definition danglingSameIdState : LoraState :=
  mkState [] [Lora.mk 5 (Some 99) groupedDefaults; Lora.mk 5 None ungroupedDefaults].

(** ** Notions used to state the properties of reachable nodes *)

(** [stackDataWidget.serializeValue()], the hook the host calls when it
    writes the workflow document: save, then report the field. *)
Definition serializeValue (n : Node.t) : Node.t * Text :=
  let n := saveState n in
  (n, Node.stack_data n).

(** The control list [seeds ++ stack_data ++ dyn ++ action buttons]. *)
Definition layout (seeds dyn : list Widget.t) : list Widget.t :=
  seeds ++ [stackDataWidget] ++ dyn ++ [addLoraButton; addGroupButton].

(** The host's seed control, if the node has one: no control, or one control
    named "seed" whose callback is the host's own. *)
Definition isSeeds (seeds : list Widget.t) : Prop :=
  seeds = []
  ∨ ∃ s, seeds = [s] ∧ Widget.name s = "seed" ∧ Widget.callback s = NoCallback.

(** The shape of the control list: the permanent controls first, then the
    controls of groups and items, then the two action buttons. *)
Definition laidOut (ws : list Widget.t) : Prop :=
  ∃ seeds dyn, ws = layout seeds dyn ∧ isSeeds seeds ∧ Forall isDynamic dyn.

(** The group labels count 1, 2, ... in display order. *)
Definition indexed (state : LoraState) : Prop :=
  Group.index <$> groups state = seqZ 1 (Z.of_nat (length (groups state))).

(** A snapshot on which the rebuild renumbers without loss: referential
    integrity, no falsy group id, distinct group ids, distinct item ids. *)
Definition wellFormed (state : LoraState) : Prop :=
  refsResolve state ∧ groupIdsTruthy state
  ∧ NoDup (Group.id <$> groups state) ∧ NoDup (Lora.id <$> loras state).

(** The ids in use are dense: the groups carry 1, 2, ... in display order,
    the items carry the numbers 1, 2, ... in some order, and each counter is
    one past the ids in use. *)
Definition denselyNumbered (n : Node.t) : Prop :=
  let state := Node.loraState n in
  Group.id <$> groups state = seqZ 1 (Z.of_nat (length (groups state)))
  ∧ Node.nextGroupId n = 1 + Z.of_nat (length (groups state))
  ∧ Lora.id <$> loras state ≡ₚ seqZ 1 (Z.of_nat (length (loras state)))
  ∧ Node.nextLoraId n = 1 + Z.of_nat (length (loras state)).

(** The group or item a callback works on exists in the snapshot. *)
Definition targetExists (state : LoraState) (cb : Callback) : Prop :=
  match cb with
  | NoCallback | CallAddGroup | CallAddLora None => True
  | CallAddLora (Some g) | CallToggleGroupCollapse g | CallRemoveGroup g
  | SetGroupField g _ => g ∈ Group.id <$> groups state
  | CallRemoveLora i | SetLoraField i _ => i ∈ Lora.id <$> loras state
  end.

(** The ids a callback works on lie in the ranges [1 .. ng - 1] for groups
    and [1 .. nl - 1] for items. *)
Definition targetBelow (ng nl : Z) (cb : Callback) : Prop :=
  match cb with
  | NoCallback | CallAddGroup | CallAddLora None => True
  | CallAddLora (Some g) | CallToggleGroupCollapse g | CallRemoveGroup g
  | SetGroupField g _ => 1 ≤ g < ng
  | CallRemoveLora i | SetLoraField i _ => 1 ≤ i < nl
  end.

(** The state of a node between two events, as the methods keep it. *)
Definition consistent (n : Node.t) : Prop :=
  laidOut (Node.widgets n)
  ∧ refsResolve (Node.loraState n)
  ∧ indexed (Node.loraState n)
  ∧ denselyNumbered n
  ∧ (∀ w, w ∈ Node.widgets n → targetExists (Node.loraState n) (Widget.callback w))
  ∧ Node._saving n = false.

(** The user works a control: the host runs the callback of the control in
    position [step.1] with the value [step.2]. *)
Definition activate (step : nat * JsVal) (n : Node.t) : Node.t :=
  match Node.widgets n !! step.1 with
  | Some w => fire (Widget.callback w) step.2 n
  | None => n
  end.

(** A sequence of such events. *)
Definition session (steps : list (nat * JsVal)) (n : Node.t) : Node.t :=
  foldl (λ n step, activate step n) n steps.

(** The document field holds the text of the current snapshot. *)
Definition inSync (n : Node.t) : Prop :=
  Node.stack_data n = JSON_stringify (Node.loraState n).

(** The backup cache holds the current snapshot under the node's key; a node
    whose id is falsy has no backup. *)
Definition backedUp (n : Node.t) : Prop :=
  Node.id n ≠ 0 →
  loadStateFromLocalStorage (Node.id n) (Node.localStorage n) = Some (Node.loraState n).

(** The store [storage] takes the write by which [saveStateToLocalStorage]
    backs up [state] under the key of the node [nodeId]. *)
Definition takes (storage : Storage.t) (nodeId : Z) (state : LoraState) : Prop :=
  Storage.accepts storage (Storage.items storage) (storageKey nodeId)
    (JSON_stringify state) = true.

(** The node has been saved over the store [before]: the document field
    holds the text of its snapshot; if the store took the write the backup
    cache holds the snapshot; if the node's id is 0 or the store refused the
    write, the store is as it was. *)
Definition savedOver (before : Storage.t) (n : Node.t) : Prop :=
  inSync n
  ∧ (takes before (Node.id n) (Node.loraState n) → backedUp n)
  ∧ (Node.id n = 0 ∨ ¬ takes before (Node.id n) (Node.loraState n) →
     Node.localStorage n = before).

(** A store that refuses every write: its quota is used up by other pages,
    or storage is disabled. *)
Definition fullStorage : Storage.t := Storage.mk ∅ (λ _ _ _, false).

(** [mixedNode] in a page whose store refuses every write. *)
Definition unbackedNode : Node.t :=
  addLora (Some 1) (addGroup (addLora None (onNodeCreated 7 false fullStorage))).

#[global] Instance Text_eq_dec : EqDecision Text.
Proof. solve_decision. Defined.

(** An ungrouped item added before a group and its item: the build order
    differs from the order of creation. *)
Definition mixedNode : Node.t := addLora (Some 1) (addGroup (addLora None freshNode)).

(** A control list from which the Add LoRA button is missing. *)
Definition noButtonNode : Node.t :=
  Node.set_widgets [seedWidget; stackDataWidget] freshNode.

#[global] Instance isDynamic_dec w : Decision (isDynamic w).
Proof. unfold isDynamic. apply _. Defined.

(** The controls of a list that [clearDynamicWidgets] can never keep. *)
Definition dynamicOf (ws : list Widget.t) : list Widget.t := filter isDynamic ws.

(** The sum [computeSize] forms over a control list. *)
Definition heightOf (ws : list Widget.t) : Z :=
  foldl (λ h w, h + widgetHeight w) 0 ws.

#[global] Instance targetExists_dec state cb : Decision (targetExists state cb).
Proof. destruct cb as [|[g|]| |g|g|i|g field|i key]; cbn; apply _. Defined.

(** Every snapshot a load of the node [n] with the prior values [values] can
    read is well formed, with group labels counting from 1: the texts among
    the prior values, the text in the document field, and the entry of the
    backup cache. *)
Definition readable (values : option (list Text)) (n : Node.t) : Prop :=
  (∀ vs t state, values = Some vs → t ∈ vs → JSON_parse t = Some state →
     wellFormed state ∧ indexed state)
  ∧ (∀ state, JSON_parse (Node.stack_data n) = Some state →
       wellFormed state ∧ indexed state)
  ∧ (∀ state, loadStateFromLocalStorage (Node.id n) (Node.localStorage n) = Some state →
       wellFormed state ∧ indexed state).

(** A snapshot with gaps in its ids, in an order that differs from the build
    order. *)
Definition sparseState : LoraState :=
  mkState [Group.mk 5 1 1 1; Group.mk 9 2 1 1]
    [Lora.mk 7 None ungroupedDefaults; Lora.mk 3 (Some 9) groupedDefaults;
     Lora.mk 4 (Some 5) groupedDefaults].

(** The prior values the host hands to the load hook of a reopened node: the
    serialized document field of [n], at the position the field has in a
    fresh node.  The entry of the seed control, which the load hook does not
    read, is represented by the empty text. *)
Definition savedValues (hasSeed : bool) (n : Node.t) : list Text :=
  (if hasSeed then [Empty] else []) ++ [(serializeValue n).2].

(** The first half of [onConfigure]: a non-empty text found among the prior
    values, at the position of the [stack_data] control, is copied into the
    document field. *)
Definition primeField (widgets_values : option (list Text)) (n : Node.t) : Node.t :=
  match widgets_values with
  | Some values =>
      match list_find (λ w, Widget.name w = "stack_data") (Node.widgets n) with
      | Some (stackDataIndex, _) =>
          match values !! stackDataIndex with
          | Some stateJson =>
              if truthyText stateJson then Node.set_stack_data stateJson n else n
          | None => n
          end
      | None => n
      end
  | None => n
  end.

(** * The placement helpers of the earlier revision

    The source file also carries the earlier revision of the extension.  It
    differs from the revision embedded above in how a new control reaches
    its place: instead of being appended and moved in front of the action
    buttons, the control is created at an index computed by
    [getInsertIndexForGroup] or [getInsertIndexForLora] and put there by
    [insertWidget].  These helpers, and the [createGroupWidgets] that uses
    them, are embedded here. *)

Module Legacy.

(** The control [insertWidget] creates, by type: a "toggle" comes from
    [ComfyWidgets.BOOLEAN] with the default [value || false], a "number"
    from [ComfyWidgets.FLOAT] with the default [value || 0], and every other
    type from [addWidget] with the value as given. *)
Definition createWidget (type name : string) (value : option JsVal)
    (callback : Callback) : Widget.t :=
  let value :=
    if String.eqb type "combo" then value
    else if String.eqb type "toggle"
         then (if truthy value then value else Some (VBool false))
    else if String.eqb type "number"
         then (if truthy value then value else Some (VNum 0))
    else value in
  Widget.mk type name value callback None None false None.

(** The second half of [insertWidget], "move to correct position": the
    control was appended, so [indexOf] finds it in the last position. *)
Definition moveTo (index : Z) (widget : Widget.t) (n : Node.t) : Node.t :=
  let ws := Node.widgets n in
  let currentIdx := Z.of_nat (length ws) - 1 in
  if currentIdx =? index then n
  else Node.set_widgets (spliceInsert index widget (delete (Z.to_nat currentIdx) ws)) n.

(** [insertWidget(index, type, name, value, callback, options)]; the result
    is the node and the control returned. *)
Definition insertWidget (index : Z) (type name : string) (value : option JsVal)
    (callback : Callback) (n : Node.t) : Node.t * Widget.t :=
  let widget := createWidget type name value callback in
  (moveTo index widget (addWidget widget n), widget).

(** [getInsertIndexForGroup(groupId)] *)
Definition getInsertIndexForGroup (groupId : Z) (n : Node.t) : Z :=
  let seedIdx :=
    match list_find (λ w, Widget.name w = "seed") (Node.widgets n) with
    | Some (i, _) => Z.of_nat i
    | None => -1
    end in
  seedIdx + 2.

(** The position of the last control satisfying [P], which is what
    [indexOf] gives for the last element of [widgets.filter(P)]. *)
Fixpoint lastIndex (P : Widget.t → bool) (ws : list Widget.t) : option nat :=
  match ws with
  | [] => None
  | w :: rest =>
      match lastIndex P rest with
      | Some i => Some (S i)
      | None => if P w then Some 0%nat else None
      end
  end.

(** [w._groupId === groupId && w._isGroupWidget] *)
Definition isGroupWidgetOf (groupId : Z) (w : Widget.t) : bool :=
  bool_decide (Widget._groupId w = Some (Some groupId)) && Widget._isGroupWidget w.

(** [getInsertIndexForLora(loraId, groupId)] *)
Definition getInsertIndexForLora (loraId : Z) (groupId : option Z) (n : Node.t) : Z :=
  let ws := Node.widgets n in
  match groupId with
  | Some g =>
      match lastIndex (isGroupWidgetOf g) ws with
      | Some idx => Z.of_nat idx + 1
      | None => Z.of_nat (length ws) - 2
      end
  | None => indexOf addLoraButton ws
  end.

(** The assignments [w._groupId = groupId; w._isGroupWidget = true] made on
    a control right after its creation. *)
Definition tagGroup (groupId : Z) (w : Widget.t) : Widget.t :=
  Widget.mk (Widget.type w) (Widget.name w) (Widget.value w) (Widget.callback w)
    (groupTag groupId) (Widget._loraId w) true (Widget.computeSize w).

(** The five controls of a group in the earlier revision. *)
Definition groupWidgets (collapsed : bool) (groupId : Z) (groupData : Group.t)
    : list Widget.t :=
  tagGroup groupId <$>
    [ createWidget "button"
        ((if collapsed then "▶" else "▼") +:+ " Group " +:+ pretty (Group.index groupData))
        None (CallToggleGroupCollapse groupId);
      createWidget "button" "✕ Remove" None (CallRemoveGroup groupId);
      createWidget "number" "  Max MODEL" (Some (VNum (Group.max_model groupData)))
        (SetGroupField groupId MaxModel);
      createWidget "number" "  Max CLIP" (Some (VNum (Group.max_clip groupData)))
        (SetGroupField groupId MaxClip);
      createWidget "button" "  ➕ Add LoRA" None (CallAddLora (Some groupId)) ].

(** One step of [createGroupWidgets]: [insertWidget] followed by the two tag
    assignments on the control it returns, which sits in the list. *)
Definition insertGroupWidget (index : Z) (groupId : Z) (type name : string)
    (value : option JsVal) (callback : Callback) (n : Node.t) : Node.t :=
  let widget := tagGroup groupId (createWidget type name value callback) in
  moveTo index widget (addWidget widget n).

(** [createGroupWidgets(groupId, groupData)] of the earlier revision. *)
Definition createGroupWidgets (groupId : Z) (groupData : Group.t) (n : Node.t) : Node.t :=
  let insertIdx := getInsertIndexForGroup groupId n in
  let collapsed := bool_decide (groupId ∈ Node.collapsedGroups n) in
  let n := insertGroupWidget insertIdx groupId "button"
             ((if collapsed then "▶" else "▼") +:+ " Group "
              +:+ pretty (Group.index groupData))
             None (CallToggleGroupCollapse groupId) n in
  let n := insertGroupWidget (insertIdx + 1) groupId "button" "✕ Remove" None
             (CallRemoveGroup groupId) n in
  let n := insertGroupWidget (insertIdx + 2) groupId "number" "  Max MODEL"
             (Some (VNum (Group.max_model groupData))) (SetGroupField groupId MaxModel) n in
  let n := insertGroupWidget (insertIdx + 3) groupId "number" "  Max CLIP"
             (Some (VNum (Group.max_clip groupData))) (SetGroupField groupId MaxClip) n in
  insertGroupWidget (insertIdx + 4) groupId "button" "  ➕ Add LoRA" None
    (CallAddLora (Some groupId)) n.

End Legacy.

(** Two groups created one after the other by the earlier revision's
    [createGroupWidgets], on a fresh node with a seed control. *)
Definition legacyTwoGroups : Node.t :=
  Legacy.createGroupWidgets 2 (Group.mk 2 2 1 1)
    (Legacy.createGroupWidgets 1 (Group.mk 1 1 1 1) (onNodeCreated 7 true ∅)).


(** * Proofs *)

(** A decidable proposition about concrete data, settled by evaluating its
    decision procedure. *)
Ltac decide_by_evaluation :=
  apply (bool_decide_unpack _); vm_compute; reflexivity.

(** Case analysis on a hypothesis [H : w ∈ ...] over a list of controls that
    is written out with [++], [::] and conditionals. *)
Ltac split_controls H :=
  repeat first
    [ apply elem_of_nil in H
    | apply elem_of_app in H as [H|H]
    | apply elem_of_cons in H as [->|H]
    | case_match ].

(** ** The control list under [place] *)

Lemma place_widgets w n :
  place w n = Node.set_widgets (placeIn w (Node.widgets n)) n.
Proof.
  destruct n. unfold place, moveWidgetBeforeActionButtons, addWidget, placeIn. simpl.
  by case_match.
Qed.

Lemma set_widgets_id n : Node.set_widgets (Node.widgets n) n = n.
Proof. by destruct n. Qed.

Lemma placeAll_widgets cs n :
  placeAll cs n = Node.set_widgets (placeAllIn (Node.widgets n) cs) n.
Proof.
  revert n. induction cs as [|c cs IH]; intros n; simpl.
  - by rewrite set_widgets_id.
  - unfold placeAll, placeAllIn in *. simpl. rewrite IH, place_widgets. by destruct n.
Qed.

Lemma placeAll_app a b n : placeAll (a ++ b) n = placeAll b (placeAll a n).
Proof. unfold placeAll. by rewrite foldl_app. Qed.

Lemma placeAllIn_app ws a b : placeAllIn ws (a ++ b) = placeAllIn (placeAllIn ws a) b.
Proof. unfold placeAllIn. by rewrite foldl_app. Qed.

(** [place] puts the new control somewhere between the old ones and leaves
    their order alone. *)
Lemma placeIn_split w ws :
  ∃ a b, ws = a ++ b ∧ placeIn w ws = a ++ w :: b.
Proof.
  unfold placeIn. case_match.
  - replace (Z.to_nat (Z.of_nat (length (ws ++ [w])) - 1)) with (length ws)
      by (rewrite length_app; simpl; lia).
    replace (delete (length ws) (ws ++ [w])) with ws.
    2:{ by rewrite (delete_middle ws [] w), app_nil_r. }
    unfold spliceInsert.
    eexists (take _ ws), (drop _ ws). split; [by rewrite take_drop|done].
  - exists ws, []. by rewrite app_nil_r.
Qed.

(** ** The rebuild loops *)

Lemma numberIds_app a b next m :
  numberIds (a ++ b) next m = numberIds b (next + Z.of_nat (length a)) (numberIds a next m).
Proof.
  revert next m. induction a as [|x a IH]; intros next m; simpl.
  - by rewrite Z.add_0_r.
  - rewrite IH. f_equal. lia.
Qed.

Lemma placeAll_collapsedGroups cs n :
  Node.collapsedGroups (placeAll cs n) = Node.collapsedGroups n.
Proof. by rewrite placeAll_widgets. Qed.

Lemma rebuildLoras_eq newGroupId ls n v :
  rebuildLoras newGroupId ls (n, v) =
  (placeAll (lorasCreated newGroupId ls (nextGlobalLoraId v)) n,
   mkVars (groupIdMap v)
          (numberIds (Lora.id <$> ls) (nextGlobalLoraId v) (loraIdMap v))
          (nextGlobalGroupId v)
          (nextGlobalLoraId v + Z.of_nat (length ls))).
Proof.
  revert n v. induction ls as [|l ls IH]; intros n v.
  - destruct v; cbn. by rewrite Z.add_0_r.
  - cbn [rebuildLoras lorasCreated fmap list_fmap numberIds length].
    rewrite IH. cbn [groupIdMap loraIdMap nextGlobalGroupId nextGlobalLoraId].
    rewrite placeAll_app. unfold createLoraWidgets.
    do 2 f_equal. lia.
Qed.

Lemma rebuildGroups_eq state gs n v :
  rebuildGroups state gs (n, v) =
  (placeAll (groupsCreated (Node.collapsedGroups n) state gs
               (nextGlobalGroupId v) (nextGlobalLoraId v)) n,
   mkVars (numberIds (Group.id <$> gs) (nextGlobalGroupId v) (groupIdMap v))
          (numberIds (Lora.id <$> groupedOrder state gs) (nextGlobalLoraId v) (loraIdMap v))
          (nextGlobalGroupId v + Z.of_nat (length gs))
          (nextGlobalLoraId v + Z.of_nat (length (groupedOrder state gs)))).
Proof.
  revert n v. induction gs as [|g gs IH]; intros n v.
  - destruct v; cbn. by rewrite !Z.add_0_r.
  - cbn [rebuildGroups groupsCreated fmap list_fmap numberIds length].
    fold (groupLoras state g). rewrite rebuildLoras_eq.
    cbn [groupIdMap loraIdMap nextGlobalGroupId nextGlobalLoraId].
    rewrite IH. cbn [groupIdMap loraIdMap nextGlobalGroupId nextGlobalLoraId].
    unfold createGroupWidgets. rewrite !placeAll_collapsedGroups, <- !placeAll_app.
    unfold groupedOrder. rewrite bind_cons, fmap_app, numberIds_app, length_app, length_fmap.
    f_equal. f_equal; lia.
Qed.

(** [rebuildUI] leaves every field of the node alone except the snapshot, the
    two counters, the control list and the size, and these are the functions
    of the old snapshot defined above. *)
Lemma rebuildUI_unfold n :
  rebuildUI n =
  let state := Node.loraState n in
  let n' :=
    Node.mk (Node.id n) (renumber state)
      (1 + Z.of_nat (length (groups state)))
      (1 + Z.of_nat (length (buildOrder state)))
      (Node.collapsedGroups n)
      (rebuiltWidgets (Node.collapsedGroups n) state (Node.widgets n))
      (Node.stack_data n) (Node._saving n) (Node.size n) (Node.localStorage n) in
  setSize (computeSize n') n'.
Proof.
  unfold rebuildUI. rewrite rebuildGroups_eq.
  cbn [groupIdMap loraIdMap nextGlobalGroupId nextGlobalLoraId].
  fold (ungroupedLoras (Node.loraState n)). rewrite rebuildLoras_eq.
  cbn [groupIdMap loraIdMap nextGlobalGroupId nextGlobalLoraId].
  rewrite <- placeAll_app, placeAll_widgets.
  cbv zeta. unfold renumber, rebuildVars, buildOrder, rebuiltWidgets, rebuildCreated.
  rewrite fmap_app, numberIds_app, !length_app, length_fmap.
  destruct n as [i st ng nl cg ws sd sv sz lst]; cbn.
  replace (1 + Z.of_nat (length (groupedOrder st (groups st)))
           + Z.of_nat (length (ungroupedLoras st)))
    with (1 + Z.of_nat (length (groupedOrder st (groups st))
                        + length (ungroupedLoras st))%nat) by lia.
  reflexivity.
Qed.

(** ** The numbering maps *)

Lemma numberIds_lookup_notin ids next m k :
  k ∉ ids → numberIds ids next m !! k = m !! k.
Proof.
  revert next m. induction ids as [|i ids IH]; intros next m Hk; simpl; [done|].
  apply not_elem_of_cons in Hk as [Hne Hk].
  rewrite IH by done. by rewrite lookup_insert_ne.
Qed.

Lemma numberIds_lookup_in ids next m k :
  k ∈ ids →
  ∃ i, numberIds ids next m !! k = Some i ∧ next ≤ i < next + Z.of_nat (length ids).
Proof.
  revert next m. induction ids as [|i ids IH]; intros next m Hk; simpl.
  - by apply elem_of_nil in Hk.
  - destruct (decide (k ∈ ids)) as [Hin|Hnotin].
    + destruct (IH (next + 1) (<[i:=next]> m) Hin) as (j & Hj & Hb).
      exists j. split; [done|lia].
    + apply elem_of_cons in Hk as [->|?]; [|done].
      exists next. rewrite numberIds_lookup_notin by done.
      rewrite lookup_insert_eq. split; [done|lia].
Qed.

Lemma injBelow_empty next : injBelow ∅ next.
Proof. split; intros *; by rewrite lookup_empty. Qed.

Lemma numberIds_injBelow ids next m :
  injBelow m next → injBelow (numberIds ids next m) (next + Z.of_nat (length ids)).
Proof.
  revert next m. induction ids as [|i ids IH]; intros next m [Hinj Hlt];
    cbn [numberIds length].
  - rewrite Z.add_0_r. by split.
  - replace (next + Z.of_nat (S (length ids)))
      with (next + 1 + Z.of_nat (length ids)) by lia.
    apply IH. split.
    + intros a b j Ha Hb.
      destruct (decide (a = b)) as [|Hab]; [done|exfalso].
      destruct (decide (i = a)) as [Hia|Hia], (decide (i = b)) as [Hib|Hib].
      * congruence.
      * subst a. rewrite lookup_insert_eq in Ha. rewrite lookup_insert_ne in Hb by done.
        simplify_eq. apply Hlt in Hb. lia.
      * subst b. rewrite lookup_insert_eq in Hb. rewrite lookup_insert_ne in Ha by done.
        simplify_eq. apply Hlt in Ha. lia.
      * rewrite lookup_insert_ne in Ha, Hb by done. eauto.
    + intros a j Ha. destruct (decide (i = a)) as [->|Hia].
      * rewrite lookup_insert_eq in Ha. simplify_eq. lia.
      * rewrite lookup_insert_ne in Ha by done. apply Hlt in Ha. lia.
Qed.

Lemma numberIds_inj ids a b i :
  numberIds ids 1 ∅ !! a = Some i → numberIds ids 1 ∅ !! b = Some i → a = b.
Proof. apply (numberIds_injBelow ids 1 ∅ (injBelow_empty 1)). Qed.

(** With distinct old ids, the id in position [p] is numbered [next + p]. *)
Lemma numberIds_NoDup ids next m p k :
  NoDup ids → ids !! p = Some k →
  numberIds ids next m !! k = Some (next + Z.of_nat p).
Proof.
  revert next m p. induction ids as [|i ids IH]; intros next m p Hnd Hp; [done|].
  apply NoDup_cons in Hnd as [Hi Hnd]. destruct p as [|p]; simpl in *.
  - simplify_eq. rewrite numberIds_lookup_notin by done.
    rewrite lookup_insert_eq. f_equal. lia.
  - rewrite (IH _ _ p) by done. f_equal. lia.
Qed.

(** Renaming the old ids along a function that is injective on them does not
    change the numbers. *)
Lemma numberIds_rename (φ : Z → Z) (D : Z → Prop) ids next m m' k :
  (∀ a b, D a → D b → φ a = φ b → a = b) →
  (∀ a, a ∈ ids → D a) → D k →
  (∀ a, D a → m' !! φ a = m !! a) →
  numberIds (φ <$> ids) next m' !! φ k = numberIds ids next m !! k.
Proof.
  intros Hφ. revert next m m'.
  induction ids as [|i ids IH]; intros next m m' Hids Hk Hm; simpl; [by apply Hm|].
  apply IH; [|done|].
  - intros a Ha. apply Hids. by right.
  - intros a Ha. destruct (decide (i = a)) as [->|Hia].
    + by rewrite !lookup_insert_eq.
    + rewrite !lookup_insert_ne; [by apply Hm|done|].
      intros Heq. apply Hia, Hφ; [|done|done]. apply Hids. by left.
Qed.

(** ** What the id-writing loops do to one group and one item *)

Lemma updateGroupId_fields v g : sameGroupFields g (updateGroupId v g).
Proof. unfold updateGroupId. repeat case_match; by repeat split. Qed.

Lemma updateGroupId_Some v g i :
  groupIdMap v !! Group.id g = Some i → i ≠ 0 → Group.id (updateGroupId v g) = i.
Proof.
  intros Hi Hne. unfold updateGroupId, truthyZ. rewrite Hi.
  by destruct (Z.eqb_spec i 0).
Qed.

Lemma updateLoraIds_props v l : Lora.props (updateLoraIds v l) = Lora.props l.
Proof. unfold updateLoraIds. by repeat case_match. Qed.

Lemma updateLoraIds_id_None v l :
  loraIdMap v !! Lora.id l = None → Lora.id (updateLoraIds v l) = Lora.id l.
Proof. intros Hl. unfold updateLoraIds. rewrite Hl. by repeat case_match. Qed.

Lemma updateLoraIds_id_Some v l i :
  loraIdMap v !! Lora.id l = Some i → i ≠ 0 → Lora.id (updateLoraIds v l) = i.
Proof.
  intros Hl Hne. unfold updateLoraIds, truthyZ. rewrite Hl.
  destruct (Z.eqb_spec i 0); [done|]. by repeat case_match.
Qed.

Lemma updateLoraIds_ungrouped v l :
  isUngrouped l → Lora.group_id (updateLoraIds v l) = None.
Proof.
  unfold isUngrouped, updateLoraIds. intros ->. by repeat case_match.
Qed.

Lemma updateLoraIds_group_Some v l z i :
  Lora.group_id l = Some z → z ≠ 0 → groupIdMap v !! z = Some i →
  Lora.group_id (updateLoraIds v l) = Some i.
Proof.
  intros Hg Hz Hi. unfold updateLoraIds, truthyId, truthyZ. rewrite Hg.
  destruct (Z.eqb_spec z 0); [done|]. simpl. rewrite Hi. simpl. by repeat case_match.
Qed.

Lemma updateLoraIds_group_None v l z :
  Lora.group_id l = Some z → z ≠ 0 → groupIdMap v !! z = None →
  Lora.group_id (updateLoraIds v l) = Some z.
Proof.
  intros Hg Hz Hi. unfold updateLoraIds, truthyId, truthyZ. rewrite Hg.
  destruct (Z.eqb_spec z 0); [done|]. simpl. rewrite Hi. simpl. by repeat case_match.
Qed.

Lemma isUngrouped_cases l :
  isUngrouped l ∨ ∃ z, Lora.group_id l = Some z ∧ z ≠ 0.
Proof.
  unfold isUngrouped, truthyId, truthyZ. destruct (Lora.group_id l) as [z|]; [|by left].
  destruct (Z.eqb_spec z 0); [by left|right; eauto].
Qed.

Lemma isUngrouped_not_Some l z : isUngrouped l → z ≠ 0 → Lora.group_id l ≠ Some z.
Proof.
  unfold isUngrouped, truthyId, truthyZ. intros Hu Hz Heq. rewrite Heq in Hu.
  by destruct (Z.eqb_spec z 0).
Qed.

(** ** The group numbering of a snapshot *)

Section numbering.
Variable state : LoraState.
Let v := rebuildVars state.

Lemma groupIdMap_in g :
  g ∈ groups state →
  ∃ i, groupIdMap v !! Group.id g = Some i ∧ 1 ≤ i.
Proof.
  intros Hg. subst v. cbn.
  destruct (numberIds_lookup_in (Group.id <$> groups state) 1 ∅ (Group.id g))
    as (i & Hi & Hb); [by apply list_elem_of_fmap_2|].
  exists i. split; [done|lia].
Qed.

Lemma groupIdMap_notin z :
  (∀ g, g ∈ groups state → Group.id g ≠ z) → groupIdMap v !! z = None.
Proof.
  intros Hz. subst v. cbn. rewrite numberIds_lookup_notin; [done|].
  intros (g & -> & Hg)%list_elem_of_fmap. by apply (Hz g).
Qed.

Lemma groupIdMap_Some_inv z i :
  groupIdMap v !! z = Some i → ∃ g, g ∈ groups state ∧ Group.id g = z.
Proof.
  intros Hi. subst v. cbn in Hi.
  destruct (decide (z ∈ Group.id <$> groups state)) as [Hin|Hnotin].
  - apply list_elem_of_fmap in Hin as (g & -> & Hg). eauto.
  - by rewrite numberIds_lookup_notin in Hi.
Qed.

Lemma groupIdMap_inj a b i :
  groupIdMap v !! a = Some i → groupIdMap v !! b = Some i → a = b.
Proof. apply numberIds_inj. Qed.

(** The ungrouped items of the old snapshot are the ungrouped items of the
    new one. *)
Lemma updateLoraIds_isUngrouped l :
  isUngrouped (updateLoraIds v l) ↔ isUngrouped l.
Proof.
  destruct (isUngrouped_cases l) as [Hu|(z & Hz & Hne)].
  - split; [done|]. intros _. unfold isUngrouped.
    by rewrite updateLoraIds_ungrouped.
  - assert (¬ isUngrouped l) as Hnu.
    { unfold isUngrouped, truthyId, truthyZ. rewrite Hz.
      by destruct (Z.eqb_spec z 0). }
    split; [|done]. intros Hu. exfalso.
    destruct (groupIdMap v !! z) as [i|] eqn:Hi.
    + destruct (groupIdMap_Some_inv z i Hi) as (g & Hg & <-).
      assert (1 ≤ i) as Hpos.
      { destruct (groupIdMap_in g Hg) as (i' & Hi' & Hpos). congruence. }
      apply (isUngrouped_not_Some _ i) in Hu; [|lia].
      apply Hu. by apply (updateLoraIds_group_Some v l (Group.id g)).
    + apply (isUngrouped_not_Some _ z) in Hu; [|done].
      apply Hu. by apply (updateLoraIds_group_None v l z).
Qed.

(** An item that is ungrouped or names an existing group belongs to a group
    of non-zero id before the renumbering exactly when it does after. *)
Lemma updateLoraIds_member l g :
  (isUngrouped l ∨ ∃ g0, g0 ∈ groups state ∧ Lora.group_id l = Some (Group.id g0)) →
  g ∈ groups state → Group.id g ≠ 0 →
  Lora.group_id (updateLoraIds v l) = Some (Group.id (updateGroupId v g))
  ↔ Lora.group_id l = Some (Group.id g).
Proof.
  intros Hl Hg Hgne.
  destruct (groupIdMap_in g Hg) as (i & Hi & Hpos).
  rewrite (updateGroupId_Some v g i) by (done || lia).
  destruct (isUngrouped_cases l) as [Hu|(z & Hz & Hne)].
  - rewrite updateLoraIds_ungrouped by done. split; [done|].
    intros Heq. by apply (isUngrouped_not_Some l (Group.id g)) in Hu.
  - destruct Hl as [Hu|(g0 & Hg0 & Hl)].
    { by apply (isUngrouped_not_Some l z) in Hu. }
    rewrite Hz in Hl. simplify_eq.
    destruct (groupIdMap_in g0 Hg0) as (i0 & Hi0 & _).
    rewrite (updateLoraIds_group_Some v l _ i0), Hz by done.
    split; intros ?; simplify_eq.
    + f_equal. by apply (groupIdMap_inj _ _ i).
    + congruence.
Qed.
End numbering.

(** Where every item is ungrouped or names an existing group and no group
    has the id 0, the renumbered snapshot equals the old one up to ids. *)
Lemma renumber_sameUpToIds state :
  refsResolve state → groupIdsTruthy state → sameUpToIds state (renumber state).
Proof.
  intros Hrefs Htruthy. unfold sameUpToIds, renumber; cbn [groups loras].
  split; [|split; [|split]].
  - apply Forall2_fmap_r, Forall_Forall2_diag, Forall_forall.
    intros g _. apply updateGroupId_fields.
  - apply Forall2_fmap_r, Forall_Forall2_diag, Forall_forall.
    intros l _. unfold sameLoraFields, compose. by rewrite updateLoraIds_props.
  - intros p j l l' g g' Hl Hl' Hg Hg'.
    rewrite list_lookup_fmap, Hl in Hl'. rewrite list_lookup_fmap, Hg in Hg'.
    simplify_eq/=. symmetry. unfold isMember. apply updateLoraIds_member.
    + apply Hrefs. by eapply list_elem_of_lookup_2.
    + by eapply list_elem_of_lookup_2.
    + apply Htruthy. by eapply list_elem_of_lookup_2.
  - intros p l l' Hl Hl'. rewrite list_lookup_fmap, Hl in Hl'. simplify_eq/=.
    symmetry. apply updateLoraIds_isUngrouped.
Qed.

(** ** Saving and loading *)

Lemma saveState_stack_data n :
  Node._saving n = false → Node.stack_data (saveState n) = JSON_stringify (Node.loraState n).
Proof. intros Hs. unfold saveState. rewrite Hs. by case_match. Qed.

Lemma saveState_loraState n : Node.loraState (saveState n) = Node.loraState n.
Proof. unfold saveState. by repeat case_match. Qed.

Lemma rebuildUI_loraState n :
  Node.loraState (rebuildUI n) = renumber (Node.loraState n).
Proof. by rewrite rebuildUI_unfold. Qed.

(** Loading a present, parseable document text adopts its snapshot and
    renumbers it. *)
Lemma onConfigure_document values n idx w state :
  list_find (λ w, Widget.name w = "stack_data") (Node.widgets n) = Some (idx, w) →
  values !! idx = Some (JSON_stringify state) →
  Node.loraState (onConfigure (Some values) n) = renumber state.
Proof.
  intros Hfind Hval. unfold onConfigure. rewrite Hfind, Hval. cbn.
  unfold restoreState. cbn. by rewrite rebuildUI_loraState.
Qed.

(** C1 (as amended).  Document-path round trip: take a node whose
    snapshot [S] is well formed, every item being ungrouped or naming an
    existing group, and in which no group has the id 0.  Save it, and hand
    the resulting text of the document field to the load hook of a node,
    among the prior values, at the position of its [stack_data] control.  The
    snapshot the load adopts equals [S] up to id renumbering: the same groups
    and items in the same order, every field but the ids preserved, and
    group membership preserved. *)
Theorem roundtrip_document_path (n loaded : Node.t) (values : list Text)
    (idx : nat) (w : Widget.t) :
  Node._saving n = false →
  refsResolve (Node.loraState n) →
  groupIdsTruthy (Node.loraState n) →
  list_find (λ w, Widget.name w = "stack_data") (Node.widgets loaded) = Some (idx, w) →
  values !! idx = Some (Node.stack_data (saveState n)) →
  sameUpToIds (Node.loraState n) (Node.loraState (onConfigure (Some values) loaded)).
Proof.
  intros Hs Hrefs Htruthy Hfind Hval.
  rewrite saveState_stack_data in Hval by done.
  rewrite (onConfigure_document _ _ _ _ _ Hfind Hval).
  by apply renumber_sameUpToIds.
Qed.

(** [exampleNode], saved and loaded into a fresh node. *)
Lemma roundtrip_document_path_witness :
  Node._saving exampleNode = false
  ∧ refsResolve (Node.loraState exampleNode)
  ∧ groupIdsTruthy (Node.loraState exampleNode)
  ∧ sameUpToIds (Node.loraState exampleNode)
      (Node.loraState
         (onConfigure (Some [Node.stack_data (saveState exampleNode)]) freshNode)).
Proof.
  assert (refsResolve (Node.loraState exampleNode)) as Hrefs.
  { decide_by_evaluation. }
  assert (groupIdsTruthy (Node.loraState exampleNode)) as Htruthy.
  { decide_by_evaluation. }
  split; [reflexivity|]. split; [exact Hrefs|]. split; [exact Htruthy|].
  apply (roundtrip_document_path exampleNode freshNode _ 0%nat stackDataWidget).
  - reflexivity.
  - exact Hrefs.
  - exact Htruthy.
  - vm_compute; reflexivity.
  - reflexivity.
Defined.

(** C1 (as stated) fails where a group carries the id 0.  In [zeroIdState]
    the one item names the one group, so the snapshot is well formed and the
    item is a member of the group.  Saved and loaded into a fresh node, the
    group comes back with the id 1 and the item with [group_id] null: it is a
    member of no group, and the loaded snapshot does not equal the saved one
    up to ids. *)
Lemma roundtrip_loses_member_of_group_zero :
  Node._saving (nodeWith zeroIdState) = false
  ∧ refsResolve (Node.loraState (nodeWith zeroIdState))
  ∧ (∀ l, l ∈ loras zeroIdState → ∃ g, g ∈ groups zeroIdState ∧ isMember l g)
  ∧ Node.loraState
      (onConfigure (Some [Node.stack_data (saveState (nodeWith zeroIdState))]) freshNode)
    = mkState [Group.mk 1 1 1 1] [Lora.mk 2 None groupedDefaults]
  ∧ ¬ sameUpToIds (Node.loraState (nodeWith zeroIdState))
        (Node.loraState
           (onConfigure (Some [Node.stack_data (saveState (nodeWith zeroIdState))])
              freshNode)).
Proof.
  assert (Node.loraState
            (onConfigure (Some [Node.stack_data (saveState (nodeWith zeroIdState))]) freshNode)
          = mkState [Group.mk 1 1 1 1] [Lora.mk 2 None groupedDefaults]) as Hloaded.
  { vm_compute; reflexivity. }
  split; [reflexivity|]. split; [decide_by_evaluation|]. split; [|split].
  - intros l Hl. exists (Group.mk 0 1 1 1).
    apply list_elem_of_singleton in Hl as ->. split; [apply list_elem_of_singleton|]; done.
  - exact Hloaded.
  - rewrite Hloaded. intros (_ & _ & Hmember & _).
    specialize (Hmember 0%nat 0%nat (Lora.mk 1 (Some 0) groupedDefaults)
                  (Lora.mk 2 None groupedDefaults) (Group.mk 0 1 1 1) (Group.mk 1 1 1 1)
                  eq_refl eq_refl eq_refl eq_refl).
    unfold isMember in Hmember. cbn in Hmember.
    by assert (@None Z = Some 1) by (by apply Hmember).
Qed.

(** ** The build order *)

Lemma filter_fmap_comm {A B} (f : A → B) (P : B → Prop) `{!∀ x, Decision (P x)}
    (l : list A) :
  filter P (f <$> l) = f <$> filter (λ x, P (f x)) l.
Proof.
  induction l as [|a l IH]; [done|]. rewrite fmap_cons.
  destruct (decide (P (f a))).
  - rewrite !filter_cons_True by done. by rewrite fmap_cons, IH.
  - by rewrite !filter_cons_False by done.
Qed.

Lemma filter_iff_elem {A} (P1 P2 : A → Prop)
    `{!∀ x, Decision (P1 x), !∀ x, Decision (P2 x)} (l : list A) :
  (∀ x, x ∈ l → P1 x ↔ P2 x) → filter P1 l = filter P2 l.
Proof.
  induction l as [|a l IH]; intros Hiff; [done|].
  assert (filter P1 l = filter P2 l) as Hl.
  { apply IH. intros x Hx. apply Hiff. by right. }
  specialize (Hiff a (list_elem_of_here _ _)).
  destruct (decide (P1 a)).
  - rewrite !filter_cons_True by tauto. by rewrite Hl.
  - rewrite !filter_cons_False by tauto. by rewrite Hl.
Qed.

Lemma filter_all {A} (P : A → Prop) `{!∀ x, Decision (P x)} (l : list A) :
  (∀ x, x ∈ l → P x) → filter P l = l.
Proof.
  induction l as [|a l IH]; intros Hall; [done|].
  rewrite filter_cons_True by (apply Hall; by left).
  rewrite IH; [done|]. intros x Hx. apply Hall. by right.
Qed.

(** Splitting a list of items into the buckets of groups with distinct ids
    and the rest. *)
Lemma group_buckets_Permutation (gs : list Group.t) (ls : list Lora.t) :
  NoDup (Group.id <$> gs) →
  (gs ≫= λ g, filter (λ l, Lora.group_id l = Some (Group.id g)) ls)
  ++ filter (λ l, Forall (λ g, Lora.group_id l ≠ Some (Group.id g)) gs) ls
  ≡ₚ ls.
Proof.
  induction gs as [|g gs IH]; intros Hnd.
  - cbn. by rewrite filter_all by (intros; constructor).
  - rewrite fmap_cons in Hnd. apply NoDup_cons in Hnd as [Hg Hnd].
    rewrite bind_cons. rewrite <- (IH Hnd) at 3.
    rewrite <- (filter_app_complement (λ l, Lora.group_id l = Some (Group.id g))
                  (filter (λ l, Forall (λ g, Lora.group_id l ≠ Some (Group.id g)) gs) ls)).
    rewrite !list_filter_filter.
    rewrite (list_filter_iff
               (λ l, Lora.group_id l = Some (Group.id g)
                     ∧ Forall (λ g0, Lora.group_id l ≠ Some (Group.id g0)) gs)
               (λ l, Lora.group_id l = Some (Group.id g))).
    2:{ intros l. split; [by intros [??]|]. intros Hl. split; [done|].
        apply Forall_forall. intros g' Hg' Heq. apply Hg.
        rewrite Hl in Heq. injection Heq as ->. by apply list_elem_of_fmap_2. }
    rewrite (list_filter_iff
               (λ l, ¬ Lora.group_id l = Some (Group.id g)
                     ∧ Forall (λ g0, Lora.group_id l ≠ Some (Group.id g0)) gs)
               (λ l, Forall (λ g0, Lora.group_id l ≠ Some (Group.id g0)) (g :: gs))).
    2:{ intros l. by rewrite Forall_cons. }
    rewrite (app_assoc (gs ≫= _)). apply Permutation_app_tail, Permutation_app_comm.
Qed.

(** With referential integrity, distinct group ids and no zero group id,
    the rebuild creates the controls of every item exactly once. *)
Lemma buildOrder_Permutation state :
  refsResolve state → groupIdsTruthy state → NoDup (Group.id <$> groups state) →
  buildOrder state ≡ₚ loras state.
Proof.
  intros Hrefs Htruthy Hnd. unfold buildOrder, groupedOrder, ungroupedLoras.
  etrans; [|apply (group_buckets_Permutation (groups state) (loras state) Hnd)].
  apply Permutation_app_head. apply reflexive_eq.
  apply filter_iff_elem. intros l Hl. rewrite Forall_forall. split.
  - intros Hu g Hg Heq. apply (isUngrouped_not_Some l (Group.id g)); auto.
  - intros Hnone. destruct (Hrefs l Hl) as [?|(g & Hg & Heq)]; [done|].
    by destruct (Hnone g Hg).
Qed.

(** With referential integrity every item is in the build order. *)
Lemma elem_of_buildOrder state l :
  refsResolve state → l ∈ loras state → l ∈ buildOrder state.
Proof.
  intros Hrefs Hl. unfold buildOrder. apply elem_of_app.
  destruct (Hrefs l Hl) as [Hu|(g & Hg & Heq)].
  - right. by apply list_elem_of_filter.
  - left. apply list_elem_of_bind. exists g. split; [|done].
    by apply list_elem_of_filter.
Qed.

Lemma buildOrder_elem_of state l : l ∈ buildOrder state → l ∈ loras state.
Proof.
  unfold buildOrder. intros [Hl|Hl]%elem_of_app.
  - apply list_elem_of_bind in Hl as (g & Hl & _).
    by apply list_elem_of_filter in Hl as [_ ?].
  - by apply list_elem_of_filter in Hl as [_ ?].
Qed.

(** An item is in the build order exactly when a loop of the rebuild takes
    it. *)
Lemma buildOrder_rendered state l :
  l ∈ buildOrder state ↔
  l ∈ loras state
  ∧ (isUngrouped l ∨ ∃ g, g ∈ groups state ∧ Lora.group_id l = Some (Group.id g)).
Proof.
  unfold buildOrder, groupedOrder, ungroupedLoras, groupLoras.
  rewrite elem_of_app, list_elem_of_bind, list_elem_of_filter.
  setoid_rewrite list_elem_of_filter. unfold isUngrouped. split.
  - intros [(g & [Heq Hl] & Hg)|[Hu Hl]]; (split; [done|]); [right; eauto|by left].
  - intros [Hl [Hu|(g & Hg & Heq)]]; [by right|left; by exists g].
Qed.

Section renumbered.
Variable state : LoraState.
Hypothesis Hrefs : refsResolve state.
Hypothesis Htruthy : groupIdsTruthy state.
Let v := rebuildVars state.

(** The items of a group after the renumbering are the renumbered items of
    that group. *)
Lemma groupLoras_renumber g :
  g ∈ groups state →
  groupLoras (renumber state) (updateGroupId v g)
  = updateLoraIds v <$> groupLoras state g.
Proof.
  intros Hg. unfold groupLoras, renumber. cbn [loras]. fold v.
  rewrite filter_fmap_comm. f_equal. apply filter_iff_elem.
  intros l Hl. apply updateLoraIds_member; auto.
Qed.

Lemma ungroupedLoras_renumber :
  ungroupedLoras (renumber state) = updateLoraIds v <$> ungroupedLoras state.
Proof.
  unfold ungroupedLoras, renumber. cbn [loras]. fold v.
  rewrite filter_fmap_comm. f_equal. apply filter_iff_elem.
  intros l Hl. apply (updateLoraIds_isUngrouped state).
Qed.

Lemma groupedOrder_renumber gs :
  gs ⊆ groups state →
  groupedOrder (renumber state) (updateGroupId v <$> gs)
  = updateLoraIds v <$> groupedOrder state gs.
Proof.
  unfold groupedOrder. induction gs as [|g gs IH]; intros Hsub; [done|].
  rewrite fmap_cons, !bind_cons, fmap_app, IH, groupLoras_renumber; [done|..].
  - apply Hsub. by left.
  - intros x Hx. apply Hsub. by right.
Qed.

Lemma buildOrder_renumber :
  buildOrder (renumber state) = updateLoraIds v <$> buildOrder state.
Proof.
  unfold buildOrder. rewrite fmap_app, ungroupedLoras_renumber. f_equal.
  unfold renumber at 2. cbn [groups]. by apply groupedOrder_renumber.
Qed.
End renumbered.

(** ** Sequential ids *)

Lemma fmap_eq_seqZ {A} (f : A → Z) (l : list A) (start : Z) :
  (∀ i x, l !! i = Some x → f x = start + Z.of_nat i) →
  f <$> l = seqZ start (Z.of_nat (length l)).
Proof.
  intros Hf. apply list_eq. intros i. rewrite list_lookup_fmap.
  destruct (l !! i) as [x|] eqn:Hi; simpl.
  - symmetry. apply lookup_seqZ. split; [by apply Hf|].
    apply lookup_lt_Some in Hi. lia.
  - symmetry. apply lookup_seqZ_ge. apply lookup_ge_None in Hi. lia.
Qed.

Lemma rebuildUI_nextGroupId n :
  Node.nextGroupId (rebuildUI n) = 1 + Z.of_nat (length (groups (Node.loraState n))).
Proof. by rewrite rebuildUI_unfold. Qed.

Lemma rebuildUI_nextLoraId n :
  Node.nextLoraId (rebuildUI n) = 1 + Z.of_nat (length (buildOrder (Node.loraState n))).
Proof. by rewrite rebuildUI_unfold. Qed.

(** C9 (as amended).  Rebuild id renumbering: for every snapshot in which
    each item is ungrouped or names an existing group, no group has id 0, the
    group ids are distinct and the item ids are distinct, a full rebuild
    gives the groups the ids 1, 2, ... in display order and the items the ids
    1, 2, ... in build order, makes each grouped item's [group_id] the new id
    of its owning group, and sets the two counters to one past the highest
    assigned id. *)
Theorem rebuild_renumbers_ids (n : Node.t) :
  let state := Node.loraState n in
  let state' := Node.loraState (rebuildUI n) in
  refsResolve state → groupIdsTruthy state →
  NoDup (Group.id <$> groups state) → NoDup (Lora.id <$> loras state) →
  Group.id <$> groups state' = seqZ 1 (Z.of_nat (length (groups state)))
  ∧ Lora.id <$> buildOrder state' = seqZ 1 (Z.of_nat (length (loras state)))
  ∧ (∀ p j l g l' g',
        loras state !! p = Some l → groups state !! j = Some g →
        Lora.group_id l = Some (Group.id g) →
        loras state' !! p = Some l' → groups state' !! j = Some g' →
        Lora.group_id l' = Some (Group.id g'))
  ∧ Node.nextGroupId (rebuildUI n) = Z.of_nat (length (groups state)) + 1
  ∧ Node.nextLoraId (rebuildUI n) = Z.of_nat (length (loras state)) + 1.
Proof.
  intros state state' Hrefs Htruthy Hgs Hls. subst state'.
  rewrite rebuildUI_loraState, rebuildUI_nextGroupId, rebuildUI_nextLoraId.
  fold state.
  pose proof (buildOrder_Permutation state Hrefs Htruthy Hgs) as Hperm.
  assert (length (buildOrder state) = length (loras state)) as Hlen
    by by apply Permutation_length.
  split; [|split; [|split; [|split]]]; [| | |lia|lia].
  - unfold renumber. cbn [groups]. rewrite <- list_fmap_compose, <- (length_fmap Group.id).
    rewrite (fmap_eq_seqZ _ _ 1); [by rewrite !length_fmap|].
    intros j g Hg. unfold compose.
    apply updateGroupId_Some; [|lia].
    unfold rebuildVars. cbn [groupIdMap].
    by apply numberIds_NoDup; [|rewrite list_lookup_fmap, Hg].
  - rewrite buildOrder_renumber by done.
    rewrite <- list_fmap_compose, <- Hlen.
    apply fmap_eq_seqZ. intros k l Hl. unfold compose.
    apply updateLoraIds_id_Some; [|lia].
    unfold rebuildVars. cbn [loraIdMap].
    apply numberIds_NoDup; [by rewrite Hperm|by rewrite list_lookup_fmap, Hl].
  - intros p j l g l' g' Hl Hg Hmem Hl' Hg'. unfold renumber in Hl', Hg'.
    cbn [groups loras] in Hl', Hg'.
    rewrite list_lookup_fmap, Hl in Hl'. rewrite list_lookup_fmap, Hg in Hg'.
    simplify_eq/=. apply updateLoraIds_member; [| | |done].
    + apply Hrefs. by eapply list_elem_of_lookup_2.
    + by eapply list_elem_of_lookup_2.
    + apply Htruthy. by eapply list_elem_of_lookup_2.
Qed.

(** ** Where the controls of a rebuilt list come from *)

Lemma placeIn_elem w ws x : x ∈ placeIn w ws ↔ x = w ∨ x ∈ ws.
Proof.
  destruct (placeIn_split w ws) as (a & b & -> & ->).
  rewrite !elem_of_app, elem_of_cons. tauto.
Qed.

Lemma placeAllIn_elem ws cs x : x ∈ placeAllIn ws cs ↔ x ∈ ws ∨ x ∈ cs.
Proof.
  revert ws. induction cs as [|c cs IH]; intros ws.
  - cbn. rewrite elem_of_nil. tauto.
  - change (placeAllIn ws (c :: cs)) with (placeAllIn (placeIn c ws) cs).
    rewrite IH, placeIn_elem, elem_of_cons. tauto.
Qed.

Lemma lorasCreated_elem w newGroupId ls next :
  w ∈ lorasCreated newGroupId ls next →
  ∃ l k, l ∈ ls ∧ w ∈ loraWidgets k newGroupId l.
Proof.
  revert next. induction ls as [|l ls IH]; intros next; cbn [lorasCreated].
  - by intros ?%elem_of_nil.
  - intros [Hw|Hw]%elem_of_app.
    + exists l, next. split; [by left|done].
    + destruct (IH _ Hw) as (l0 & k & Hl0 & Hk). exists l0, k. split; [by right|done].
Qed.

Lemma groupsCreated_elem w collapsed state gs nextGroup nextLora :
  w ∈ groupsCreated collapsed state gs nextGroup nextLora →
  (∃ g j, g ∈ gs ∧ w ∈ groupWidgets (bool_decide (j ∈ collapsed)) j g)
  ∨ (∃ l k newGroupId, l ∈ groupedOrder state gs ∧ w ∈ loraWidgets k newGroupId l).
Proof.
  revert nextGroup nextLora.
  induction gs as [|g gs IH]; intros nextGroup nextLora; cbn [groupsCreated].
  - by intros ?%elem_of_nil.
  - unfold groupedOrder. rewrite bind_cons.
    intros [Hw|[Hw|Hw]%elem_of_app]%elem_of_app.
    + left. exists g, nextGroup. split; [by left|done].
    + right. destruct (lorasCreated_elem _ _ _ _ Hw) as (l & k & Hl & Hk).
      exists l, k, (Some nextGroup). split; [|done]. apply elem_of_app. by left.
    + destruct (IH _ _ Hw) as [(g0 & j & Hg0 & Hj)|(l & k & gid & Hl & Hk)].
      * left. exists g0, j. split; [by right|done].
      * right. exists l, k, gid. split; [|done]. apply elem_of_app. by right.
Qed.

(** Every control a rebuild creates is a control of a group of the snapshot
    or a control of an item in the build order. *)
Lemma rebuildCreated_elem w collapsed state :
  w ∈ rebuildCreated collapsed state →
  (∃ g j, g ∈ groups state ∧ w ∈ groupWidgets (bool_decide (j ∈ collapsed)) j g)
  ∨ (∃ l k newGroupId, l ∈ buildOrder state ∧ w ∈ loraWidgets k newGroupId l).
Proof.
  unfold rebuildCreated, buildOrder. intros [Hw|Hw]%elem_of_app.
  - destruct (groupsCreated_elem _ _ _ _ _ _ Hw) as [?|(l & k & gid & Hl & Hk)]; [by left|].
    right. exists l, k, gid. split; [|done]. apply elem_of_app. by left.
  - right. destruct (lorasCreated_elem _ _ _ _ Hw) as (l & k & Hl & Hk).
    exists l, k, None. split; [|done]. apply elem_of_app. by right.
Qed.

Lemma rebuildUI_widgets n :
  Node.widgets (rebuildUI n)
  = rebuiltWidgets (Node.collapsedGroups n) (Node.loraState n) (Node.widgets n).
Proof. by rewrite rebuildUI_unfold. Qed.

(** Every control of a rebuilt list is a permanent control that was in the
    list before, or was created by the rebuild. *)
Lemma rebuildUI_widgets_elem n w :
  w ∈ Node.widgets (rebuildUI n) →
  (w ∈ keepWidgets (Node.widgets n) ∧ w ∈ Node.widgets n)
  ∨ w ∈ rebuildCreated (Node.collapsedGroups n) (Node.loraState n).
Proof.
  rewrite rebuildUI_widgets. unfold rebuiltWidgets.
  rewrite placeAllIn_elem, list_elem_of_filter. tauto.
Qed.

(** ** Dangling items *)

(** C10 (as amended).  Take a snapshot with an item, in position [p], whose
    [group_id] is truthy and is no group's id, and whose id is not the id of
    any item in the build order.  A full rebuild creates no control from that
    item: every control of the rebuilt list is a permanent control, or
    belongs to a group, or was created from another item.  The item stays in
    position [p] of the snapshot with its id and [group_id] unchanged, and
    the save that follows writes it into the document field. *)
Theorem dangling_item_survives_unrendered (n : Node.t) (p : nat) (l : Lora.t) :
  let state := Node.loraState n in
  loras state !! p = Some l →
  truthyId (Lora.group_id l) = true →
  (∀ g, g ∈ groups state → Lora.group_id l ≠ Some (Group.id g)) →
  (∀ l0, l0 ∈ buildOrder state → Lora.id l0 ≠ Lora.id l) →
  Node._saving n = false →
  (∀ w, w ∈ Node.widgets (rebuildUI n) →
     w ∈ keepWidgets (Node.widgets n)
     ∨ (∃ g j, g ∈ groups state
               ∧ w ∈ groupWidgets (bool_decide (j ∈ Node.collapsedGroups n)) j g)
     ∨ (∃ l0 k newGroupId, l0 ∈ loras state ∧ l0 ≠ l ∧ w ∈ loraWidgets k newGroupId l0))
  ∧ loras (Node.loraState (rebuildUI n)) !! p = Some l
  ∧ ∃ saved, Node.stack_data (saveState (rebuildUI n)) = JSON_stringify saved
             ∧ loras saved !! p = Some l.
Proof.
  intros state Hp Htruthy Hnogroup Hid Hsaving.
  assert (l ∉ buildOrder state) as Hnotbuilt.
  { intros [_ [Hu|(g & Hg & Heq)]]%buildOrder_rendered.
    - unfold isUngrouped in Hu. congruence.
    - by apply (Hnogroup g). }
  assert (loras (Node.loraState (rebuildUI n)) !! p = Some l) as Hkept.
  { rewrite rebuildUI_loraState. fold state. unfold renumber. cbn [loras].
    rewrite list_lookup_fmap, Hp. cbn. f_equal.
    destruct (isUngrouped_cases l) as [Hu|(z & Hz & Hne)].
    { unfold isUngrouped in Hu. congruence. }
    assert (Lora.id (updateLoraIds (rebuildVars state) l) = Lora.id l) as Hi.
    { apply updateLoraIds_id_None. unfold rebuildVars. cbn [loraIdMap].
      rewrite numberIds_lookup_notin; [done|].
      intros (l0 & Heq & Hl0)%list_elem_of_fmap. by apply (Hid l0). }
    assert (Lora.group_id (updateLoraIds (rebuildVars state) l) = Lora.group_id l) as Hg.
    { rewrite Hz. apply updateLoraIds_group_None; [done..|].
      apply groupIdMap_notin. intros g Hg Heq. apply (Hnogroup g Hg). congruence. }
    pose proof (updateLoraIds_props (rebuildVars state) l) as Hprops.
    destruct (updateLoraIds (rebuildVars state) l), l. cbn in *. congruence. }
  split; [|split; [done|]].
  - intros w [[Hw _]|Hw]%rebuildUI_widgets_elem; [by left|right].
    apply rebuildCreated_elem in Hw as [?|(l0 & k & gid & Hl0 & Hk)]; [by left|right].
    exists l0, k, gid. split; [by apply buildOrder_elem_of|]. split; [|done].
    by intros ->.
  - exists (Node.loraState (rebuildUI n)). split; [|done].
    apply saveState_stack_data. by rewrite rebuildUI_unfold.
Qed.

(** ** The controls a rebuild creates only depend on the fields it shows *)

Lemma groupWidgets_fields collapsed groupId g g' :
  sameGroupFields g g' → groupWidgets collapsed groupId g' = groupWidgets collapsed groupId g.
Proof. intros (Hi & Hm & Hc). unfold groupWidgets. by rewrite Hi, Hm, Hc. Qed.

Lemma loraWidgets_fields loraId groupId l l' :
  sameLoraFields l l' → loraWidgets loraId groupId l' = loraWidgets loraId groupId l.
Proof.
  unfold sameLoraFields. intros Hp.
  unfold loraWidgets, groupedLoraControls, ungroupedLoraControls, fieldWidget, Lora.get.
  by rewrite Hp.
Qed.

Lemma lorasCreated_fmap (f : Lora.t → Lora.t) newGroupId ls next :
  (∀ l, sameLoraFields l (f l)) →
  lorasCreated newGroupId (f <$> ls) next = lorasCreated newGroupId ls next.
Proof.
  intros Hf. revert next. induction ls as [|l ls IH]; intros next; [done|].
  rewrite fmap_cons. cbn [lorasCreated]. by rewrite IH, (loraWidgets_fields _ _ l).
Qed.

Section created_renumbered.
Variable state : LoraState.
Hypothesis Hrefs : refsResolve state.
Hypothesis Htruthy : groupIdsTruthy state.
Let v := rebuildVars state.

Lemma groupsCreated_renumber collapsed gs nextGroup nextLora :
  gs ⊆ groups state →
  groupsCreated collapsed (renumber state) (updateGroupId v <$> gs) nextGroup nextLora
  = groupsCreated collapsed state gs nextGroup nextLora.
Proof.
  revert nextGroup nextLora.
  induction gs as [|g gs IH]; intros nextGroup nextLora Hsub; [done|].
  rewrite fmap_cons. cbn [groupsCreated].
  assert (g ∈ groups state) as Hg by (apply Hsub; by left).
  rewrite groupLoras_renumber by done. fold v.
  rewrite lorasCreated_fmap by (intros; symmetry; apply updateLoraIds_props).
  rewrite (groupWidgets_fields _ _ g) by apply updateGroupId_fields.
  rewrite length_fmap, IH; [done|]. intros x Hx. apply Hsub. by right.
Qed.

(** Rebuilding the renumbered snapshot creates the controls that
    rebuilding the original created. *)
Lemma rebuildCreated_renumber collapsed :
  rebuildCreated collapsed (renumber state) = rebuildCreated collapsed state.
Proof.
  unfold rebuildCreated.
  rewrite ungroupedLoras_renumber by done. fold v.
  rewrite lorasCreated_fmap by (intros; symmetry; apply updateLoraIds_props).
  assert (groups (renumber state) = updateGroupId v <$> groups state) as -> by done.
  rewrite groupsCreated_renumber by done.
  rewrite groupedOrder_renumber by done.
  by rewrite length_fmap.
Qed.
End created_renumbered.

(** ** Renumbering twice *)

Lemma Group_set_id_same g : Group.set_id (Group.id g) g = g.
Proof. by destruct g. Qed.

Lemma Lora_eq l l' :
  Lora.id l = Lora.id l' → Lora.group_id l = Lora.group_id l' →
  Lora.props l = Lora.props l' → l = l'.
Proof. destruct l, l'. cbn. by intros -> -> ->. Qed.

Section renumber_twice.
Variable state : LoraState.
Hypothesis Hrefs : refsResolve state.
Hypothesis Htruthy : groupIdsTruthy state.
Let v := rebuildVars state.
Let v' := rebuildVars (renumber state).

(** A new group id is numbered by itself in the second rebuild. *)
Lemma groupIdMap_renumber z i :
  groupIdMap v !! z = Some i → groupIdMap v' !! i = Some i.
Proof.
  intros Hi. subst v v'. unfold rebuildVars, renumber in *. cbn [groupIdMap groups] in *.
  set (G := numberIds (Group.id <$> groups state) 1 ∅) in *.
  set (φ := λ z, default z (G !! z)).
  assert (∀ a, a ∈ Group.id <$> groups state → ∃ j, G !! a = Some j ∧ 1 ≤ j) as Hin.
  { intros a Ha. destruct (numberIds_lookup_in _ 1 ∅ a Ha) as (j & Hj & Hb).
    exists j. split; [done|lia]. }
  assert (Group.id <$> (updateGroupId (rebuildVars state) <$> groups state)
          = φ <$> (Group.id <$> groups state)) as ->.
  { rewrite <- !list_fmap_compose. apply list_fmap_ext. intros j g Hg. unfold compose.
    destruct (Hin (Group.id g)) as (k & Hk & Hpos).
    { apply list_elem_of_fmap_2. by eapply list_elem_of_lookup_2. }
    rewrite (updateGroupId_Some _ g k); [|done|lia]. unfold φ. by rewrite Hk. }
  assert (z ∈ Group.id <$> groups state) as Hz.
  { destruct (decide (z ∈ Group.id <$> groups state)); [done|].
    unfold G in Hi. by rewrite numberIds_lookup_notin in Hi. }
  replace i with (φ z) at 1 by (unfold φ; by rewrite Hi).
  rewrite (numberIds_rename φ (λ a, a ∈ Group.id <$> groups state) _ 1 ∅ ∅ z);
    [done| |done|done|done].
  intros a b Ha Hb. unfold φ.
  destruct (Hin a Ha) as (ja & Hja & _), (Hin b Hb) as (jb & Hjb & _).
  rewrite Hja, Hjb. cbn. intros ->. by apply (numberIds_inj _ _ _ jb Hja Hjb).
Qed.

(** A new item id is numbered by itself in the second rebuild. *)
Lemma loraIdMap_renumber z i :
  loraIdMap v !! z = Some i → loraIdMap v' !! i = Some i.
Proof.
  intros Hi. subst v v'. unfold rebuildVars in *. cbn [loraIdMap] in *.
  rewrite buildOrder_renumber by done.
  set (L := numberIds (Lora.id <$> buildOrder state) 1 ∅) in *.
  set (ψ := λ z, default z (L !! z)).
  assert (∀ a, a ∈ Lora.id <$> buildOrder state → ∃ j, L !! a = Some j ∧ 1 ≤ j) as Hin.
  { intros a Ha. destruct (numberIds_lookup_in _ 1 ∅ a Ha) as (j & Hj & Hb).
    exists j. split; [done|lia]. }
  assert (Lora.id <$> (updateLoraIds (rebuildVars state) <$> buildOrder state)
          = ψ <$> (Lora.id <$> buildOrder state)) as ->.
  { rewrite <- !list_fmap_compose. apply list_fmap_ext. intros j l Hl. unfold compose.
    destruct (Hin (Lora.id l)) as (k & Hk & Hpos).
    { apply list_elem_of_fmap_2. by eapply list_elem_of_lookup_2. }
    rewrite (updateLoraIds_id_Some _ l k); [|done|lia]. unfold ψ. by rewrite Hk. }
  assert (z ∈ Lora.id <$> buildOrder state) as Hz.
  { destruct (decide (z ∈ Lora.id <$> buildOrder state)); [done|].
    unfold L in Hi. by rewrite numberIds_lookup_notin in Hi. }
  replace i with (ψ z) at 1 by (unfold ψ; by rewrite Hi).
  rewrite (numberIds_rename ψ (λ a, a ∈ Lora.id <$> buildOrder state) _ 1 ∅ ∅ z);
    [done| |done|done|done].
  intros a b Ha Hb. unfold ψ.
  destruct (Hin a Ha) as (ja & Hja & _), (Hin b Hb) as (jb & Hjb & _).
  rewrite Hja, Hjb. cbn. intros ->. by apply (numberIds_inj _ _ _ jb Hja Hjb).
Qed.

Lemma updateGroupId_twice g :
  g ∈ groups state → updateGroupId v' (updateGroupId v g) = updateGroupId v g.
Proof.
  intros Hg. destruct (groupIdMap_in state g Hg) as (i & Hi & Hpos). fold v in Hi.
  pose proof (updateGroupId_Some v g i Hi ltac:(lia)) as Hid.
  unfold updateGroupId at 1. rewrite Hid, (groupIdMap_renumber _ _ Hi).
  unfold truthyZ. destruct (Z.eqb_spec i 0); [lia|]. cbn.
  rewrite <- Hid. apply Group_set_id_same.
Qed.

Lemma updateLoraIds_twice l :
  l ∈ loras state → updateLoraIds v' (updateLoraIds v l) = updateLoraIds v l.
Proof.
  intros Hl. apply Lora_eq; [| |by rewrite !updateLoraIds_props].
  - destruct (numberIds_lookup_in (Lora.id <$> buildOrder state) 1 ∅ (Lora.id l))
      as (i & Hi & Hb).
    { apply list_elem_of_fmap_2. by apply elem_of_buildOrder. }
    change (loraIdMap v !! Lora.id l = Some i) in Hi.
    pose proof (updateLoraIds_id_Some v l i Hi ltac:(lia)) as Hid.
    apply updateLoraIds_id_Some; [|lia].
    rewrite Hid. by apply (loraIdMap_renumber (Lora.id l)).
  - destruct (isUngrouped_cases l) as [Hu|(z & Hz & Hne)].
    + rewrite (updateLoraIds_ungrouped v l Hu).
      apply updateLoraIds_ungrouped. by apply (updateLoraIds_isUngrouped state).
    + destruct (Hrefs l Hl) as [Hu|(g & Hg & Heq)].
      { by apply (isUngrouped_not_Some l z) in Hu. }
      destruct (groupIdMap_in state g Hg) as (i & Hi & Hpos). fold v in Hi.
      assert (Lora.group_id (updateLoraIds v l) = Some i) as Hgid.
      { apply (updateLoraIds_group_Some v l z); [done..|]. congruence. }
      rewrite Hgid. apply (updateLoraIds_group_Some _ _ i); [done|lia|].
      by apply (groupIdMap_renumber (Group.id g)).
Qed.

(** The renumbering is idempotent. *)
Lemma renumber_twice : renumber (renumber state) = renumber state.
Proof.
  unfold renumber at 1. fold v'. unfold renumber at 1 2 3. cbn [groups loras]. fold v.
  f_equal; rewrite <- list_fmap_compose; apply list_fmap_ext; intros i x Hx;
    unfold compose.
  - apply updateGroupId_twice. by eapply list_elem_of_lookup_2.
  - apply updateLoraIds_twice. by eapply list_elem_of_lookup_2.
Qed.
End renumber_twice.

(** ** Clearing a rebuilt control list *)

Lemma seedOf_cons w ws :
  seedOf (w :: ws) = if decide (Widget.name w = "seed") then Some w else seedOf ws.
Proof.
  unfold seedOf. cbn. case_decide; [done|].
  by destruct (list_find _ ws) as [[??]|].
Qed.

Lemma seedOf_name ws s : seedOf ws = Some s → Widget.name s = "seed".
Proof.
  induction ws as [|w ws IH]; [done|]. rewrite seedOf_cons.
  case_decide; [by intros [= <-]|done].
Qed.

Lemma seedOf_insert a w b :
  Widget.name w ≠ "seed" → seedOf (a ++ w :: b) = seedOf (a ++ b).
Proof.
  intros Hw. induction a as [|x a IH]; cbn [app].
  - rewrite seedOf_cons. by case_decide.
  - rewrite !seedOf_cons. by rewrite IH.
Qed.

(** Filtering does not change the seed control as long as it keeps it. *)
Lemma seedOf_filter (Q : Widget.t → Prop) `{!∀ w, Decision (Q w)} ws :
  (∀ s, seedOf ws = Some s → Q s) → seedOf (filter Q ws) = seedOf ws.
Proof.
  induction ws as [|w ws IH]; [done|]. rewrite seedOf_cons. intros Hs.
  destruct (decide (Widget.name w = "seed")) as [Hw|Hw].
  - rewrite filter_cons_True by by apply Hs.
    rewrite seedOf_cons. by case_decide.
  - destruct (decide (Q w)).
    + rewrite filter_cons_True by done. rewrite seedOf_cons. case_decide; [done|]. auto.
    + rewrite filter_cons_False by done. auto.
Qed.

Lemma keepWidgets_seedOf ws :
  keepWidgets ws
  = match seedOf ws with
    | Some seed => [seed; stackDataWidget; addLoraButton; addGroupButton]
    | None => [stackDataWidget; addLoraButton; addGroupButton]
    end.
Proof. unfold keepWidgets, seedOf. by destruct (list_find _ ws) as [[??]|]. Qed.

Lemma keepWidgets_seed ws s : seedOf ws = Some s → s ∈ keepWidgets ws.
Proof. intros Hs. rewrite keepWidgets_seedOf, Hs. by left. Qed.

Lemma isDynamic_not_kept ws w : isDynamic w → w ∉ keepWidgets ws.
Proof.
  intros (Hname & Hsd & Hal & Hag). rewrite keepWidgets_seedOf.
  destruct (seedOf ws) as [s|] eqn:Hs.
  - apply seedOf_name in Hs. rewrite !elem_of_cons, elem_of_nil. intros [->|[?|[?|[?|[]]]]]; done.
  - rewrite !elem_of_cons, elem_of_nil. intros [?|[?|[?|[]]]]; done.
Qed.

Lemma filter_insert {A} (Q : A → Prop) `{!∀ x, Decision (Q x)} a w b :
  ¬ Q w → filter Q (a ++ w :: b) = filter Q (a ++ b).
Proof. intros Hw. by rewrite !filter_app, filter_cons_False. Qed.

(** Placing dynamic controls changes neither the seed control nor what a
    filter that drops them keeps. *)
Lemma placeAllIn_seedOf ws cs :
  Forall isDynamic cs → seedOf (placeAllIn ws cs) = seedOf ws.
Proof.
  revert ws. induction cs as [|c cs IH]; intros ws Hcs; [done|].
  apply Forall_cons in Hcs as [Hc Hcs].
  change (placeAllIn ws (c :: cs)) with (placeAllIn (placeIn c ws) cs).
  rewrite IH by done. destruct (placeIn_split c ws) as (a & b & -> & ->).
  apply seedOf_insert, Hc.
Qed.

Lemma placeAllIn_filter (Q : Widget.t → Prop) `{!∀ w, Decision (Q w)} ws cs :
  Forall (λ c, ¬ Q c) cs → filter Q (placeAllIn ws cs) = filter Q ws.
Proof.
  revert ws. induction cs as [|c cs IH]; intros ws Hcs; [done|].
  apply Forall_cons in Hcs as [Hc Hcs].
  change (placeAllIn ws (c :: cs)) with (placeAllIn (placeIn c ws) cs).
  rewrite IH by done. destruct (placeIn_split c ws) as (a & b & -> & ->).
  by apply filter_insert.
Qed.

(** Clearing a list that was cleared and then filled with dynamic controls
    gives the cleared list back. *)
Lemma clear_placed ws cs :
  Forall isDynamic cs →
  filter (λ w, w ∈ keepWidgets (placeAllIn (filter (λ w, w ∈ keepWidgets ws) ws) cs))
    (placeAllIn (filter (λ w, w ∈ keepWidgets ws) ws) cs)
  = filter (λ w, w ∈ keepWidgets ws) ws.
Proof.
  intros Hcs. set (kept := filter (λ w, w ∈ keepWidgets ws) ws).
  assert (seedOf kept = seedOf ws) as Hkept.
  { apply seedOf_filter. intros s Hs. by apply keepWidgets_seed. }
  assert (keepWidgets (placeAllIn kept cs) = keepWidgets ws) as Hkeep.
  { rewrite !keepWidgets_seedOf. by rewrite placeAllIn_seedOf, Hkept. }
  rewrite Hkeep. rewrite placeAllIn_filter.
  - unfold kept. rewrite list_filter_filter. apply list_filter_iff. tauto.
  - eapply Forall_impl; [done|]. intros c Hc. by apply isDynamic_not_kept.
Qed.

(** ** The created controls are dynamic *)

Lemma groupWidgets_dynamic collapsed groupId g :
  Forall isDynamic (groupWidgets collapsed groupId g).
Proof.
  unfold groupWidgets. repeat apply Forall_cons_2; [..|apply Forall_nil_2];
    (split; [destruct collapsed; cbn; discriminate|repeat split; discriminate]).
Qed.

Lemma fieldWidget_dynamic type name key loraId tag l :
  name ≠ "seed" → isDynamic (fieldWidget type name key loraId tag l).
Proof. intros Hn. split; [done|]. repeat split; discriminate. Qed.

Lemma loraWidgets_dynamic loraId groupId l : Forall isDynamic (loraWidgets loraId groupId l).
Proof.
  unfold loraWidgets, groupedLoraControls, ungroupedLoraControls.
  repeat first
    [ apply Forall_nil_2
    | apply Forall_cons_2
    | apply Forall_app_2
    | apply fieldWidget_dynamic; destruct (truthyId groupId); cbn; discriminate
    | progress case_match ].
  split; [cbn; discriminate|repeat split; discriminate].
Qed.

Lemma rebuildCreated_dynamic collapsed state : Forall isDynamic (rebuildCreated collapsed state).
Proof.
  apply Forall_forall. intros w Hw.
  apply rebuildCreated_elem in Hw as [(g & j & _ & Hw)|(l & k & gid & _ & Hw)].
  - by eapply Forall_forall in Hw; [|apply groupWidgets_dynamic].
  - by eapply Forall_forall in Hw; [|apply loraWidgets_dynamic].
Qed.

(** ** Rebuilding twice *)

(** C8 (as amended).  Rebuild idempotence: for every node whose snapshot has
    each item ungrouped or naming an existing group, and no group with id 0,
    a second rebuild right after a first one changes nothing: the control
    list is the same (same controls, same tags, same order), the snapshot is
    the one the first rebuild produced, and so is the rest of the node. *)
Theorem rebuild_twice (n : Node.t) :
  refsResolve (Node.loraState n) → groupIdsTruthy (Node.loraState n) →
  Node.widgets (rebuildUI (rebuildUI n)) = Node.widgets (rebuildUI n)
  ∧ Node.loraState (rebuildUI (rebuildUI n)) = Node.loraState (rebuildUI n)
  ∧ rebuildUI (rebuildUI n) = rebuildUI n.
Proof.
  intros Hrefs Htruthy.
  assert (rebuildUI (rebuildUI n) = rebuildUI n) as Heq; [|by rewrite Heq].
  rewrite (rebuildUI_unfold (rebuildUI n)). cbv zeta.
  rewrite rebuildUI_loraState, rebuildUI_widgets.
  rewrite renumber_twice, buildOrder_renumber, length_fmap by done.
  assert (groups (renumber (Node.loraState n))
          = updateGroupId (rebuildVars (Node.loraState n)) <$> groups (Node.loraState n))
    as -> by done.
  rewrite length_fmap.
  assert (rebuiltWidgets (Node.collapsedGroups (rebuildUI n)) (renumber (Node.loraState n))
            (rebuiltWidgets (Node.collapsedGroups n) (Node.loraState n) (Node.widgets n))
          = rebuiltWidgets (Node.collapsedGroups n) (Node.loraState n) (Node.widgets n))
    as ->.
  { unfold rebuiltWidgets at 1. rewrite rebuildCreated_renumber by done.
    unfold rebuiltWidgets at 1 2. rewrite clear_placed by apply rebuildCreated_dynamic.
    by rewrite rebuildUI_unfold. }
  rewrite (rebuildUI_unfold n). cbv zeta. reflexivity.
Qed.

(** ** Removing a group *)

Lemma list_find_id_None {A} (f : A → Z) (z : Z) (l : list A) :
  z ∉ f <$> l → list_find (λ x, f x = z) l = None.
Proof.
  intros Hz. apply list_find_None, Forall_forall. intros x Hx Heq.
  apply Hz. rewrite <- Heq. by apply list_elem_of_fmap_2.
Qed.

Lemma list_find_id_Some {A} (f : A → Z) (z : Z) (l : list A) :
  z ∈ f <$> l → ∃ i x, list_find (λ x, f x = z) l = Some (i, x).
Proof.
  intros (x & -> & Hx)%list_elem_of_fmap.
  destruct (list_find_elem_of (λ y, f y = f x) l x Hx eq_refl) as [[i y] Hf]. eauto.
Qed.

Lemma renumberIndex_index gs :
  Group.index <$> renumberIndex gs = seqZ 1 (Z.of_nat (length gs)).
Proof.
  unfold renumberIndex. rewrite <- (length_imap (λ i g, Group.set_index (Z.of_nat i + 1) g)).
  apply fmap_eq_seqZ. intros i g. rewrite list_lookup_imap.
  destruct (gs !! i); intros [= <-]. cbn. lia.
Qed.

Lemma renumberIndex_ceilings gs :
  Forall2 (λ g g', Group.max_model g = Group.max_model g'
                   ∧ Group.max_clip g = Group.max_clip g')
    gs (renumberIndex gs).
Proof.
  apply Forall2_same_length_lookup. unfold renumberIndex. split.
  - by rewrite length_imap.
  - intros i g g' Hg. rewrite list_lookup_imap, Hg. by intros [= <-].
Qed.

(** C4.  Cascade delete: in every state in which a group with id [g] exists,
    [removeGroup g] leaves as items exactly the items whose [group_id] is not
    [g], in their order and with every field but the ids untouched; it
    removes the (first) group with id [g] and keeps the ceilings of the
    others; and afterwards the [index] fields of the remaining groups are
    1, 2, ..., N in list order. *)
Theorem removeGroup_cascade (n : Node.t) (g : Z) :
  let state := Node.loraState n in
  let state' := Node.loraState (removeGroup g n) in
  g ∈ Group.id <$> groups state →
  Forall2 sameLoraFields
    (filter (λ l, Lora.group_id l ≠ Some g) (loras state)) (loras state')
  ∧ (∃ groupIdx groupData,
        list_find (λ x, Group.id x = g) (groups state) = Some (groupIdx, groupData)
        ∧ Forall2 (λ x x', Group.max_model x = Group.max_model x'
                           ∧ Group.max_clip x = Group.max_clip x')
            (delete groupIdx (groups state)) (groups state'))
  ∧ Group.index <$> groups state' = seqZ 1 (Z.of_nat (length (groups state)) - 1).
Proof.
  intros state state' Hg. subst state'.
  destruct (list_find_id_Some Group.id g (groups state) Hg) as (idx & gd & Hfind).
  unfold removeGroup. fold state. rewrite Hfind.
  rewrite saveState_loraState, rebuildUI_loraState. cbn [Node.loraState Node.set_loraState].
  set (gs := renumberIndex (delete idx (groups state))).
  set (ls := filter (λ l, Lora.group_id l ≠ Some g) (loras state)).
  unfold renumber. cbn [groups loras]. split; [|split].
  - apply Forall2_fmap_r, Forall_Forall2_diag, Forall_forall.
    intros l _. unfold sameLoraFields, compose. by rewrite updateLoraIds_props.
  - exists idx, gd. split; [done|].
    apply Forall2_fmap_r.
    eapply Forall2_impl; [apply renumberIndex_ceilings|].
    intros x x' [Hm Hc]. destruct (updateGroupId_fields (rebuildVars (mkState gs ls)) x')
      as (_ & Hm' & Hc'). split; congruence.
  - rewrite <- list_fmap_compose.
    rewrite (list_fmap_ext (Group.index ∘ updateGroupId (rebuildVars (mkState gs ls)))
               Group.index gs).
    2:{ intros i x _. unfold compose. symmetry. apply updateGroupId_fields. }
    unfold gs. rewrite renumberIndex_index, length_delete.
    2:{ apply list_find_Some in Hfind as [Hl _]. by eexists. }
    f_equal. apply list_find_Some in Hfind as [Hl%lookup_lt_Some _]. lia.
Qed.

(** Removing the first of the two groups of [exampleNode]. *)
Lemma removeGroup_cascade_witness :
  (1 ∈ Group.id <$> groups (Node.loraState exampleNode))
  ∧ Group.index <$> groups (Node.loraState (removeGroup 1 exampleNode))
    = seqZ 1 (Z.of_nat (length (groups (Node.loraState exampleNode))) - 1).
Proof.
  assert (1 ∈ Group.id <$> groups (Node.loraState exampleNode)) as Hg.
  { decide_by_evaluation. }
  split; [exact Hg|].
  exact (proj2 (proj2 (removeGroup_cascade exampleNode 1 Hg))).
Defined.

(** ** Mutations with a missing id *)

Lemma removeGroup_missing n g :
  g ∉ Group.id <$> groups (Node.loraState n) → removeGroup g n = n.
Proof. intros Hg. unfold removeGroup. by rewrite list_find_id_None. Qed.

Lemma removeLora_missing n i :
  i ∉ Lora.id <$> loras (Node.loraState n) → removeLora i n = n.
Proof. intros Hi. unfold removeLora. by rewrite list_find_id_None. Qed.

Lemma placeAll_loraState cs n : Node.loraState (placeAll cs n) = Node.loraState n.
Proof. by rewrite placeAll_widgets. Qed.

Lemma addLora_loraState groupId n :
  Node.loraState (addLora groupId n)
  = mkState (groups (Node.loraState n))
      (loras (Node.loraState n)
       ++ [Lora.mk (Node.nextLoraId n) groupId
             match groupId with None => ungroupedDefaults | Some _ => groupedDefaults end]).
Proof.
  unfold addLora, setSize, createLoraWidgets. cbn [Node.loraState Node.set_size].
  by rewrite saveState_loraState, placeAll_loraState.
Qed.

(** C5.  The code at the failing input.  A fresh node has no group, so 9 is
    the id of no group.  [addLora(9)] does not return early: it appends an
    item that names the missing group and saves, so that the snapshot and the
    document text change and the snapshot holds an item whose group does not
    exist.  The removals, given the same missing id, check it first and leave
    the node as it was. *)
Theorem addLora_missing_group_changes_snapshot :
  (9 ∉ Group.id <$> groups (Node.loraState freshNode))
  ∧ Node.loraState (addLora (Some 9) freshNode)
    = mkState [] [Lora.mk 1 (Some 9) groupedDefaults]
  ∧ Node.loraState (addLora (Some 9) freshNode) ≠ Node.loraState freshNode
  ∧ Node.stack_data (addLora (Some 9) freshNode)
    = JSON_stringify (mkState [] [Lora.mk 1 (Some 9) groupedDefaults])
  ∧ Node.stack_data (addLora (Some 9) freshNode) ≠ Node.stack_data freshNode
  ∧ ¬ refsResolve (Node.loraState (addLora (Some 9) freshNode))
  ∧ removeGroup 9 freshNode = freshNode
  ∧ removeLora 9 freshNode = freshNode.
Proof.
  assert (Node.loraState (addLora (Some 9) freshNode)
          = mkState [] [Lora.mk 1 (Some 9) groupedDefaults]) as Hstate.
  { by rewrite addLora_loraState. }
  assert (Node.stack_data (addLora (Some 9) freshNode)
          = JSON_stringify (mkState [] [Lora.mk 1 (Some 9) groupedDefaults])) as Hdoc.
  { vm_compute; reflexivity. }
  split; [decide_by_evaluation|]. split; [exact Hstate|]. split; [by rewrite Hstate|].
  split; [exact Hdoc|]. split; [by rewrite Hdoc|]. split; [|split].
  - rewrite Hstate. intros Hrefs.
    destruct (Hrefs (Lora.mk 1 (Some 9) groupedDefaults)) as [Hu|(g & Hg & _)].
    + by apply list_elem_of_singleton.
    + vm_compute in Hu. discriminate.
    + by apply elem_of_nil in Hg.
  - apply removeGroup_missing. decide_by_evaluation.
  - apply removeLora_missing. decide_by_evaluation.
Qed.

(** ** Loading *)

Lemma onConfigure_noPriorText values n :
  noPriorText values n → onConfigure values n = restoreState n.
Proof.
  unfold noPriorText, onConfigure. intros H. repeat case_match; congruence.
Qed.

(** C2 (as amended).  Fallback on load: whenever the document field is empty,
    the prior values give it no text, and the local cache holds a snapshot
    [S] under the node's key, the load adopts [S] and at once saves it, so
    that the document field holds the text of [S]; the snapshot the node ends
    with is [S] renumbered by the rebuild.  A later load of any node from
    that document text alone ends with the same snapshot. *)
Theorem load_falls_back_to_cache (values : option (list Text)) (n : Node.t)
    (S : LoraState) :
  Node.stack_data n = Empty →
  noPriorText values n →
  Node._saving n = false →
  loadStateFromLocalStorage (Node.id n) (Node.localStorage n) = Some S →
  Node.stack_data (onConfigure values n) = JSON_stringify S
  ∧ Node.loraState (onConfigure values n) = renumber S
  ∧ ∀ m, Node.stack_data m = Node.stack_data (onConfigure values n) →
         Node.loraState (restoreState m) = renumber S.
Proof.
  intros Hempty Hprior Hsaving Hcache.
  rewrite (onConfigure_noPriorText _ _ Hprior).
  assert (Node.stack_data (saveState (Node.set_loraState S n)) = JSON_stringify S) as Hdoc.
  { by rewrite saveState_stack_data. }
  assert (restoreState n
          = rebuildUI (Node.set_loraState S
                         (clearDynamicWidgets (saveState (Node.set_loraState S n))))) as ->.
  { unfold restoreState. rewrite Hempty, Hcache. cbn [truthyText]. by rewrite Hdoc. }
  split; [|split].
  - rewrite rebuildUI_unfold. cbn. exact Hdoc.
  - by rewrite rebuildUI_loraState.
  - intros m Hm. rewrite rebuildUI_unfold in Hm. cbn in Hm. rewrite Hdoc in Hm.
    unfold restoreState. rewrite Hm. unfold JSON_stringify. cbn [truthyText JSON_parse].
    rewrite Hm. unfold JSON_stringify. cbn [JSON_parse]. by rewrite rebuildUI_loraState.
Qed.

Lemma load_falls_back_to_cache_witness :
  Node.stack_data cachedNode = Empty
  ∧ Node.stack_data (onConfigure (Some [Empty]) cachedNode)
    = JSON_stringify (Node.loraState oneGroupNode).
Proof.
  split; [reflexivity|].
  apply (load_falls_back_to_cache (Some [Empty]) cachedNode (Node.loraState oneGroupNode)).
  - reflexivity.
  - vm_compute; reflexivity.
  - reflexivity.
  - vm_compute; reflexivity.
Defined.

(** C2 (as stated) fails for an unparseable document text: the local cache is
    not consulted, the snapshot stays as it was and the document field keeps
    the unparseable text. *)
Lemma load_unparseable_ignores_cache :
  loadStateFromLocalStorage (Node.id cachedNode) (Node.localStorage cachedNode)
  = Some (Node.loraState oneGroupNode)
  ∧ JSON_parse (Garbled "{oops") = None
  ∧ Node.loraState (onConfigure (Some [Garbled "{oops"]) cachedNode) = mkState [] []
  ∧ Node.stack_data (onConfigure (Some [Garbled "{oops"]) cachedNode) = Garbled "{oops"
  ∧ Node.loraState oneGroupNode ≠ mkState [] [].
Proof.
  split; [vm_compute; reflexivity|]. split; [reflexivity|].
  split; [vm_compute; reflexivity|]. split; [vm_compute; reflexivity|].
  vm_compute. discriminate.
Qed.

(** C3 (as amended).  Load-time validation: when the prior values hold a
    non-empty text for the [stack_data] field, the load adopts what the text
    parses to as the new snapshot (and renumbers it), whether or not its
    lists are populated; when the text does not parse, the snapshot stays as
    it was. *)
Theorem load_adopts_parseable_text (values : list Text) (n : Node.t)
    (idx : nat) (w : Widget.t) (text : Text) :
  list_find (λ w, Widget.name w = "stack_data") (Node.widgets n) = Some (idx, w) →
  values !! idx = Some text →
  truthyText text = true →
  Node.loraState (onConfigure (Some values) n)
  = match JSON_parse text with
    | Some state => renumber state
    | None => Node.loraState n
    end.
Proof.
  intros Hfind Hval Htext. unfold onConfigure. rewrite Hfind, Hval, Htext.
  unfold restoreState. cbn [Node.stack_data Node.set_stack_data]. rewrite Htext.
  change (Node.stack_data (Node.set_stack_data text n)) with text.
  destruct (JSON_parse text) as [state|]; [|done].
  by rewrite rebuildUI_loraState.
Qed.

Lemma load_adopts_parseable_text_witness :
  Node.loraState (onConfigure (Some [JSON_stringify (mkState [] [])]) oneGroupNode)
  = renumber (mkState [] []).
Proof.
  apply (load_adopts_parseable_text [JSON_stringify (mkState [] [])] oneGroupNode
           0%nat stackDataWidget (JSON_stringify (mkState [] []))).
  - vm_compute; reflexivity.
  - reflexivity.
  - reflexivity.
Defined.

(** C3 (as stated) fails: a present document text that parses to a snapshot
    with both lists empty is adopted and replaces the node's populated
    snapshot. *)
Lemma load_adopts_empty_snapshot :
  groups (Node.loraState oneGroupNode) ≠ []
  ∧ JSON_parse (JSON_stringify (mkState [] [])) = Some (mkState [] [])
  ∧ Node.loraState (onConfigure (Some [JSON_stringify (mkState [] [])]) oneGroupNode)
    = mkState [] [].
Proof.
  split; [vm_compute; discriminate|]. split; [reflexivity|]. vm_compute; reflexivity.
Qed.

(** ** The controls of the clip bounds *)






(** Scenario B run through the callbacks: after the rebuild the item shows
    its two clip bounds; switching [random_clip] off through the callback of
    its control rebuilds without them and leaves the stored bounds alone. *)
Example scenarioB_controls :
  Widget.name <$> Node.widgets (rebuildUI scenarioB)
  = ["stack_data"; "LoRA"; "✕"; "Type"; "MODEL Str"; "  🎲 Random"; "CLIP Str";
     "  🎲 Random"; "    Min"; "    Max"; "➕ Add LoRA"; "➕ Add Group"]
  ∧ Widget.name
      <$> Node.widgets (fire (SetLoraField 1 "random_clip") (VBool false) (rebuildUI scenarioB))
    = ["stack_data"; "LoRA"; "✕"; "Type"; "MODEL Str"; "  🎲 Random"; "CLIP Str";
       "  🎲 Random"; "➕ Add LoRA"; "➕ Add Group"]
  ∧ loras (Node.loraState
             (fire (SetLoraField 1 "random_clip") (VBool false) (rebuildUI scenarioB)))
    = [Lora.set "random_clip" (VBool false) scenarioBItem].
Proof. split; [|split]; vm_compute; reflexivity. Qed.

(** ** Collapse *)

(** Every control a rebuild creates adds the standard 30 to the height,
    whatever the collapse set holds. *)
Lemma rebuildCreated_height collapsed state w :
  w ∈ rebuildCreated collapsed state → widgetHeight w = 30.
Proof.
  intros [(g & j & _ & Hw)|(l & k & gid & _ & Hw)]%rebuildCreated_elem.
  - unfold groupWidgets in Hw. split_controls Hw; done.
  - unfold loraWidgets, groupedLoraControls, ungroupedLoraControls in Hw.
    destruct gid; split_controls Hw; done.
Qed.

(** C6, evaluated.  [oneGroupNode] has one group holding one item.  After
    [toggleGroupCollapse(1)] the group's id is in the collapse set and the
    header shows the collapsed mark, yet each of the ten controls of the
    group and its item still adds 30 to the height in [computeSize], and the
    node's size is what it was before the group was collapsed. *)
Theorem collapse_keeps_control_heights :
  1 ∈ Node.collapsedGroups (toggleGroupCollapse 1 oneGroupNode)
  ∧ Widget.name <$> Node.widgets (toggleGroupCollapse 1 oneGroupNode)
    = ["stack_data"; "▶ Group 1"; "✕ Remove"; "  Max MODEL"; "  Max CLIP";
       "  ➕ Add LoRA"; "    LoRA"; "✕"; "    Type"; "    🔒 MODEL"; "    🔒 CLIP";
       "➕ Add LoRA"; "➕ Add Group"]
  ∧ widgetHeight <$> Node.widgets (toggleGroupCollapse 1 oneGroupNode)
    = [0; 30; 30; 30; 30; 30; 30; 30; 30; 30; 30; 30; 30]
  ∧ computeSize (toggleGroupCollapse 1 oneGroupNode) = (450, 420)
  ∧ computeSize oneGroupNode = (450, 420).
Proof.
  split; [decide_by_evaluation|].
  repeat split; vm_compute; reflexivity.
Qed.

(** ** Witnesses and counterexamples for the rebuild claims *)

Lemma rebuild_twice_witness :
  refsResolve (Node.loraState exampleNode)
  ∧ groupIdsTruthy (Node.loraState exampleNode)
  ∧ rebuildUI (rebuildUI exampleNode) = rebuildUI exampleNode.
Proof.
  assert (refsResolve (Node.loraState exampleNode)) as Hrefs.
  { decide_by_evaluation. }
  assert (groupIdsTruthy (Node.loraState exampleNode)) as Htruthy.
  { decide_by_evaluation. }
  split; [exact Hrefs|]. split; [exact Htruthy|].
  exact (proj2 (proj2 (rebuild_twice exampleNode Hrefs Htruthy))).
Defined.

(** C8 (as stated) fails on two kinds of state.  With a dangling item, the
    first rebuild renumbers the group into the id the item names, and the
    second rebuild creates the item's controls, which the first did not.
    With a group of id 0, the first rebuild creates the controls of its item
    twice, under the group and as ungrouped, and the second only once. *)
Lemma rebuild_twice_differs :
  Node.widgets (rebuildUI (rebuildUI (nodeWith danglingState)))
  ≠ Node.widgets (rebuildUI (nodeWith danglingState))
  ∧ refsResolve zeroIdState
  ∧ Node.widgets (rebuildUI (rebuildUI (nodeWith zeroIdState)))
    ≠ Node.widgets (rebuildUI (nodeWith zeroIdState)).
Proof.
  split; [|split].
  - intros H. apply (f_equal length) in H. vm_compute in H. discriminate.
  - decide_by_evaluation.
  - intros H. apply (f_equal length) in H. vm_compute in H. discriminate.
Qed.

Lemma rebuild_renumbers_ids_witness :
  refsResolve (Node.loraState exampleNode)
  ∧ groupIdsTruthy (Node.loraState exampleNode)
  ∧ NoDup (Group.id <$> groups (Node.loraState exampleNode))
  ∧ NoDup (Lora.id <$> loras (Node.loraState exampleNode))
  ∧ Group.id <$> groups (Node.loraState (rebuildUI exampleNode))
    = seqZ 1 (Z.of_nat (length (groups (Node.loraState exampleNode)))).
Proof.
  assert (refsResolve (Node.loraState exampleNode)) as Hrefs.
  { decide_by_evaluation. }
  assert (groupIdsTruthy (Node.loraState exampleNode)) as Htruthy.
  { decide_by_evaluation. }
  assert (NoDup (Group.id <$> groups (Node.loraState exampleNode))) as Hgs.
  { decide_by_evaluation. }
  assert (NoDup (Lora.id <$> loras (Node.loraState exampleNode))) as Hls.
  { decide_by_evaluation. }
  split; [exact Hrefs|]. split; [exact Htruthy|]. split; [exact Hgs|]. split; [exact Hls|].
  exact (proj1 (rebuild_renumbers_ids exampleNode Hrefs Htruthy Hgs Hls)).
Defined.

(** C9 (as stated) fails on snapshots in which every item is ungrouped or
    names an existing group.  In [sameLoraIdNode] two items of the one group
    share the id 1, and the rebuild gives both the id 2.  Two groups with one
    id both get the id 2.  And the item of a group with id 0 is numbered
    twice, so that it gets the id 2 and the item counter ends at 3. *)
Lemma rebuild_ids_not_sequential :
  (refsResolve (Node.loraState sameLoraIdNode)
   ∧ Lora.id <$> loras (Node.loraState sameLoraIdNode) = [1; 1]
   ∧ Lora.id <$> buildOrder (Node.loraState (rebuildUI sameLoraIdNode)) = [2; 2])
  ∧ (refsResolve sameGroupIdState
     ∧ Group.id <$> groups (Node.loraState (rebuildUI (nodeWith sameGroupIdState))) = [2; 2])
  ∧ (refsResolve zeroIdState
     ∧ Lora.id <$> buildOrder (Node.loraState (rebuildUI (nodeWith zeroIdState))) = [2]
     ∧ Node.nextLoraId (rebuildUI (nodeWith zeroIdState)) = 3).
Proof.
  repeat split; try (vm_compute; reflexivity);
    decide_by_evaluation.
Qed.

Lemma dangling_item_survives_unrendered_witness :
  loras (Node.loraState (nodeWith danglingState)) !! 0%nat
  = Some (Lora.mk 1 (Some 1) groupedDefaults)
  ∧ loras (Node.loraState (rebuildUI (nodeWith danglingState))) !! 0%nat
    = Some (Lora.mk 1 (Some 1) groupedDefaults).
Proof.
  split; [reflexivity|].
  apply (dangling_item_survives_unrendered (nodeWith danglingState) 0%nat
           (Lora.mk 1 (Some 1) groupedDefaults)).
  - reflexivity.
  - reflexivity.
  - apply Forall_forall. decide_by_evaluation.
  - apply Forall_forall. decide_by_evaluation.
  - reflexivity.
Defined.

(** C10 (as stated) fails twice.  The dangling item of [danglingState] is not
    rendered by the first rebuild but is by the second, once the group has
    been renumbered into the id the item names: controls tagged with the
    group and bound to the item then exist.  And the dangling item of
    [danglingSameIdState], which shares its id 5 with a rendered item, has
    its id rewritten to 1. *)
Lemma dangling_item_rendered_or_renumbered :
  (truthyId (Some 1) = true
   ∧ Group.id <$> groups danglingState = [5]
   ∧ Widget.name <$> Node.widgets (rebuildUI (nodeWith danglingState))
     = ["stack_data"; "▼ Group 1"; "✕ Remove"; "  Max MODEL"; "  Max CLIP";
        "  ➕ Add LoRA"; "➕ Add LoRA"; "➕ Add Group"]
   ∧ loras (Node.loraState (rebuildUI (nodeWith danglingState)))
     = [Lora.mk 1 (Some 1) groupedDefaults]
   ∧ Widget.name <$> Node.widgets (rebuildUI (rebuildUI (nodeWith danglingState)))
     = ["stack_data"; "▼ Group 1"; "✕ Remove"; "  Max MODEL"; "  Max CLIP";
        "  ➕ Add LoRA"; "    LoRA"; "✕"; "    Type"; "    🔒 MODEL"; "    🔒 CLIP";
        "➕ Add LoRA"; "➕ Add Group"])
  ∧ (truthyId (Some 99) = true
     ∧ groups danglingSameIdState = []
     ∧ loras (Node.loraState (rebuildUI (nodeWith danglingSameIdState)))
       = [Lora.mk 1 (Some 99) groupedDefaults; Lora.mk 1 None ungroupedDefaults]).
Proof. repeat split; vm_compute; reflexivity. Qed.

(** * Further properties of the persistence bridge *)

Lemma storageKey_inj a b : storageKey a = storageKey b → a = b.
Proof.
  unfold storageKey. intros H. apply (inj (String.append _)) in H.
  by apply (inj pretty).
Qed.

Lemma saveStateToLocalStorage_taken nodeId state storage :
  takes storage nodeId state →
  saveStateToLocalStorage nodeId state storage
  = Storage.mk (<[storageKey nodeId := JSON_stringify state]> (Storage.items storage))
      (Storage.accepts storage).
Proof.
  unfold takes, saveStateToLocalStorage, Storage.setItem. by intros ->.
Qed.

Lemma saveStateToLocalStorage_refused nodeId state storage :
  ¬ takes storage nodeId state → saveStateToLocalStorage nodeId state storage = storage.
Proof.
  unfold takes, saveStateToLocalStorage, Storage.setItem.
  by destruct (Storage.accepts _ _ _ _).
Qed.

Lemma takes_dec storage nodeId state :
  takes storage nodeId state ∨ ¬ takes storage nodeId state.
Proof. unfold takes. destruct (Storage.accepts _ _ _ _); [by left|by right]. Qed.

Lemma cache_roundtrip_aux nodeId state storage :
  takes storage nodeId state →
  loadStateFromLocalStorage nodeId (saveStateToLocalStorage nodeId state storage)
  = Some state.
Proof.
  intros Htakes. rewrite saveStateToLocalStorage_taken by done.
  unfold loadStateFromLocalStorage, Storage.getItem. cbn [Storage.items].
  by rewrite lookup_insert_eq.
Qed.

Lemma cache_other_aux nodeId other state storage :
  other ≠ nodeId →
  loadStateFromLocalStorage other (saveStateToLocalStorage nodeId state storage)
  = loadStateFromLocalStorage other storage.
Proof.
  intros Hne. destruct (takes_dec storage nodeId state) as [Htakes|Hrefused].
  - rewrite saveStateToLocalStorage_taken by done.
    unfold loadStateFromLocalStorage, Storage.getItem. cbn [Storage.items].
    rewrite lookup_insert_ne; [done|]. intros Hk. by apply storageKey_inj in Hk.
  - by rewrite saveStateToLocalStorage_refused.
Qed.

(** X1.  Backup cache round trip.  When the store takes the write, what
    [saveStateToLocalStorage] stores under a node id is what
    [loadStateFromLocalStorage] returns for that id, whatever the store held
    before.  When the store refuses the write ([setItem] throws), the store
    stays as it was, so a later load returns what it returned before.  In
    both cases the entries of other node ids are not affected. *)
Theorem cache_roundtrip (nodeId : Z) (state : LoraState) (storage : Storage.t) :
  (takes storage nodeId state →
   loadStateFromLocalStorage nodeId (saveStateToLocalStorage nodeId state storage)
   = Some state)
  ∧ (¬ takes storage nodeId state →
     saveStateToLocalStorage nodeId state storage = storage)
  ∧ ∀ other, other ≠ nodeId →
      loadStateFromLocalStorage other (saveStateToLocalStorage nodeId state storage)
      = loadStateFromLocalStorage other storage.
Proof.
  split; [|split].
  - apply cache_roundtrip_aux.
  - apply saveStateToLocalStorage_refused.
  - intros other Hne. by apply cache_other_aux.
Qed.

Lemma cache_roundtrip_witness :
  loadStateFromLocalStorage 7 (saveStateToLocalStorage 7 zeroIdState ∅) = Some zeroIdState
  ∧ saveStateToLocalStorage 7 zeroIdState fullStorage = fullStorage
  ∧ loadStateFromLocalStorage 8 (saveStateToLocalStorage 7 zeroIdState ∅)
    = loadStateFromLocalStorage 8 ∅.
Proof.
  split; [|split].
  - apply (proj1 (cache_roundtrip 7 zeroIdState ∅)). reflexivity.
  - apply (proj1 (proj2 (cache_roundtrip 7 zeroIdState fullStorage))). discriminate.
  - apply (proj2 (proj2 (cache_roundtrip 7 zeroIdState ∅)) 8). lia.
Defined.

Lemma saveState_unfold n :
  Node._saving n = false →
  saveState n
  = Node.mk (Node.id n) (Node.loraState n) (Node.nextGroupId n) (Node.nextLoraId n)
      (Node.collapsedGroups n) (Node.widgets n) (JSON_stringify (Node.loraState n)) false
      (Node.size n)
      (if truthyZ (Node.id n)
       then saveStateToLocalStorage (Node.id n) (Node.loraState n) (Node.localStorage n)
       else Node.localStorage n).
Proof.
  destruct n as [i S ng nl cg ws sd sv sz st]. cbn. intros ->.
  unfold saveState. cbn. by destruct (truthyZ i).
Qed.

Lemma saveState_frame n :
  Node.id (saveState n) = Node.id n
  ∧ Node.nextGroupId (saveState n) = Node.nextGroupId n
  ∧ Node.nextLoraId (saveState n) = Node.nextLoraId n
  ∧ Node.collapsedGroups (saveState n) = Node.collapsedGroups n
  ∧ Node.widgets (saveState n) = Node.widgets n
  ∧ Node._saving (saveState n) = Node._saving n
  ∧ Node.size (saveState n) = Node.size n.
Proof.
  destruct (Node._saving n) eqn:Hs.
  - unfold saveState. by rewrite Hs.
  - by rewrite saveState_unfold.
Qed.

Lemma truthyZ_true z : z ≠ 0 → truthyZ z = true.
Proof. intros Hz. unfold truthyZ. by apply negb_true_iff, Z.eqb_neq. Qed.

Lemma saveState_inSync n : Node._saving n = false → inSync (saveState n).
Proof. intros Hs. by rewrite saveState_unfold. Qed.

Lemma saveState_backedUp n :
  Node._saving n = false →
  takes (Node.localStorage n) (Node.id n) (Node.loraState n) →
  backedUp (saveState n).
Proof.
  intros Hs Htakes. rewrite saveState_unfold by done. intros Hid. cbn in *.
  rewrite truthyZ_true by done. by apply cache_roundtrip_aux.
Qed.

Lemma saveState_unsaved n :
  Node._saving n = false →
  Node.id n = 0 ∨ ¬ takes (Node.localStorage n) (Node.id n) (Node.loraState n) →
  Node.localStorage (saveState n) = Node.localStorage n.
Proof.
  intros Hs Hno. rewrite saveState_unfold by done. cbn [Node.localStorage].
  destruct Hno as [-> | Hrefused]; [done|].
  rewrite saveStateToLocalStorage_refused by done. by destruct (truthyZ _).
Qed.

Lemma saveState_twice n : saveState (saveState n) = saveState n.
Proof.
  destruct (Node._saving n) eqn:Hs.
  { unfold saveState. by rewrite !Hs. }
  rewrite (saveState_unfold (saveState n)), !saveState_unfold
    by (by rewrite ?saveState_unfold).
  cbn [Node.id Node.loraState Node.nextGroupId Node.nextLoraId Node.collapsedGroups
       Node.widgets Node.size Node.localStorage].
  f_equal. destruct (truthyZ (Node.id n)); [|done].
  set (st := Node.localStorage n). set (i := Node.id n). set (S := Node.loraState n).
  destruct (takes_dec st i S) as [Htakes|Hrefused].
  - rewrite (saveStateToLocalStorage_taken i S st) by done.
    set (st' := Storage.mk _ _).
    destruct (takes_dec st' i S) as [Htakes'|Hrefused'].
    + rewrite saveStateToLocalStorage_taken by done. unfold st'. cbn [Storage.items
        Storage.accepts]. by rewrite insert_insert_eq.
    + by rewrite saveStateToLocalStorage_refused.
  - by rewrite !saveStateToLocalStorage_refused
      by (by rewrite ?saveStateToLocalStorage_refused).
Qed.

(** X2.  Saving writes the text of the current snapshot to the document
    field.  When the node id is not 0 and the store takes the write, the
    backup cache then holds the same snapshot; with the id 0, or when the
    store refuses the write, the store is left as it was, and the document
    field is written all the same.  Nothing else in the node changes, and
    saving again changes nothing. *)
Theorem saveState_effect (n : Node.t) :
  Node._saving n = false →
  inSync (saveState n)
  ∧ (takes (Node.localStorage n) (Node.id n) (Node.loraState n) →
     Node.id n ≠ 0 →
     loadStateFromLocalStorage (Node.id n) (Node.localStorage (saveState n))
     = Some (Node.loraState n))
  ∧ (Node.id n = 0 ∨ ¬ takes (Node.localStorage n) (Node.id n) (Node.loraState n) →
     Node.localStorage (saveState n) = Node.localStorage n)
  ∧ Node.set_localStorage (Node.localStorage n)
      (Node.set_stack_data (Node.stack_data n) (saveState n)) = n
  ∧ saveState (saveState n) = saveState n.
Proof.
  intros Hs. split; [by apply saveState_inSync|]. split; [|split; [|split]].
  - intros Htakes Hid. pose proof (saveState_backedUp n Hs Htakes) as Hb.
    unfold backedUp in Hb. rewrite saveState_loraState in Hb.
    rewrite (proj1 (saveState_frame n)) in Hb. by apply Hb.
  - by apply saveState_unsaved.
  - rewrite saveState_unfold by done.
    destruct n as [i S ng nl cg ws sd sv sz st]. cbn in *. by subst sv.
  - apply saveState_twice.
Qed.

Lemma saveState_effect_witness :
  inSync (saveState (toggleGroupCollapse 1 mixedNode))
  ∧ loadStateFromLocalStorage (Node.id (toggleGroupCollapse 1 mixedNode))
      (Node.localStorage (saveState (toggleGroupCollapse 1 mixedNode)))
    = Some (Node.loraState (toggleGroupCollapse 1 mixedNode))
  ∧ Node.localStorage (saveState (toggleGroupCollapse 1 unbackedNode))
    = Node.localStorage (toggleGroupCollapse 1 unbackedNode).
Proof.
  assert (Node._saving (toggleGroupCollapse 1 mixedNode) = false) as Hs
    by (vm_compute; reflexivity).
  assert (Node._saving (toggleGroupCollapse 1 unbackedNode) = false) as Hs'
    by (vm_compute; reflexivity).
  assert (takes (Node.localStorage (toggleGroupCollapse 1 mixedNode))
            (Node.id (toggleGroupCollapse 1 mixedNode))
            (Node.loraState (toggleGroupCollapse 1 mixedNode))) as Htakes
    by (vm_compute; reflexivity).
  assert (Node.id (toggleGroupCollapse 1 mixedNode) ≠ 0) as Hid
    by (vm_compute; discriminate).
  assert (¬ takes (Node.localStorage (toggleGroupCollapse 1 unbackedNode))
              (Node.id (toggleGroupCollapse 1 unbackedNode))
              (Node.loraState (toggleGroupCollapse 1 unbackedNode))) as Hrefused
    by (vm_compute; discriminate).
  split; [|split].
  - exact (proj1 (saveState_effect _ Hs)).
  - exact (proj1 (proj2 (saveState_effect _ Hs)) Htakes Hid).
  - exact (proj1 (proj2 (proj2 (saveState_effect _ Hs'))) (or_intror Hrefused)).
Defined.

(** X3.  The serialization hook of the document field saves first, so the text
    the host writes into the workflow is that of the current snapshot, also
    when the field was out of date. *)
Theorem serializeValue_current (n : Node.t) :
  Node._saving n = false →
  (serializeValue n).2 = JSON_stringify (Node.loraState n)
  ∧ Node.loraState (serializeValue n).1 = Node.loraState n
  ∧ inSync (serializeValue n).1.
Proof.
  intros Hs. unfold serializeValue. cbn.
  rewrite saveState_loraState. split; [|split]; [|done|];
    by rewrite saveState_unfold.
Qed.

Lemma serializeValue_current_witness :
  Node.stack_data (toggleGroupCollapse 1 mixedNode)
  ≠ JSON_stringify (Node.loraState (toggleGroupCollapse 1 mixedNode))
  ∧ (serializeValue (toggleGroupCollapse 1 mixedNode)).2
    = JSON_stringify (Node.loraState (toggleGroupCollapse 1 mixedNode)).
Proof.
  assert (Node._saving (toggleGroupCollapse 1 mixedNode) = false) as Hs
    by (vm_compute; reflexivity).
  split; [decide_by_evaluation|].
  exact (proj1 (serializeValue_current _ Hs)).
Defined.

(** X4.  Loading with nothing to load: when the document field is empty, the
    prior values give it no text and the backup cache has no readable entry
    for the node, the load hook leaves the node exactly as it was. *)
Theorem load_nothing (values : option (list Text)) (n : Node.t) :
  Node.stack_data n = Empty →
  noPriorText values n →
  loadStateFromLocalStorage (Node.id n) (Node.localStorage n) = None →
  onConfigure values n = n.
Proof.
  intros Hsd Hno Hcache. rewrite onConfigure_noPriorText by done.
  unfold restoreState. by rewrite Hsd, Hcache.
Qed.

Lemma load_nothing_witness : onConfigure (Some [Empty]) freshNode = freshNode.
Proof. apply load_nothing; vm_compute; reflexivity. Defined.

(** X5.  Loading an unparseable text: the text is copied into the document field
    and nothing else happens; the snapshot, the controls, the counters and
    the backup cache stay as they were, and the cache is not consulted. *)
Theorem load_unparseable (values : list Text) (n : Node.t) (idx : nat)
    (w : Widget.t) (text : Text) :
  list_find (λ w, Widget.name w = "stack_data") (Node.widgets n) = Some (idx, w) →
  values !! idx = Some text →
  truthyText text = true →
  JSON_parse text = None →
  onConfigure (Some values) n = Node.set_stack_data text n.
Proof.
  intros Hfind Hval Htext Hparse. unfold onConfigure. rewrite Hfind, Hval, Htext.
  unfold restoreState. cbn [Node.stack_data Node.set_stack_data].
  rewrite Htext. cbn [Node.stack_data Node.set_stack_data]. by rewrite Hparse.
Qed.

Lemma load_unparseable_witness :
  onConfigure (Some [Garbled "{oops"]) cachedNode
  = Node.set_stack_data (Garbled "{oops") cachedNode.
Proof.
  apply (load_unparseable _ _ 0%nat stackDataWidget (Garbled "{oops"));
    vm_compute; reflexivity.
Defined.

(** ** Callbacks *)

(** X6.  An edit that arrives for an item or a group which is no longer in
    the snapshot is dropped: the snapshot, the document field, the backup
    cache, the counters, the collapse set and the size stay as they were, and
    nothing is saved.  Only the control list is left open: there the host's
    own callback may have put the new value into the edited control. *)
Theorem stale_edit_ignored (n : Node.t) (v : JsVal) :
  (∀ i key, i ∉ Lora.id <$> loras (Node.loraState n) →
     Node.set_widgets (Node.widgets n) (fire (SetLoraField i key) v n) = n)
  ∧ (∀ g field, g ∉ Group.id <$> groups (Node.loraState n) →
       Node.set_widgets (Node.widgets n) (fire (SetGroupField g field) v n) = n).
Proof.
  split.
  - intros i key Hi. cbn [fire]. rewrite list_find_id_None by done. by destruct n.
  - intros g field Hg. cbn [fire]. rewrite list_find_id_None by done. by destruct n.
Qed.

Lemma stale_edit_ignored_witness :
  Node.set_widgets (Node.widgets exampleNode)
    (fire (SetLoraField 9 "name") (VStr "x") exampleNode) = exampleNode.
Proof.
  assert (9 ∉ Lora.id <$> loras (Node.loraState exampleNode)) as Hi.
  { decide_by_evaluation. }
  exact (proj1 (stale_edit_ignored exampleNode (VStr "x")) 9 "name" Hi).
Defined.

Lemma rebuildUI_frame n :
  Node.id (rebuildUI n) = Node.id n
  ∧ Node.collapsedGroups (rebuildUI n) = Node.collapsedGroups n
  ∧ Node.stack_data (rebuildUI n) = Node.stack_data n
  ∧ Node._saving (rebuildUI n) = Node._saving n
  ∧ Node.localStorage (rebuildUI n) = Node.localStorage n.
Proof. by rewrite rebuildUI_unfold. Qed.

Lemma placeAll_frame cs n :
  Node.id (placeAll cs n) = Node.id n
  ∧ Node.loraState (placeAll cs n) = Node.loraState n
  ∧ Node.nextGroupId (placeAll cs n) = Node.nextGroupId n
  ∧ Node.nextLoraId (placeAll cs n) = Node.nextLoraId n
  ∧ Node.collapsedGroups (placeAll cs n) = Node.collapsedGroups n
  ∧ Node.stack_data (placeAll cs n) = Node.stack_data n
  ∧ Node._saving (placeAll cs n) = Node._saving n
  ∧ Node.localStorage (placeAll cs n) = Node.localStorage n.
Proof. by rewrite placeAll_widgets. Qed.

Lemma setSize_saved before sz n : savedOver before n → savedOver before (setSize sz n).
Proof. done. Qed.

Lemma saveState_saved n :
  Node._saving n = false → savedOver (Node.localStorage n) (saveState n).
Proof.
  intros Hs. unfold savedOver.
  rewrite saveState_loraState, (proj1 (saveState_frame n)).
  split; [by apply saveState_inSync|]. split.
  - by apply saveState_backedUp.
  - by apply saveState_unsaved.
Qed.

(** The same, for a node [m] that an operation made from [n] without
    touching the store, the id or the saving flag. *)
Lemma saveState_saved_from n m :
  Node._saving m = false → Node.localStorage m = Node.localStorage n →
  savedOver (Node.localStorage n) (saveState m).
Proof. intros Hs <-. by apply saveState_saved. Qed.

Lemma unchanged_but_controls n : Node.set_widgets (Node.widgets n) n = n.
Proof. by destruct n. Qed.

(** X7.  Every callback but the collapse toggle saves what it changes.  After
    it has run, either nothing but the control list can differ from before
    (there the host's own callback may have put the new value into the edited
    control), or the node has been saved: the document field holds the text
    of the new snapshot; if the store takes the write and the node id is not
    0 the backup cache holds that snapshot; if the store refuses the write or
    the id is 0 the store is as it was.  A ceiling control reports a
    number. *)
Theorem callbacks_save (cb : Callback) (v : JsVal) (n : Node.t) :
  Node._saving n = false →
  (∀ g, cb ≠ CallToggleGroupCollapse g) →
  (∀ g field, cb = SetGroupField g field → ∃ q, v = VNum q) →
  Node.set_widgets (Node.widgets n) (fire cb v n) = n
  ∨ (inSync (fire cb v n)
     ∧ (takes (Node.localStorage n) (Node.id (fire cb v n)) (Node.loraState (fire cb v n)) →
        backedUp (fire cb v n))
     ∧ (Node.id (fire cb v n) = 0
        ∨ ¬ takes (Node.localStorage n) (Node.id (fire cb v n))
              (Node.loraState (fire cb v n)) →
        Node.localStorage (fire cb v n) = Node.localStorage n)).
Proof.
  intros Hs Hcb Hnum. change (Node.set_widgets (Node.widgets n) (fire cb v n) = n
                              ∨ savedOver (Node.localStorage n) (fire cb v n)).
  destruct cb as [|groupId| |g|g|i|g field|i key]; cbn [fire].
  - left. apply unchanged_but_controls.
  - right. unfold addLora. apply setSize_saved, saveState_saved_from;
      unfold createLoraWidgets.
    + by rewrite (proj1 (proj2 (proj2 (proj2 (proj2 (proj2 (proj2 (placeAll_frame _ _)))))))).
    + by rewrite (proj2 (proj2 (proj2 (proj2 (proj2 (proj2 (proj2 (placeAll_frame _ _)))))))).
  - right. unfold addGroup. apply setSize_saved, saveState_saved_from;
      unfold createGroupWidgets.
    + by rewrite (proj1 (proj2 (proj2 (proj2 (proj2 (proj2 (proj2 (placeAll_frame _ _)))))))).
    + by rewrite (proj2 (proj2 (proj2 (proj2 (proj2 (proj2 (proj2 (placeAll_frame _ _)))))))).
  - by destruct (Hcb g).
  - unfold removeGroup. case_match; [|left; apply unchanged_but_controls]. case_match. right.
    apply saveState_saved_from.
    + by rewrite (proj1 (proj2 (proj2 (proj2 (rebuildUI_frame _))))).
    + by rewrite (proj2 (proj2 (proj2 (proj2 (rebuildUI_frame _))))).
  - unfold removeLora. case_match; [|left; apply unchanged_but_controls]. case_match. right.
    apply saveState_saved_from.
    + by rewrite (proj1 (proj2 (proj2 (proj2 (rebuildUI_frame _))))).
    + by rewrite (proj2 (proj2 (proj2 (proj2 (rebuildUI_frame _))))).
  - destruct (Hnum g field eq_refl) as [q ->].
    case_match; [|left; apply unchanged_but_controls]. case_match.
    right. by apply saveState_saved_from.
  - case_match; [|left; apply unchanged_but_controls]. case_match. right.
    apply saveState_saved_from.
    + case_match; [|done]. by rewrite (proj1 (proj2 (proj2 (proj2 (rebuildUI_frame _))))).
    + case_match; [|done]. by rewrite (proj2 (proj2 (proj2 (proj2 (rebuildUI_frame _))))).
Qed.

Lemma callbacks_save_witness :
  (Node.set_widgets (Node.widgets exampleNode)
     (fire (CallRemoveGroup 1) (VBool true) exampleNode) = exampleNode
   ∨ inSync (fire (CallRemoveGroup 1) (VBool true) exampleNode))
  ∧ (Node.set_widgets (Node.widgets unbackedNode)
       (fire (SetGroupField 1 MaxModel) (VNum 2.5) unbackedNode) = unbackedNode
     ∨ inSync (fire (SetGroupField 1 MaxModel) (VNum 2.5) unbackedNode)).
Proof.
  assert (Node._saving exampleNode = false) as Hs by (vm_compute; reflexivity).
  assert (Node._saving unbackedNode = false) as Hs' by (vm_compute; reflexivity).
  assert (∀ g, CallRemoveGroup 1 ≠ CallToggleGroupCollapse g) as Hcb by discriminate.
  assert (∀ g field, CallRemoveGroup 1 = SetGroupField g field → ∃ q, VBool true = VNum q)
    as Hnum by discriminate.
  assert (∀ g, SetGroupField 1 MaxModel ≠ CallToggleGroupCollapse g) as Hcb' by discriminate.
  assert (∀ g field, SetGroupField 1 MaxModel = SetGroupField g field
                     → ∃ q, VNum 2.5 = VNum q) as Hnum' by eauto.
  split.
  - destruct (callbacks_save (CallRemoveGroup 1) (VBool true) exampleNode Hs Hcb Hnum)
      as [Hsame | (Hsync & _)]; [by left|by right].
  - destruct (callbacks_save (SetGroupField 1 MaxModel) (VNum 2.5) unbackedNode Hs'
                Hcb' Hnum') as [Hsame | (Hsync & _)]; [by left|by right].
Defined.

(** * The control list *)

Lemma indexOf_middle w a b : w ∉ a → indexOf w (a ++ w :: b) = Z.of_nat (length a).
Proof.
  intros Ha. unfold indexOf.
  assert (list_find (λ x, x = w) (a ++ w :: b) = Some (length a, w)) as ->; [|done].
  apply list_find_Some. split; [by rewrite list_lookup_middle|]. split; [done|].
  intros j y Hj Hlt. rewrite lookup_app_l in Hj by done. intros ->.
  apply Ha. by eapply list_elem_of_lookup_2.
Qed.

Lemma indexOf_absent w ws : w ∉ ws → indexOf w ws = -1.
Proof.
  intros Hw. unfold indexOf.
  assert (list_find (λ x, x = w) ws = None) as ->; [|done].
  apply list_find_None, Forall_forall. by intros x Hx ->.
Qed.

Lemma delete_last {A} (ws : list A) w :
  delete (Z.to_nat (Z.of_nat (length (ws ++ [w])) - 1)) (ws ++ [w]) = ws.
Proof.
  replace (Z.to_nat (Z.of_nat (length (ws ++ [w])) - 1)) with (length ws)
    by (rewrite length_app; simpl; lia).
  by rewrite (delete_middle ws [] w), app_nil_r.
Qed.

Lemma placeIn_before w a b :
  addLoraButton ∉ a → w ≠ addLoraButton →
  placeIn w (a ++ addLoraButton :: b) = a ++ w :: addLoraButton :: b.
Proof.
  intros Ha Hw. unfold placeIn. rewrite delete_last.
  replace ((a ++ addLoraButton :: b) ++ [w]) with (a ++ addLoraButton :: (b ++ [w]))
    by by rewrite <- app_assoc.
  rewrite indexOf_middle by done.
  assert ((Z.of_nat (length a) <? Z.of_nat (length (a ++ addLoraButton :: b ++ [w])) - 1)
          = true) as ->.
  { apply Z.ltb_lt. rewrite !length_app. cbn [length]. rewrite length_app. cbn. lia. }
  unfold spliceInsert.
  assert ((Z.of_nat (length a) <? 0) = false) as -> by (apply Z.ltb_ge; lia).
  rewrite Z.min_l by (rewrite length_app; lia).
  by rewrite Nat2Z.id, take_app_length, drop_app_length.
Qed.

Lemma placeIn_absent w ws :
  addLoraButton ∉ ws → w ≠ addLoraButton →
  placeIn w ws = take (length ws - 1) ws ++ w :: drop (length ws - 1) ws.
Proof.
  intros Hws Hw. unfold placeIn. rewrite delete_last.
  rewrite indexOf_absent.
  2:{ rewrite elem_of_app, list_elem_of_singleton. by intros [?|?]. }
  assert ((-1 <? Z.of_nat (length (ws ++ [w])) - 1) = true) as ->.
  { apply Z.ltb_lt. rewrite length_app. cbn. lia. }
  unfold spliceInsert. cbn [Z.ltb Z.compare].
  by replace (Z.to_nat (Z.max (Z.of_nat (length ws) + -1) 0)) with (length ws - 1)%nat
    by lia.
Qed.

Lemma placeAllIn_before cs a b :
  addLoraButton ∉ a → Forall (λ c, c ≠ addLoraButton) cs →
  placeAllIn (a ++ addLoraButton :: b) cs = a ++ cs ++ addLoraButton :: b.
Proof.
  revert a. induction cs as [|c cs IH]; intros a Ha Hcs; [done|].
  apply Forall_cons in Hcs as [Hc Hcs].
  unfold placeAllIn in *. cbn [foldl]. rewrite placeIn_before by done.
  replace (a ++ c :: addLoraButton :: b) with ((a ++ [c]) ++ addLoraButton :: b)
    by by rewrite <- app_assoc.
  rewrite IH; [by rewrite <- app_assoc| |done].
  rewrite elem_of_app, list_elem_of_singleton. by intros [?|?].
Qed.

(** X8.  [moveWidgetBeforeActionButtons] on a control that was just added: it
    ends up immediately in front of the Add LoRA button, and every other
    control keeps its place in the order. *)
Theorem place_before_action_buttons (w : Widget.t) (a b : list Widget.t) (n : Node.t) :
  Node.widgets n = a ++ addLoraButton :: b →
  addLoraButton ∉ a →
  w ≠ addLoraButton →
  Node.widgets (place w n) = a ++ w :: addLoraButton :: b.
Proof.
  intros Hws Ha Hw. rewrite place_widgets. cbn. rewrite Hws. by apply placeIn_before.
Qed.

Lemma place_before_action_buttons_witness :
  Node.widgets (place seedWidget freshNode)
  = [stackDataWidget] ++ seedWidget :: addLoraButton :: [addGroupButton].
Proof.
  apply (place_before_action_buttons seedWidget [stackDataWidget] [addGroupButton] freshNode).
  - reflexivity.
  - decide_by_evaluation.
  - discriminate.
Defined.

(** X9.  [moveWidgetBeforeActionButtons] when the Add LoRA button is not in the
    list: [indexOf] gives -1, and [splice(-1, 0, w)] puts the new control in
    front of the last control of the list (alone, if the list was empty). *)
Theorem place_without_action_button (w : Widget.t) (n : Node.t) :
  addLoraButton ∉ Node.widgets n →
  w ≠ addLoraButton →
  Node.widgets (place w n)
  = take (length (Node.widgets n) - 1) (Node.widgets n)
    ++ w :: drop (length (Node.widgets n) - 1) (Node.widgets n).
Proof.
  intros Hws Hw. rewrite place_widgets. cbn. by apply placeIn_absent.
Qed.

Lemma place_without_action_button_witness :
  Node.widgets (place addGroupButton noButtonNode)
  = [seedWidget; addGroupButton; stackDataWidget].
Proof.
  apply (place_without_action_button addGroupButton noButtonNode).
  - decide_by_evaluation.
  - discriminate.
Defined.

Lemma isDynamic_ne_button w : isDynamic w → w ≠ addLoraButton.
Proof. by intros (_ & _ & ? & _). Qed.

Lemma isSeeds_elem seeds s :
  isSeeds seeds → s ∈ seeds → Widget.name s = "seed" ∧ Widget.callback s = NoCallback.
Proof.
  intros [->|(s' & -> & Hn & Hc)] Hs.
  - by apply elem_of_nil in Hs.
  - by apply list_elem_of_singleton in Hs as ->.
Qed.

Lemma layout_button_notin seeds dyn :
  isSeeds seeds → Forall isDynamic dyn →
  addLoraButton ∉ seeds ++ [stackDataWidget] ++ dyn.
Proof.
  intros Hseeds Hdyn. rewrite !elem_of_app, list_elem_of_singleton.
  intros [Hs|[?|Hd]]; [|done|].
  - by apply (isSeeds_elem _ _ Hseeds) in Hs as [? _].
  - rewrite Forall_forall in Hdyn. by apply Hdyn, isDynamic_ne_button in Hd.
Qed.

Lemma layout_split seeds dyn :
  layout seeds dyn = (seeds ++ [stackDataWidget] ++ dyn) ++ addLoraButton :: [addGroupButton].
Proof. unfold layout. by rewrite <- !app_assoc. Qed.

Lemma placeAllIn_layout seeds dyn cs :
  isSeeds seeds → Forall isDynamic dyn → Forall isDynamic cs →
  placeAllIn (layout seeds dyn) cs = layout seeds (dyn ++ cs).
Proof.
  intros Hseeds Hdyn Hcs. rewrite layout_split, placeAllIn_before.
  - unfold layout. by rewrite <- !app_assoc.
  - by apply layout_button_notin.
  - eapply Forall_impl; [done|]. apply isDynamic_ne_button.
Qed.

Lemma seedOf_dynamic dyn : Forall isDynamic dyn → seedOf dyn = None.
Proof.
  induction 1 as [|w dyn Hw _ IH]; [done|]. rewrite seedOf_cons.
  destruct Hw as [Hw _]. by case_decide.
Qed.

Lemma seedOf_app_None a b : seedOf a = None → seedOf (a ++ b) = seedOf b.
Proof.
  induction a as [|x a IH]; [done|]. cbn [app]. rewrite !seedOf_cons.
  by case_decide.
Qed.

Lemma keepWidgets_layout seeds dyn :
  isSeeds seeds → Forall isDynamic dyn →
  keepWidgets (layout seeds dyn) = layout seeds [].
Proof.
  intros Hseeds Hdyn. rewrite keepWidgets_seedOf.
  assert (seedOf ([stackDataWidget] ++ dyn ++ [addLoraButton; addGroupButton]) = None)
    as Hrest.
  { cbn [app]. rewrite seedOf_cons. case_decide; [done|].
    rewrite seedOf_app_None by by apply seedOf_dynamic. done. }
  unfold layout. destruct Hseeds as [->|(s & -> & Hn & _)].
  - cbn [app] in *. by rewrite Hrest.
  - cbn [app]. rewrite seedOf_cons. by case_decide.
Qed.

Lemma filter_none {A} (P : A → Prop) `{!∀ x, Decision (P x)} (l : list A) :
  (∀ x, x ∈ l → ¬ P x) → filter P l = [].
Proof.
  induction l as [|x l IH]; [done|]. intros Hl.
  rewrite filter_cons_False by (apply Hl; by left).
  apply IH. intros y Hy. apply Hl. by right.
Qed.

Lemma filter_layout seeds dyn :
  isSeeds seeds → Forall isDynamic dyn →
  filter (λ w, w ∈ keepWidgets (layout seeds dyn)) (layout seeds dyn) = layout seeds [].
Proof.
  intros Hseeds Hdyn.
  assert (∀ w, w ∈ dyn → w ∉ keepWidgets (layout seeds dyn)) as Hout.
  { intros w Hw. apply isDynamic_not_kept. rewrite Forall_forall in Hdyn. auto. }
  assert (∀ w, w ∈ layout seeds [] → w ∈ keepWidgets (layout seeds dyn)) as Hin.
  { intros w Hw. by rewrite keepWidgets_layout. }
  unfold layout at 2 3. rewrite !filter_app.
  rewrite (filter_all _ seeds).
  2:{ intros w Hw. apply Hin. unfold layout. rewrite elem_of_app. by left. }
  rewrite (filter_all _ [stackDataWidget]).
  2:{ intros w Hw. apply Hin. unfold layout. rewrite !elem_of_app. right. by left. }
  rewrite (filter_none _ dyn) by done.
  rewrite (filter_all _ [addLoraButton; addGroupButton]); [done|].
  intros w Hw. apply Hin. unfold layout. rewrite !elem_of_app. right. right. by right.
Qed.

(** X10.  [clearDynamicWidgets] is a filter: it keeps the permanent controls in
    their order, drops every other control, and clearing again changes
    nothing. *)
Theorem clearDynamicWidgets_idempotent (n : Node.t) :
  clearDynamicWidgets (clearDynamicWidgets n) = clearDynamicWidgets n
  ∧ (∀ w, w ∈ Node.widgets (clearDynamicWidgets n)
          ↔ w ∈ Node.widgets n ∧ w ∈ keepWidgets (Node.widgets n))
  ∧ Node.widgets (clearDynamicWidgets n) `sublist_of` Node.widgets n.
Proof.
  split; [|split].
  - destruct n as [i S ng nl cg ws sd sv sz st].
    unfold clearDynamicWidgets, Node.set_widgets. cbn. f_equal.
    assert (keepWidgets (filter (λ w, w ∈ keepWidgets ws) ws) = keepWidgets ws) as ->.
    { rewrite (keepWidgets_seedOf (filter _ _)), seedOf_filter by apply keepWidgets_seed.
      by rewrite <- keepWidgets_seedOf. }
    apply filter_all. intros w Hw. by apply list_elem_of_filter in Hw as [? _].
  - intros w. unfold clearDynamicWidgets. cbn. rewrite list_elem_of_filter. tauto.
  - unfold clearDynamicWidgets. cbn. apply sublist_filter.
Qed.

(** X11.  On a well laid out control list [clearDynamicWidgets] leaves exactly the
    seed control (if any), the document field and the two action buttons. *)
Theorem clearDynamicWidgets_layout (n : Node.t) (seeds dyn : list Widget.t) :
  Node.widgets n = layout seeds dyn → isSeeds seeds → Forall isDynamic dyn →
  Node.widgets (clearDynamicWidgets n) = layout seeds [].
Proof.
  intros Hws Hseeds Hdyn. unfold clearDynamicWidgets.
  cbn [Node.widgets Node.set_widgets]. rewrite Hws. by apply filter_layout.
Qed.

Lemma rebuiltWidgets_layout collapsed state seeds dyn :
  isSeeds seeds → Forall isDynamic dyn →
  rebuiltWidgets collapsed state (layout seeds dyn)
  = layout seeds (rebuildCreated collapsed state).
Proof.
  intros Hseeds Hdyn. unfold rebuiltWidgets.
  rewrite filter_layout by done.
  rewrite placeAllIn_layout; [done|done|apply Forall_nil_2|apply rebuildCreated_dynamic].
Qed.

(** X12.  The control list after a rebuild, in full: the permanent controls, then,
    for each group in display order, its five controls followed by the
    controls of its items, then the controls of the ungrouped items, then the
    two action buttons.  Nothing of the former dynamic controls is left. *)
Theorem rebuildUI_layout (n : Node.t) (seeds dyn : list Widget.t) :
  Node.widgets n = layout seeds dyn → isSeeds seeds → Forall isDynamic dyn →
  Node.widgets (rebuildUI n)
  = layout seeds (rebuildCreated (Node.collapsedGroups n) (Node.loraState n)).
Proof.
  intros Hws Hseeds Hdyn. rewrite rebuildUI_widgets, Hws.
  by apply rebuiltWidgets_layout.
Qed.

Lemma saveState_widgets n : Node.widgets (saveState n) = Node.widgets n.
Proof. apply saveState_frame. Qed.

Lemma setSize_widgets sz n : Node.widgets (setSize sz n) = Node.widgets n.
Proof. done. Qed.

Lemma createGroupWidgets_widgets groupId groupData n :
  Node.widgets (createGroupWidgets groupId groupData n)
  = placeAllIn (Node.widgets n)
      (groupWidgets (bool_decide (groupId ∈ Node.collapsedGroups n)) groupId groupData).
Proof. unfold createGroupWidgets. by rewrite placeAll_widgets. Qed.

Lemma createLoraWidgets_widgets loraId groupId loraData n :
  Node.widgets (createLoraWidgets loraId groupId loraData n)
  = placeAllIn (Node.widgets n) (loraWidgets loraId groupId loraData).
Proof. unfold createLoraWidgets. by rewrite placeAll_widgets. Qed.

Lemma addLora_widgets groupId n :
  Node.widgets (addLora groupId n)
  = placeAllIn (Node.widgets n)
      (loraWidgets (Node.nextLoraId n) groupId
         (Lora.mk (Node.nextLoraId n) groupId
            match groupId with None => ungroupedDefaults | Some _ => groupedDefaults end)).
Proof.
  unfold addLora. cbv zeta.
  by rewrite setSize_widgets, saveState_widgets, createLoraWidgets_widgets.
Qed.

Lemma addGroup_widgets n :
  Node.widgets (addGroup n)
  = placeAllIn (Node.widgets n)
      (groupWidgets (bool_decide (Node.nextGroupId n ∈ Node.collapsedGroups n))
         (Node.nextGroupId n)
         (Group.mk (Node.nextGroupId n)
            (Z.of_nat (length (groups (Node.loraState n))) + 1) 1%Q 1%Q)).
Proof.
  unfold addGroup. cbv zeta.
  by rewrite setSize_widgets, saveState_widgets, createGroupWidgets_widgets.
Qed.

(** X13.  In-place additions: [addLora] and [addGroup] put the controls of the new
    item or group at the end of the dynamic controls, right in front of the
    action buttons; a grouped item's controls do not go next to the controls
    of its group.  The controls already there are left as they are. *)
Theorem additions_layout (n : Node.t) (seeds dyn : list Widget.t) :
  Node.widgets n = layout seeds dyn → isSeeds seeds → Forall isDynamic dyn →
  (∀ groupId,
     Node.widgets (addLora groupId n)
     = layout seeds
         (dyn ++ loraWidgets (Node.nextLoraId n) groupId
                   (Lora.mk (Node.nextLoraId n) groupId
                      match groupId with
                      | None => ungroupedDefaults
                      | Some _ => groupedDefaults
                      end)))
  ∧ Node.widgets (addGroup n)
    = layout seeds
        (dyn ++ groupWidgets (bool_decide (Node.nextGroupId n ∈ Node.collapsedGroups n))
                  (Node.nextGroupId n)
                  (Group.mk (Node.nextGroupId n)
                     (Z.of_nat (length (groups (Node.loraState n))) + 1) 1%Q 1%Q)).
Proof.
  intros Hws Hseeds Hdyn. split.
  - intros groupId. rewrite addLora_widgets, Hws.
    apply placeAllIn_layout; [done..|apply loraWidgets_dynamic].
  - rewrite addGroup_widgets, Hws.
    apply placeAllIn_layout; [done..|apply groupWidgets_dynamic].
Qed.

Lemma isSeeds_seedWidget : isSeeds [seedWidget].
Proof. right. by exists seedWidget. Qed.

Lemma clearDynamicWidgets_layout_witness :
  Node.widgets (clearDynamicWidgets exampleNode) = layout [seedWidget] [].
Proof.
  apply (clearDynamicWidgets_layout exampleNode [seedWidget]
           (dynamicOf (Node.widgets exampleNode))).
  - vm_compute. reflexivity.
  - right. exists seedWidget. repeat split; reflexivity.
  - decide_by_evaluation.
Defined.

Lemma rebuildUI_layout_witness :
  Node.widgets (rebuildUI exampleNode)
  = layout [seedWidget]
      (rebuildCreated (Node.collapsedGroups exampleNode) (Node.loraState exampleNode)).
Proof.
  apply (rebuildUI_layout exampleNode [seedWidget] (dynamicOf (Node.widgets exampleNode))).
  - vm_compute. reflexivity.
  - right. exists seedWidget. repeat split; reflexivity.
  - decide_by_evaluation.
Defined.

Lemma additions_layout_witness :
  Node.widgets (addGroup exampleNode)
  = layout [seedWidget]
      (dynamicOf (Node.widgets exampleNode)
       ++ groupWidgets
            (bool_decide (Node.nextGroupId exampleNode ∈ Node.collapsedGroups exampleNode))
            (Node.nextGroupId exampleNode)
            (Group.mk (Node.nextGroupId exampleNode)
               (Z.of_nat (length (groups (Node.loraState exampleNode))) + 1) 1%Q 1%Q)).
Proof.
  apply (additions_layout exampleNode [seedWidget] (dynamicOf (Node.widgets exampleNode))).
  - vm_compute. reflexivity.
  - right. exists seedWidget. repeat split; reflexivity.
  - decide_by_evaluation.
Defined.


(** * What a rebuild leaves alone *)

Lemma updateLoraIds_fields v l : sameLoraFields l (updateLoraIds v l).
Proof. unfold sameLoraFields. by rewrite updateLoraIds_props. Qed.

(** X14.  A rebuild never adds, drops or reorders groups or items and never
    changes a field other than the ids, whatever the snapshot.  An item whose
    [group_id] is null keeps it null, and an item whose [group_id] is a
    number other than 0 keeps a number other than 0.  The rebuild writes
    neither the document field nor the backup cache, keeps the collapse set,
    and leaves the node with the size computed from the new control list. *)
Theorem rebuildUI_keeps_data (n : Node.t) :
  Forall2 sameGroupFields
    (groups (Node.loraState n)) (groups (Node.loraState (rebuildUI n)))
  ∧ Forall2 sameLoraFields
      (loras (Node.loraState n)) (loras (Node.loraState (rebuildUI n)))
  ∧ (∀ p l l',
       loras (Node.loraState n) !! p = Some l →
       loras (Node.loraState (rebuildUI n)) !! p = Some l' →
       (Lora.group_id l = None → Lora.group_id l' = None)
       ∧ (∀ z, Lora.group_id l = Some z → z ≠ 0 →
            ∃ z', Lora.group_id l' = Some z' ∧ z' ≠ 0))
  ∧ Node.stack_data (rebuildUI n) = Node.stack_data n
  ∧ Node.localStorage (rebuildUI n) = Node.localStorage n
  ∧ Node.collapsedGroups (rebuildUI n) = Node.collapsedGroups n
  ∧ Node.size (rebuildUI n) = computeSize (rebuildUI n).
Proof.
  rewrite rebuildUI_loraState.
  destruct (rebuildUI_frame n) as (_ & Hcg & Hsd & _ & Hst).
  split; [|split; [|split; [|split; [done|split; [done|split; [done|]]]]]].
  - unfold renumber. cbn [groups]. apply Forall2_fmap_r, Forall_Forall2_diag, Forall_forall.
    intros g _. apply updateGroupId_fields.
  - unfold renumber. cbn [loras]. apply Forall2_fmap_r, Forall_Forall2_diag, Forall_forall.
    intros l _. apply updateLoraIds_fields.
  - intros p l l' Hl Hl'. unfold renumber in Hl'. cbn [loras] in Hl'.
    rewrite list_lookup_fmap, Hl in Hl'. injection Hl' as <-. split.
    + intros Hnull. apply updateLoraIds_ungrouped. unfold isUngrouped. by rewrite Hnull.
    + intros z Hz Hne.
      destruct (isUngrouped_cases (updateLoraIds (rebuildVars (Node.loraState n)) l))
        as [Hu|Hgrouped]; [|exact Hgrouped].
      apply updateLoraIds_isUngrouped in Hu. by apply (isUngrouped_not_Some l z) in Hu.
  - by rewrite rebuildUI_unfold.
Qed.

(** * Collapsing and expanding *)

Lemma toggleGroupCollapse_unfold g n :
  toggleGroupCollapse g n
  = rebuildUI
      (Node.set_collapsedGroups
         (if bool_decide (g ∈ Node.collapsedGroups n)
          then Node.collapsedGroups n ∖ {[g]}
          else Node.collapsedGroups n ∪ {[g]}) n).
Proof. unfold toggleGroupCollapse. by case_bool_decide. Qed.

Lemma toggle_back (g : Z) (c : gset Z) :
  let c' := if bool_decide (g ∈ c) then c ∖ {[g]} else c ∪ {[g]} in
  (if bool_decide (g ∈ c') then c' ∖ {[g]} else c' ∪ {[g]}) = c.
Proof.
  cbv zeta. destruct (decide (g ∈ c)) as [Hg|Hg].
  - rewrite (bool_decide_eq_true_2 (g ∈ c)) by done.
    rewrite bool_decide_eq_false_2.
    2:{ rewrite elem_of_difference, elem_of_singleton. tauto. }
    apply set_eq. intros x. rewrite elem_of_union, elem_of_difference, elem_of_singleton.
    destruct (decide (x = g)) as [->|]; tauto.
  - rewrite (bool_decide_eq_false_2 (g ∈ c)) by done.
    rewrite bool_decide_eq_true_2.
    2:{ rewrite elem_of_union, elem_of_singleton. tauto. }
    apply set_eq. intros x. rewrite elem_of_difference, elem_of_union, elem_of_singleton.
    destruct (decide (x = g)) as [->|]; tauto.
Qed.

Lemma rebuildUI_collapse_twice n c1 c2 :
  refsResolve (Node.loraState n) → groupIdsTruthy (Node.loraState n) →
  rebuildUI (Node.set_collapsedGroups c2 (rebuildUI (Node.set_collapsedGroups c1 n)))
  = rebuildUI (Node.set_collapsedGroups c2 n).
Proof.
  intros Hrefs Htruthy.
  rewrite (rebuildUI_unfold (Node.set_collapsedGroups c2 (rebuildUI _))).
  rewrite (rebuildUI_unfold (Node.set_collapsedGroups c2 n)).
  destruct (rebuildUI_frame (Node.set_collapsedGroups c1 n)) as (Hid & _ & Hsd & Hsv & Hst).
  cbv zeta.
  change (Node.loraState (Node.set_collapsedGroups c2 ?m)) with (Node.loraState m).
  change (Node.widgets (Node.set_collapsedGroups c2 ?m)) with (Node.widgets m).
  change (Node.collapsedGroups (Node.set_collapsedGroups c2 ?m)) with c2.
  change (Node.id (Node.set_collapsedGroups c2 ?m)) with (Node.id m).
  change (Node.stack_data (Node.set_collapsedGroups c2 ?m)) with (Node.stack_data m).
  change (Node._saving (Node.set_collapsedGroups c2 ?m)) with (Node._saving m).
  change (Node.size (Node.set_collapsedGroups c2 ?m)) with (Node.size m).
  change (Node.localStorage (Node.set_collapsedGroups c2 ?m)) with (Node.localStorage m).
  rewrite Hid, Hsd, Hsv, Hst.
  rewrite rebuildUI_loraState, rebuildUI_widgets.
  change (Node.loraState (Node.set_collapsedGroups c1 n)) with (Node.loraState n).
  change (Node.widgets (Node.set_collapsedGroups c1 n)) with (Node.widgets n).
  change (Node.collapsedGroups (Node.set_collapsedGroups c1 n)) with c1.
  change (Node.id (Node.set_collapsedGroups c1 n)) with (Node.id n).
  change (Node.stack_data (Node.set_collapsedGroups c1 n)) with (Node.stack_data n).
  change (Node._saving (Node.set_collapsedGroups c1 n)) with (Node._saving n).
  change (Node.localStorage (Node.set_collapsedGroups c1 n)) with (Node.localStorage n).
  rewrite renumber_twice, buildOrder_renumber, length_fmap by done.
  assert (groups (renumber (Node.loraState n))
          = updateGroupId (rebuildVars (Node.loraState n)) <$> groups (Node.loraState n))
    as -> by done.
  rewrite length_fmap.
  assert (rebuiltWidgets c2 (renumber (Node.loraState n))
            (rebuiltWidgets c1 (Node.loraState n) (Node.widgets n))
          = rebuiltWidgets c2 (Node.loraState n) (Node.widgets n)) as ->.
  { unfold rebuiltWidgets at 1. rewrite rebuildCreated_renumber by done.
    unfold rebuiltWidgets at 1 2. by rewrite clear_placed by apply rebuildCreated_dynamic. }
  unfold setSize, computeSize, Node.set_size. cbn. reflexivity.
Qed.

(** X15.  Toggling the collapse state of a group twice brings the node to the
    state a plain rebuild gives: the collapse set is the original one, and
    the controls, the snapshot, the counters and the size are those of
    [rebuildUI]. *)
Theorem toggle_twice (n : Node.t) (g : Z) :
  refsResolve (Node.loraState n) → groupIdsTruthy (Node.loraState n) →
  toggleGroupCollapse g (toggleGroupCollapse g n) = rebuildUI n.
Proof.
  intros Hrefs Htruthy.
  rewrite (toggleGroupCollapse_unfold g (toggleGroupCollapse g n)).
  rewrite (toggleGroupCollapse_unfold g n).
  destruct (rebuildUI_frame (Node.set_collapsedGroups
              (if bool_decide (g ∈ Node.collapsedGroups n)
               then Node.collapsedGroups n ∖ {[g]}
               else Node.collapsedGroups n ∪ {[g]}) n)) as (_ & -> & _).
  change (Node.collapsedGroups (Node.set_collapsedGroups ?c n)) with c.
  rewrite (toggle_back g (Node.collapsedGroups n)).
  rewrite rebuildUI_collapse_twice by done.
  by destruct n.
Qed.

Lemma toggle_twice_witness :
  toggleGroupCollapse 1 (toggleGroupCollapse 1 exampleNode) = rebuildUI exampleNode.
Proof. apply (toggle_twice exampleNode 1); decide_by_evaluation. Defined.

(** ** Size *)

Lemma foldl_height_shift h ws :
  foldl (λ h w, h + widgetHeight w) h ws = h + heightOf ws.
Proof.
  unfold heightOf. revert h. induction ws as [|w ws IH]; intros h; cbn [foldl]; [lia|].
  rewrite IH, (IH (0 + _)). lia.
Qed.

Lemma computeSize_heightOf n :
  computeSize n = (450, Z.max 140 (60 + heightOf (Node.widgets n))).
Proof. unfold computeSize. by rewrite foldl_height_shift. Qed.

Lemma heightOf_cons w ws : heightOf (w :: ws) = widgetHeight w + heightOf ws.
Proof. unfold heightOf at 1. cbn [foldl]. rewrite foldl_height_shift. lia. Qed.

Lemma heightOf_app a b : heightOf (a ++ b) = heightOf a + heightOf b.
Proof.
  induction a as [|w a IH]; cbn [app]; [done|]. rewrite !heightOf_cons, IH. lia.
Qed.

Lemma heightOf_placeIn w ws : heightOf (placeIn w ws) = heightOf ws + widgetHeight w.
Proof.
  destruct (placeIn_split w ws) as (a & b & -> & ->).
  rewrite !heightOf_app, heightOf_cons. lia.
Qed.

Lemma heightOf_placeAllIn ws cs : heightOf (placeAllIn ws cs) = heightOf ws + heightOf cs.
Proof.
  revert ws. induction cs as [|c cs IH]; intros ws.
  - unfold placeAllIn. cbn [foldl]. change (heightOf []) with 0. lia.
  - unfold placeAllIn in *. cbn [foldl]. rewrite IH, heightOf_placeIn, heightOf_cons. lia.
Qed.

Lemma heightOf_const cs :
  (∀ w, w ∈ cs → widgetHeight w = 30) → heightOf cs = 30 * Z.of_nat (length cs).
Proof.
  induction cs as [|c cs IH]; intros Hcs; [done|].
  rewrite heightOf_cons, Hcs, IH by (try intros w Hw; try apply Hcs; by constructor).
  cbn [length]. lia.
Qed.

Lemma groupsCreated_length c c' state gs nextGroup nextLora :
  length (groupsCreated c state gs nextGroup nextLora)
  = length (groupsCreated c' state gs nextGroup nextLora).
Proof.
  revert nextGroup nextLora. induction gs as [|g gs IH]; intros nextGroup nextLora; [done|].
  cbn [groupsCreated]. rewrite !length_app. by rewrite (IH _ _).
Qed.

Lemma rebuildCreated_length c c' state :
  length (rebuildCreated c state) = length (rebuildCreated c' state).
Proof.
  unfold rebuildCreated. rewrite !length_app. by rewrite (groupsCreated_length c c').
Qed.

Lemma rebuiltWidgets_height collapsed state ws :
  heightOf (rebuiltWidgets collapsed state ws)
  = heightOf (filter (λ w, w ∈ keepWidgets ws) ws)
    + 30 * Z.of_nat (length (rebuildCreated collapsed state)).
Proof.
  unfold rebuiltWidgets.
  rewrite heightOf_placeAllIn, (heightOf_const (rebuildCreated _ _)); [done|].
  intros w. apply rebuildCreated_height.
Qed.

(** X16.  The size after a rebuild: the width is 450 and the height is 60 plus
    the heights of the permanent controls plus 30 for every control the
    rebuild creates, and at least 140.  The collapse set does not enter: a
    control of a collapsed group counts like any other. *)
Theorem rebuildUI_size (n : Node.t) :
  Node.size (rebuildUI n)
  = (450,
     Z.max 140
       (60 + heightOf (Node.widgets (clearDynamicWidgets n))
        + 30 * Z.of_nat
                 (length (rebuildCreated (Node.collapsedGroups n) (Node.loraState n))))).
Proof.
  rewrite rebuildUI_unfold. cbv zeta. unfold setSize, Node.set_size. cbn [Node.size].
  rewrite computeSize_heightOf. cbn [Node.widgets].
  rewrite rebuiltWidgets_height.
  unfold clearDynamicWidgets. cbn [Node.widgets Node.set_widgets].
  do 2 f_equal. lia.
Qed.

Lemma rebuildUI_size_indep n c :
  Node.size (rebuildUI (Node.set_collapsedGroups c n)) = Node.size (rebuildUI n).
Proof.
  rewrite !rebuildUI_unfold. cbv zeta. unfold setSize, Node.set_size. cbn [Node.size].
  rewrite !computeSize_heightOf. cbn [Node.widgets Node.collapsedGroups Node.loraState
    Node.set_collapsedGroups].
  rewrite !rebuiltWidgets_height.
  by rewrite (rebuildCreated_length c (Node.collapsedGroups n)).
Qed.

(** X17.  Collapsing or expanding a group flips the membership of its id in the
    collapse set and rebuilds; apart from the header label it has the effect
    of a plain rebuild: the same snapshot, the same counters and the same
    node size.  It does not save: the document field and the backup cache
    stay as they were. *)
Theorem toggle_like_rebuild (g : Z) (n : Node.t) :
  (g ∈ Node.collapsedGroups (toggleGroupCollapse g n) ↔ g ∉ Node.collapsedGroups n)
  ∧ (∀ g', g' ≠ g →
       g' ∈ Node.collapsedGroups (toggleGroupCollapse g n) ↔ g' ∈ Node.collapsedGroups n)
  ∧ Node.loraState (toggleGroupCollapse g n) = Node.loraState (rebuildUI n)
  ∧ Node.nextGroupId (toggleGroupCollapse g n) = Node.nextGroupId (rebuildUI n)
  ∧ Node.nextLoraId (toggleGroupCollapse g n) = Node.nextLoraId (rebuildUI n)
  ∧ Node.size (toggleGroupCollapse g n) = Node.size (rebuildUI n)
  ∧ Node.stack_data (toggleGroupCollapse g n) = Node.stack_data n
  ∧ Node.localStorage (toggleGroupCollapse g n) = Node.localStorage n.
Proof.
  rewrite toggleGroupCollapse_unfold.
  set (c := if bool_decide (g ∈ Node.collapsedGroups n)
            then Node.collapsedGroups n ∖ {[g]} else Node.collapsedGroups n ∪ {[g]}).
  destruct (rebuildUI_frame (Node.set_collapsedGroups c n)) as (_ & Hcg & Hsd & _ & Hst).
  rewrite Hcg, Hsd, Hst, rebuildUI_size_indep.
  rewrite !rebuildUI_loraState, !rebuildUI_nextGroupId, !rebuildUI_nextLoraId.
  change (Node.collapsedGroups (Node.set_collapsedGroups c n)) with c.
  split; [|split; [|done]].
  - subst c. case_bool_decide as Hg.
    + rewrite elem_of_difference, elem_of_singleton. tauto.
    + rewrite elem_of_union, elem_of_singleton. tauto.
  - intros g' Hne. subst c. case_bool_decide as Hg.
    + rewrite elem_of_difference, elem_of_singleton. tauto.
    + rewrite elem_of_union, elem_of_singleton. tauto.
Qed.

Lemma rebuildUI_keeps_data_witness :
  ∃ z', Lora.group_id (Lora.mk 1 (Some 1) groupedDefaults) = Some z' ∧ z' ≠ 0.
Proof.
  apply (proj2 (proj1 (proj2 (proj2 (rebuildUI_keeps_data mixedNode))) 1%nat
                 (Lora.mk 2 (Some 1) groupedDefaults) (Lora.mk 1 (Some 1) groupedDefaults)
                 ltac:(vm_compute; reflexivity) ltac:(vm_compute; reflexivity)) 1);
    [reflexivity|discriminate].
Defined.

Lemma toggle_like_rebuild_witness :
  2 ∈ Node.collapsedGroups (toggleGroupCollapse 1 exampleNode)
  ↔ 2 ∈ Node.collapsedGroups exampleNode.
Proof.
  apply (proj1 (proj2 (toggle_like_rebuild 1 exampleNode)) 2). discriminate.
Defined.


(** * The numbering a rebuild leaves behind *)

Lemma renumber_group_ids state :
  NoDup (Group.id <$> groups state) →
  Group.id <$> groups (renumber state) = seqZ 1 (Z.of_nat (length (groups state))).
Proof.
  intros Hgs. unfold renumber. cbn [groups].
  rewrite <- list_fmap_compose, <- (length_fmap Group.id).
  rewrite (fmap_eq_seqZ _ _ 1); [by rewrite !length_fmap|].
  intros j g Hg. unfold compose.
  apply updateGroupId_Some; [|lia].
  unfold rebuildVars. cbn [groupIdMap].
  by apply numberIds_NoDup; [|rewrite list_lookup_fmap, Hg].
Qed.

Lemma renumber_buildOrder_ids state :
  wellFormed state →
  Lora.id <$> buildOrder (renumber state) = seqZ 1 (Z.of_nat (length (loras state))).
Proof.
  intros (Hrefs & Htruthy & Hgs & Hls).
  pose proof (buildOrder_Permutation state Hrefs Htruthy Hgs) as Hperm.
  assert (length (buildOrder state) = length (loras state)) as Hlen
    by by apply Permutation_length.
  rewrite buildOrder_renumber by done.
  rewrite <- list_fmap_compose, <- Hlen.
  apply fmap_eq_seqZ. intros k l Hl. unfold compose.
  apply updateLoraIds_id_Some; [|lia].
  unfold rebuildVars. cbn [loraIdMap].
  apply numberIds_NoDup; [by rewrite Hperm|by rewrite list_lookup_fmap, Hl].
Qed.

Lemma renumber_truthy state : groupIdsTruthy (renumber state).
Proof.
  intros g' Hg'. unfold renumber in Hg'. cbn [groups] in Hg'.
  apply list_elem_of_fmap in Hg' as (g & -> & Hg).
  destruct (groupIdMap_in state g Hg) as (i & Hi & Hpos).
  rewrite (updateGroupId_Some _ _ i); [lia|done|lia].
Qed.

Lemma renumber_refsResolve state :
  refsResolve state → groupIdsTruthy state → refsResolve (renumber state).
Proof.
  intros Hrefs Htruthy l' Hl'. unfold renumber in Hl'. cbn [loras] in Hl'.
  apply list_elem_of_fmap in Hl' as (l & -> & Hl).
  destruct (Hrefs l Hl) as [Hu|(g & Hg & Hmem)].
  - left. by apply updateLoraIds_isUngrouped.
  - right. exists (updateGroupId (rebuildVars state) g). split.
    + unfold renumber. cbn [groups]. by apply list_elem_of_fmap_2.
    + apply updateLoraIds_member; [by apply Hrefs|done|by apply Htruthy|done].
Qed.

Lemma renumber_groups_length state :
  length (groups (renumber state)) = length (groups state).
Proof. unfold renumber. cbn [groups]. by rewrite length_fmap. Qed.

Lemma renumber_loras_length state :
  length (loras (renumber state)) = length (loras state).
Proof. unfold renumber. cbn [loras]. by rewrite length_fmap. Qed.

Lemma renumber_lora_ids state :
  wellFormed state →
  Lora.id <$> loras (renumber state) ≡ₚ seqZ 1 (Z.of_nat (length (loras state))).
Proof.
  intros Hwf. pose proof Hwf as (Hrefs & Htruthy & Hgs & Hls).
  rewrite <- renumber_buildOrder_ids by done.
  apply fmap_Permutation. symmetry. apply buildOrder_Permutation.
  - by apply renumber_refsResolve.
  - apply renumber_truthy.
  - rewrite renumber_group_ids by done. apply NoDup_seqZ.
Qed.

Lemma renumber_indexed state : indexed state → indexed (renumber state).
Proof.
  unfold indexed. rewrite renumber_groups_length. intros <-.
  unfold renumber. cbn [groups]. rewrite <- list_fmap_compose.
  apply list_fmap_ext. intros j g _. unfold compose.
  by destruct (updateGroupId_fields (rebuildVars state) g) as (<- & _).
Qed.

(** A rebuild of a well formed snapshot gives a well formed snapshot. *)
Lemma renumber_wellFormed state : wellFormed state → wellFormed (renumber state).
Proof.
  intros Hwf. pose proof Hwf as (Hrefs & Htruthy & Hgs & Hls).
  split; [by apply renumber_refsResolve|]. split; [apply renumber_truthy|]. split.
  - rewrite renumber_group_ids by done. apply NoDup_seqZ.
  - rewrite renumber_lora_ids by done. apply NoDup_seqZ.
Qed.

(** ** The targets of the created controls *)

Lemma groupWidgets_target collapsed j g ng nl w :
  1 ≤ j < ng → w ∈ groupWidgets collapsed j g → targetBelow ng nl (Widget.callback w).
Proof.
  intros Hj Hw. unfold groupWidgets in Hw.
  repeat (apply elem_of_cons in Hw as [->|Hw]; [done|]).
  by apply elem_of_nil in Hw.
Qed.

Lemma loraWidgets_target k newGroupId l ng nl w :
  1 ≤ k < nl → w ∈ loraWidgets k newGroupId l → targetBelow ng nl (Widget.callback w).
Proof.
  intros Hk Hw.
  unfold loraWidgets, groupedLoraControls, ungroupedLoraControls in Hw.
  split_controls Hw; done.
Qed.

Lemma lorasCreated_target newGroupId ls next ng nl w :
  1 ≤ next → next + Z.of_nat (length ls) ≤ nl →
  w ∈ lorasCreated newGroupId ls next → targetBelow ng nl (Widget.callback w).
Proof.
  revert next. induction ls as [|l ls IH]; intros next Hlo Hhi; cbn [lorasCreated].
  - by intros ?%elem_of_nil.
  - cbn [length] in Hhi. intros [Hw|Hw]%elem_of_app.
    + eapply loraWidgets_target; [|done]. lia.
    + apply (IH (next + 1)); [lia|lia|done].
Qed.

Lemma groupsCreated_target collapsed state gs nextGroup nextLora ng nl w :
  1 ≤ nextGroup → nextGroup + Z.of_nat (length gs) ≤ ng →
  1 ≤ nextLora → nextLora + Z.of_nat (length (groupedOrder state gs)) ≤ nl →
  w ∈ groupsCreated collapsed state gs nextGroup nextLora →
  targetBelow ng nl (Widget.callback w).
Proof.
  revert nextGroup nextLora.
  induction gs as [|g gs IH]; intros nextGroup nextLora Hg1 Hg2 Hl1 Hl2;
    cbn [groupsCreated].
  - by intros ?%elem_of_nil.
  - unfold groupedOrder in Hl2. rewrite bind_cons, length_app in Hl2.
    fold (groupedOrder state gs) in Hl2. cbn [length] in Hg2.
    intros [Hw|[Hw|Hw]%elem_of_app]%elem_of_app.
    + eapply groupWidgets_target; [|done]. lia.
    + eapply lorasCreated_target; [| |done]; lia.
    + eapply IH; [| | | |done]; lia.
Qed.

Lemma rebuildCreated_target collapsed state w :
  w ∈ rebuildCreated collapsed state →
  targetBelow (1 + Z.of_nat (length (groups state)))
    (1 + Z.of_nat (length (buildOrder state))) (Widget.callback w).
Proof.
  unfold rebuildCreated, buildOrder. rewrite length_app.
  intros [Hw|Hw]%elem_of_app.
  - eapply groupsCreated_target; [| | | |done]; lia.
  - eapply lorasCreated_target; [| |done]; lia.
Qed.

Lemma targetBelow_exists state cb :
  Group.id <$> groups state = seqZ 1 (Z.of_nat (length (groups state))) →
  Lora.id <$> loras state ≡ₚ seqZ 1 (Z.of_nat (length (loras state))) →
  targetBelow (1 + Z.of_nat (length (groups state)))
    (1 + Z.of_nat (length (loras state))) cb →
  targetExists state cb.
Proof.
  intros Hgs Hls.
  assert (∀ g, 1 ≤ g < 1 + Z.of_nat (length (groups state)) →
               g ∈ Group.id <$> groups state) as Hg.
  { intros g Hg. rewrite Hgs. apply elem_of_seqZ. lia. }
  assert (∀ i, 1 ≤ i < 1 + Z.of_nat (length (loras state)) →
               i ∈ Lora.id <$> loras state) as Hl.
  { intros i Hi. rewrite Hls. apply elem_of_seqZ. lia. }
  destruct cb as [|[g|]| |g|g|i|g field|i key]; cbn; auto.
Qed.

(** ** Consistency *)

Lemma elem_of_layout seeds dyn w :
  w ∈ layout seeds dyn
  ↔ w ∈ seeds ∨ w = stackDataWidget ∨ w ∈ dyn ∨ w = addLoraButton ∨ w = addGroupButton.
Proof.
  unfold layout. rewrite !elem_of_app, !elem_of_cons, !elem_of_nil. tauto.
Qed.

Lemma rebuildUI_consistent n :
  laidOut (Node.widgets n) → wellFormed (Node.loraState n) →
  indexed (Node.loraState n) → Node._saving n = false →
  consistent (rebuildUI n).
Proof.
  intros (seeds & dyn & Hws & Hseeds & Hdyn) Hwf Hidx Hsv.
  pose proof Hwf as (Hrefs & Htruthy & Hgs & Hls).
  pose proof (buildOrder_Permutation _ Hrefs Htruthy Hgs) as Hperm.
  apply Permutation_length in Hperm.
  assert (Node.widgets (rebuildUI n)
          = layout seeds (rebuildCreated (Node.collapsedGroups n) (Node.loraState n)))
    as Hlay.
  { rewrite rebuildUI_widgets, Hws. by apply rebuiltWidgets_layout. }
  assert (denselyNumbered (rebuildUI n)) as Hdense.
  { unfold denselyNumbered. cbv zeta.
    rewrite rebuildUI_loraState, rebuildUI_nextGroupId, rebuildUI_nextLoraId.
    rewrite renumber_groups_length, renumber_loras_length, Hperm.
    split; [by apply renumber_group_ids|]. split; [done|].
    split; [by apply renumber_lora_ids|done]. }
  split; [|split; [|split; [|split; [done|split]]]].
  - exists seeds, (rebuildCreated (Node.collapsedGroups n) (Node.loraState n)).
    split; [done|]. split; [done|]. apply rebuildCreated_dynamic.
  - rewrite rebuildUI_loraState. by apply renumber_refsResolve.
  - rewrite rebuildUI_loraState. by apply renumber_indexed.
  - intros w Hw. rewrite Hlay in Hw.
    apply elem_of_layout in Hw as [Hw|[-> |[Hw|[-> | ->]]]]; [|done| |done|done].
    + apply (isSeeds_elem _ _ Hseeds) in Hw as [_ ->]. done.
    + destruct Hdense as (Hd1 & _ & Hd3 & _).
      apply targetBelow_exists; [done|done|].
      rewrite rebuildUI_loraState, renumber_groups_length, renumber_loras_length, <- Hperm.
      by apply rebuildCreated_target in Hw.
  - by destruct (rebuildUI_frame n) as (_ & _ & _ & -> & _).
Qed.


(** * Consistency is kept by every method *)

Lemma refsResolve_alt state :
  refsResolve state ↔
  ∀ og, og ∈ Lora.group_id <$> loras state →
    truthyId og = false ∨ ∃ z, og = Some z ∧ z ∈ Group.id <$> groups state.
Proof.
  unfold refsResolve, isUngrouped. split.
  - intros Hrefs og (l & -> & Hl)%list_elem_of_fmap.
    destruct (Hrefs l Hl) as [?|(g & Hg & Hmem)]; [by left|].
    right. exists (Group.id g). split; [done|]. by apply list_elem_of_fmap_2.
  - intros Hrefs l Hl.
    destruct (Hrefs (Lora.group_id l)) as [?|(z & Hz & (g & -> & Hg)%list_elem_of_fmap)];
      [by apply list_elem_of_fmap_2|by left|].
    right. by exists g.
Qed.

Lemma consistent_same_ids n n' :
  Node.widgets n' = Node.widgets n →
  Group.id <$> groups (Node.loraState n') = Group.id <$> groups (Node.loraState n) →
  Group.index <$> groups (Node.loraState n') = Group.index <$> groups (Node.loraState n) →
  Lora.id <$> loras (Node.loraState n') = Lora.id <$> loras (Node.loraState n) →
  Lora.group_id <$> loras (Node.loraState n')
  = Lora.group_id <$> loras (Node.loraState n) →
  Node.nextGroupId n' = Node.nextGroupId n →
  Node.nextLoraId n' = Node.nextLoraId n →
  Node._saving n' = Node._saving n →
  consistent n → consistent n'.
Proof.
  intros Hws Hgid Hidx Hlid Hlgid Hng Hnl Hsv (Hlay & Hrefs & Hindexed & Hdense & Htargets & Hs).
  assert (length (groups (Node.loraState n')) = length (groups (Node.loraState n))) as Hglen.
  { by rewrite <- (length_fmap Group.id), Hgid, length_fmap. }
  assert (length (loras (Node.loraState n')) = length (loras (Node.loraState n))) as Hllen.
  { by rewrite <- (length_fmap Lora.id), Hlid, length_fmap. }
  split; [by rewrite Hws|]. split.
  { apply refsResolve_alt. rewrite Hlgid, Hgid. by apply refsResolve_alt. }
  split; [unfold indexed; by rewrite Hidx, Hglen|]. split.
  { unfold denselyNumbered in *. cbv zeta in *. by rewrite Hgid, Hlid, Hglen, Hllen, Hng, Hnl. }
  split; [|by rewrite Hsv].
  intros w Hw. rewrite Hws in Hw. specialize (Htargets w Hw).
  unfold targetExists in *. rewrite Hgid, Hlid. done.
Qed.

Lemma setSize_frame sz n :
  Node.id (setSize sz n) = Node.id n
  ∧ Node.loraState (setSize sz n) = Node.loraState n
  ∧ Node.nextGroupId (setSize sz n) = Node.nextGroupId n
  ∧ Node.nextLoraId (setSize sz n) = Node.nextLoraId n
  ∧ Node.collapsedGroups (setSize sz n) = Node.collapsedGroups n
  ∧ Node.widgets (setSize sz n) = Node.widgets n
  ∧ Node.stack_data (setSize sz n) = Node.stack_data n
  ∧ Node._saving (setSize sz n) = Node._saving n
  ∧ Node.localStorage (setSize sz n) = Node.localStorage n.
Proof. done. Qed.

Lemma consistent_saveState n : consistent n → consistent (saveState n).
Proof.
  destruct (saveState_frame n) as (_ & Hng & Hnl & _ & Hws & Hsv & _).
  apply consistent_same_ids; by rewrite ?saveState_loraState.
Qed.

Lemma consistent_setSize sz n : consistent n → consistent (setSize sz n).
Proof. by apply consistent_same_ids. Qed.

Lemma dense_wellFormed n :
  refsResolve (Node.loraState n) → denselyNumbered n → wellFormed (Node.loraState n).
Proof.
  intros Hrefs (Hgid & _ & Hlid & _). split; [done|]. split; [|split].
  - intros g Hg. apply (list_elem_of_fmap_2 Group.id) in Hg.
    rewrite Hgid in Hg. apply elem_of_seqZ in Hg. lia.
  - rewrite Hgid. apply NoDup_seqZ.
  - rewrite Hlid. apply NoDup_seqZ.
Qed.

Lemma consistent_wellFormed n : consistent n → wellFormed (Node.loraState n).
Proof. intros (_ & Hrefs & _ & Hdense & _). by apply dense_wellFormed. Qed.

Lemma targetExists_mono state state' cb :
  Group.id <$> groups state ⊆ Group.id <$> groups state' →
  Lora.id <$> loras state ⊆ Lora.id <$> loras state' →
  targetExists state cb → targetExists state' cb.
Proof.
  intros Hg Hl. destruct cb as [|[g|]| |g|g|i|g field|i key]; cbn; auto.
Qed.

(** ** A fresh node *)

Lemma onNodeCreated_consistent nodeId hasSeed storage :
  consistent (onNodeCreated nodeId hasSeed storage).
Proof.
  unfold onNodeCreated. split; [|split; [|split; [|split; [|split]]]]; cbn.
  - exists (if hasSeed then [seedWidget] else []), []. split; [done|]. split; [|done].
    destruct hasSeed; [apply isSeeds_seedWidget|by left].
  - by intros l ?%elem_of_nil.
  - done.
  - done.
  - intros w Hw. destruct hasSeed; cbn in Hw;
      repeat (apply elem_of_cons in Hw as [-> |Hw]; [done|]); by apply elem_of_nil in Hw.
  - done.
Qed.

(** ** Additions *)

Lemma createGroupWidgets_frame groupId groupData n :
  Node.loraState (createGroupWidgets groupId groupData n) = Node.loraState n
  ∧ Node.nextGroupId (createGroupWidgets groupId groupData n) = Node.nextGroupId n
  ∧ Node.nextLoraId (createGroupWidgets groupId groupData n) = Node.nextLoraId n
  ∧ Node._saving (createGroupWidgets groupId groupData n) = Node._saving n.
Proof.
  unfold createGroupWidgets.
  by destruct (placeAll_frame
    (groupWidgets (bool_decide (groupId ∈ Node.collapsedGroups n)) groupId groupData) n)
    as (_ & -> & -> & -> & _ & _ & -> & _).
Qed.

Lemma createLoraWidgets_frame loraId groupId loraData n :
  Node.loraState (createLoraWidgets loraId groupId loraData n) = Node.loraState n
  ∧ Node.nextGroupId (createLoraWidgets loraId groupId loraData n) = Node.nextGroupId n
  ∧ Node.nextLoraId (createLoraWidgets loraId groupId loraData n) = Node.nextLoraId n
  ∧ Node._saving (createLoraWidgets loraId groupId loraData n) = Node._saving n.
Proof.
  unfold createLoraWidgets.
  by destruct (placeAll_frame (loraWidgets loraId groupId loraData) n)
    as (_ & -> & -> & -> & _ & _ & -> & _).
Qed.

Lemma addGroup_fields n :
  Node.loraState (addGroup n)
  = mkState (groups (Node.loraState n)
             ++ [Group.mk (Node.nextGroupId n)
                   (Z.of_nat (length (groups (Node.loraState n))) + 1) 1%Q 1%Q])
      (loras (Node.loraState n))
  ∧ Node.nextGroupId (addGroup n) = Node.nextGroupId n + 1
  ∧ Node.nextLoraId (addGroup n) = Node.nextLoraId n
  ∧ Node._saving (addGroup n) = Node._saving n.
Proof.
  unfold addGroup. cbv zeta.
  match goal with |- context [setSize ?sz ?m] =>
    destruct (setSize_frame sz m) as (_ & -> & -> & -> & _ & _ & _ & -> & _) end.
  match goal with |- context [saveState ?m] =>
    rewrite (saveState_loraState m);
    destruct (saveState_frame m) as (_ & -> & -> & _ & _ & -> & _) end.
  match goal with |- context [createGroupWidgets ?a ?b ?m] =>
    destruct (createGroupWidgets_frame a b m) as (-> & -> & -> & ->) end.
  done.
Qed.

Lemma addLora_fields groupId n :
  Node.nextGroupId (addLora groupId n) = Node.nextGroupId n
  ∧ Node.nextLoraId (addLora groupId n) = Node.nextLoraId n + 1
  ∧ Node._saving (addLora groupId n) = Node._saving n.
Proof.
  unfold addLora. cbv zeta.
  match goal with |- context [setSize ?sz ?m] =>
    destruct (setSize_frame sz m) as (_ & _ & -> & -> & _ & _ & _ & -> & _) end.
  match goal with |- context [saveState ?m] =>
    destruct (saveState_frame m) as (_ & -> & -> & _ & _ & -> & _) end.
  match goal with |- context [createLoraWidgets ?a ?b ?c ?m] =>
    destruct (createLoraWidgets_frame a b c m) as (_ & -> & -> & ->) end.
  done.
Qed.

Lemma seqZ_succ (len : nat) :
  seqZ 1 (Z.of_nat (len + 1)) = seqZ 1 (Z.of_nat len) ++ [1 + Z.of_nat len].
Proof. rewrite Nat.add_1_r. apply seqZ_S. Qed.

Lemma addGroup_consistent n : consistent n → consistent (addGroup n).
Proof.
  intros (Hlay & Hrefs & Hindexed & Hdense & Htargets & Hs).
  destruct Hlay as (seeds & dyn & Hws & Hseeds & Hdyn).
  destruct Hdense as (Hgid & Hng & Hlid & Hnl).
  destruct (addGroup_fields n) as (HS & Hng' & Hnl' & Hsv').
  assert (Node.widgets (addGroup n)
          = layout seeds
              (dyn ++ groupWidgets
                        (bool_decide (Node.nextGroupId n ∈ Node.collapsedGroups n))
                        (Node.nextGroupId n)
                        (Group.mk (Node.nextGroupId n)
                           (Z.of_nat (length (groups (Node.loraState n))) + 1) 1%Q 1%Q)))
    as Hws'.
  { rewrite addGroup_widgets, Hws.
    apply placeAllIn_layout; [done..|apply groupWidgets_dynamic]. }
  assert (Group.id <$> groups (Node.loraState (addGroup n))
          = seqZ 1 (Z.of_nat (length (groups (Node.loraState (addGroup n)))))) as Hgid'.
  { rewrite HS. cbn [groups]. rewrite fmap_app, length_app. cbn [fmap list_fmap length].
    rewrite seqZ_succ, Hgid, Hng. done. }
  assert (denselyNumbered (addGroup n)) as Hdense'.
  { split; [done|]. rewrite Hng', Hnl', HS. cbn [groups loras].
    rewrite length_app. cbn [length]. split; [lia|]. split; [done|lia]. }
  split; [|split; [|split; [|split; [done|split]]]].
  - eexists seeds, _. split; [done|]. split; [done|].
    apply Forall_app_2; [done|apply groupWidgets_dynamic].
  - rewrite HS. intros l Hl. cbn [loras] in Hl.
    destruct (Hrefs l Hl) as [?|(g & Hg & Hmem)]; [by left|].
    right. exists g. split; [|done]. cbn [groups]. apply elem_of_app. by left.
  - unfold indexed in *. rewrite HS. cbn [groups].
    rewrite fmap_app, length_app. cbn [fmap list_fmap length].
    rewrite seqZ_succ, Hindexed. cbn [Group.index]. do 2 f_equal. lia.
  - intros w Hw. rewrite Hws' in Hw.
    apply elem_of_layout in Hw as [Hw|[-> |[Hw|[-> | ->]]]]; [|done| |done|done].
    + apply (isSeeds_elem _ _ Hseeds) in Hw as [_ ->]. done.
    + apply elem_of_app in Hw as [Hw|Hw].
      * eapply targetExists_mono; [| |apply Htargets].
        -- rewrite HS. cbn [groups]. rewrite fmap_app. intros x Hx. apply elem_of_app. by left.
        -- by rewrite HS.
        -- rewrite Hws. apply elem_of_layout. auto.
      * destruct Hdense' as (Hd1 & _ & Hd3 & _).
        apply targetBelow_exists; [done|done|].
        eapply groupWidgets_target; [|done].
        rewrite HS. cbn [groups]. rewrite length_app. cbn [length]. lia.
  - by rewrite Hsv'.
Qed.

Lemma addLora_consistent groupId n :
  consistent n → targetExists (Node.loraState n) (CallAddLora groupId) →
  consistent (addLora groupId n).
Proof.
  intros (Hlay & Hrefs & Hindexed & Hdense & Htargets & Hs) Hgroup.
  destruct Hlay as (seeds & dyn & Hws & Hseeds & Hdyn).
  destruct Hdense as (Hgid & Hng & Hlid & Hnl).
  destruct (addLora_fields groupId n) as (Hng' & Hnl' & Hsv').
  pose proof (addLora_loraState groupId n) as HS.
  set (item := Lora.mk (Node.nextLoraId n) groupId
                 match groupId with None => ungroupedDefaults | Some _ => groupedDefaults end)
    in *.
  assert (Node.widgets (addLora groupId n)
          = layout seeds (dyn ++ loraWidgets (Node.nextLoraId n) groupId item)) as Hws'.
  { rewrite addLora_widgets, Hws.
    apply placeAllIn_layout; [done..|apply loraWidgets_dynamic]. }
  assert (Lora.id <$> loras (Node.loraState (addLora groupId n))
          ≡ₚ seqZ 1 (Z.of_nat (length (loras (Node.loraState (addLora groupId n))))))
    as Hlid'.
  { rewrite HS. cbn [loras]. rewrite fmap_app, length_app. cbn [fmap list_fmap length].
    change (Lora.id item) with (Node.nextLoraId n).
    rewrite seqZ_succ, Hlid, Hnl. done. }
  assert (denselyNumbered (addLora groupId n)) as Hdense'.
  { unfold denselyNumbered. cbv zeta. split; [by rewrite HS|].
    rewrite Hng', Hnl'. split; [by rewrite HS|]. split; [done|].
    rewrite HS. cbn [loras]. rewrite length_app. cbn [length]. lia. }
  split; [|split; [|split; [|split; [done|split]]]].
  - eexists seeds, _. split; [done|]. split; [done|].
    apply Forall_app_2; [done|apply loraWidgets_dynamic].
  - rewrite HS. intros l Hl. cbn [loras groups] in *.
    apply elem_of_app in Hl as [Hl|Hl]; [by apply Hrefs|].
    apply list_elem_of_singleton in Hl as ->. subst item.
    destruct groupId as [g|]; [|by left].
    cbn in Hgroup. apply list_elem_of_fmap in Hgroup as (g0 & -> & Hg0).
    right. by exists g0.
  - unfold indexed in *. by rewrite HS.
  - intros w Hw. rewrite Hws' in Hw.
    apply elem_of_layout in Hw as [Hw|[-> |[Hw|[-> | ->]]]]; [|done| |done|done].
    + apply (isSeeds_elem _ _ Hseeds) in Hw as [_ ->]. done.
    + apply elem_of_app in Hw as [Hw|Hw].
      * eapply targetExists_mono; [| |apply Htargets].
        -- by rewrite HS.
        -- rewrite HS. cbn [loras]. rewrite fmap_app. intros x Hx. apply elem_of_app. by left.
        -- rewrite Hws. apply elem_of_layout. auto.
      * destruct Hdense' as (Hd1 & _ & Hd3 & _).
        apply targetBelow_exists; [done|done|].
        eapply loraWidgets_target; [|done].
        rewrite HS. cbn [loras]. rewrite length_app. cbn [length]. lia.
  - by rewrite Hsv'.
Qed.


(** ** Removals, toggles and edits *)

Lemma rebuildUI_set_loraState_consistent state n :
  consistent n → wellFormed state → indexed state →
  consistent (rebuildUI (Node.set_loraState state n)).
Proof.
  intros (Hlay & _ & _ & _ & _ & Hs) Hwf Hidx. by apply rebuildUI_consistent.
Qed.

Lemma renumberIndex_ids gs : Group.id <$> renumberIndex gs = Group.id <$> gs.
Proof.
  unfold renumberIndex. rewrite fmap_imap.
  apply list_eq. intros j. rewrite list_lookup_imap, list_lookup_fmap.
  by destruct (gs !! j).
Qed.

Lemma renumberIndex_length gs : length (renumberIndex gs) = length gs.
Proof. unfold renumberIndex. by rewrite length_imap. Qed.

Lemma elem_of_delete_ne {A} (l : list A) i x y :
  l !! i = Some y → x ∈ l → x ≠ y → x ∈ delete i l.
Proof.
  intros Hy (j & Hj)%list_elem_of_lookup Hne.
  assert (j ≠ i) as Hji by (intros ->; congruence).
  apply list_elem_of_lookup.
  destruct (decide (j < i)%nat).
  - exists j. by rewrite list_lookup_delete_lt.
  - exists (j - 1)%nat. rewrite list_lookup_delete_ge by lia.
    by replace (S (j - 1)) with j by lia.
Qed.

Lemma removeGroup_consistent g n : consistent n → consistent (removeGroup g n).
Proof.
  intros Hn. unfold removeGroup.
  destruct (list_find _ _) as [[groupIdx groupData]|] eqn:Hfind; [|done].
  apply list_find_Some in Hfind as (Hlook & Hid & _).
  pose proof (consistent_wellFormed n Hn) as (Hrefs & Htruthy & Hgs & Hls).
  apply consistent_saveState, rebuildUI_set_loraState_consistent; [done| |].
  - split; [|split; [|split]]; unfold refsResolve, groupIdsTruthy; cbn [groups loras].
    + intros l (Hne & Hl)%list_elem_of_filter.
      destruct (Hrefs l Hl) as [?|(g0 & Hg0 & Hmem)]; [by left|].
      right.
      assert (Group.id g0 ∈ Group.id <$> renumberIndex (delete groupIdx (groups (Node.loraState n))))
        as (g1 & Hg1 & Hin)%list_elem_of_fmap.
      { rewrite renumberIndex_ids. apply list_elem_of_fmap_2.
        apply (elem_of_delete_ne _ _ _ groupData); [done..|].
        intros ->. congruence. }
      exists g1. split; [done|congruence].
    + intros g1 Hg1. apply (list_elem_of_fmap_2 Group.id) in Hg1.
      rewrite renumberIndex_ids in Hg1.
      apply list_elem_of_fmap in Hg1 as (g0 & -> & Hg0).
      apply Htruthy. by eapply list_elem_of_delete_inv.
    + rewrite renumberIndex_ids, list_fmap_delete.
      eapply sublist_NoDup; [exact Hgs|apply sublist_delete].
    + eapply sublist_NoDup; [exact Hls|]. apply fmap_sublist, sublist_filter.
  - unfold indexed. cbn [groups]. by rewrite renumberIndex_index, renumberIndex_length.
Qed.

Lemma removeLora_consistent i n : consistent n → consistent (removeLora i n).
Proof.
  intros Hn. unfold removeLora.
  destruct (list_find _ _) as [[loraIdx loraData]|] eqn:Hfind; [|done].
  pose proof (consistent_wellFormed n Hn) as (Hrefs & Htruthy & Hgs & Hls).
  apply consistent_saveState, rebuildUI_set_loraState_consistent; [done| |].
  - split; [|split; [|split]]; unfold refsResolve; cbn [groups loras]; [|done|done|].
    + intros l Hl. apply Hrefs. by eapply list_elem_of_delete_inv.
    + rewrite list_fmap_delete. eapply sublist_NoDup; [exact Hls|apply sublist_delete].
  - by destruct Hn as (_ & _ & ? & _).
Qed.

Lemma toggleGroupCollapse_consistent g n :
  consistent n → consistent (toggleGroupCollapse g n).
Proof.
  intros Hn. rewrite toggleGroupCollapse_unfold.
  pose proof (consistent_wellFormed n Hn).
  destruct Hn as (? & _ & ? & _ & _ & ?). by apply rebuildUI_consistent.
Qed.

Lemma alter_group_field_ids (set : Group.t → Group.t) (i : nat) (gs : list Group.t) :
  (∀ g, Group.id (set g) = Group.id g) →
  Group.id <$> alter set i gs = Group.id <$> gs.
Proof.
  intros Hset. rewrite (list_fmap_alter _ _ id) by by apply Forall_forall.
  by apply list_alter_id.
Qed.

Lemma alter_group_field_index (set : Group.t → Group.t) (i : nat) (gs : list Group.t) :
  (∀ g, Group.index (set g) = Group.index g) →
  Group.index <$> alter set i gs = Group.index <$> gs.
Proof.
  intros Hset. rewrite (list_fmap_alter _ _ id) by by apply Forall_forall.
  by apply list_alter_id.
Qed.

Lemma alter_lora_set_ids key v (i : nat) (ls : list Lora.t) :
  Lora.id <$> alter (Lora.set key v) i ls = Lora.id <$> ls.
Proof.
  rewrite (list_fmap_alter _ _ id) by by apply Forall_forall.
  by apply list_alter_id.
Qed.

Lemma alter_lora_set_group_ids key v (i : nat) (ls : list Lora.t) :
  Lora.group_id <$> alter (Lora.set key v) i ls = Lora.group_id <$> ls.
Proof.
  rewrite (list_fmap_alter _ _ id) by by apply Forall_forall.
  by apply list_alter_id.
Qed.

Lemma set_loraState_same_ids state n :
  Group.id <$> groups state = Group.id <$> groups (Node.loraState n) →
  Group.index <$> groups state = Group.index <$> groups (Node.loraState n) →
  Lora.id <$> loras state = Lora.id <$> loras (Node.loraState n) →
  Lora.group_id <$> loras state = Lora.group_id <$> loras (Node.loraState n) →
  consistent n → consistent (Node.set_loraState state n).
Proof. intros. by apply (consistent_same_ids n). Qed.

Lemma fire_consistent cb v n :
  consistent n → targetExists (Node.loraState n) cb → consistent (fire cb v n).
Proof.
  intros Hn Hcb. destruct cb as [|groupId| |g|g|i|g field|i key]; cbn [fire].
  - done.
  - by apply addLora_consistent.
  - by apply addGroup_consistent.
  - by apply toggleGroupCollapse_consistent.
  - by apply removeGroup_consistent.
  - by apply removeLora_consistent.
  - destruct (list_find _ _) as [[idx groupData]|]; [|done].
    destruct v as [b|q|s]; [done| |done].
    apply consistent_saveState, set_loraState_same_ids; cbn [groups loras]; [| |done..].
    + apply alter_group_field_ids. by destruct field.
    + apply alter_group_field_index. by destruct field.
  - destruct (list_find _ _) as [[idx loraData]|]; [|done].
    apply consistent_saveState.
    assert (consistent (Node.set_loraState
              (mkState (groups (Node.loraState n))
                 (alter (Lora.set key v) idx (loras (Node.loraState n)))) n)) as Hn'.
    { apply set_loraState_same_ids; cbn [groups loras]; [done|done| | |done].
      - apply alter_lora_set_ids.
      - apply alter_lora_set_group_ids. }
    destruct (togglesControls key); [|done].
    pose proof (consistent_wellFormed _ Hn').
    destruct Hn' as (? & _ & ? & _ & _ & ?). by apply rebuildUI_consistent.
Qed.


(** * Consistency of reachable nodes *)

(** Consistency of a concrete node, by evaluation; [seeds] is its seed
    part. *)
Ltac consistent_by_evaluation seeds :=
  match goal with
  | |- consistent ?n =>
      split;
      [ exists seeds, (dynamicOf (Node.widgets n));
        split; [vm_compute; reflexivity|];
        split; [first [by left | right; eexists; repeat split; reflexivity]
               |decide_by_evaluation]
      | split; [decide_by_evaluation|];
        split; [vm_compute; reflexivity|];
        split; [split; [vm_compute; reflexivity|];
                split; [vm_compute; reflexivity|];
                split; [decide_by_evaluation|vm_compute; reflexivity]|];
        split; [apply Forall_forall; decide_by_evaluation|vm_compute; reflexivity] ]
  end.

(** X18.  A rebuild establishes consistency.  Take a well laid out control
    list and a snapshot with referential integrity, no falsy group id,
    distinct group ids, distinct item ids and labels counting from 1, with
    [N] groups and [M] items.  After the rebuild the groups carry the ids
    1 .. N in display order and the items carry the ids 1 .. M in some order,
    the counters are N + 1 and M + 1, every item is ungrouped or names an
    existing group, the labels still count from 1, the control list is well
    laid out, and every control in it works on a group or item that
    exists. *)
Theorem rebuild_establishes_consistency (n : Node.t) :
  laidOut (Node.widgets n) → wellFormed (Node.loraState n) →
  indexed (Node.loraState n) → Node._saving n = false →
  Group.id <$> groups (Node.loraState (rebuildUI n))
  = seqZ 1 (Z.of_nat (length (groups (Node.loraState n))))
  ∧ Lora.id <$> loras (Node.loraState (rebuildUI n))
    ≡ₚ seqZ 1 (Z.of_nat (length (loras (Node.loraState n))))
  ∧ Node.nextGroupId (rebuildUI n) = 1 + Z.of_nat (length (groups (Node.loraState n)))
  ∧ Node.nextLoraId (rebuildUI n) = 1 + Z.of_nat (length (loras (Node.loraState n)))
  ∧ refsResolve (Node.loraState (rebuildUI n))
  ∧ indexed (Node.loraState (rebuildUI n))
  ∧ laidOut (Node.widgets (rebuildUI n))
  ∧ (∀ w, w ∈ Node.widgets (rebuildUI n) →
       targetExists (Node.loraState (rebuildUI n)) (Widget.callback w))
  ∧ consistent (rebuildUI n).
Proof.
  intros Hlay Hwf Hidx Hsv.
  pose proof (rebuildUI_consistent n Hlay Hwf Hidx Hsv) as Hn.
  pose proof Hn as (Hlay' & Hrefs' & Hidx' & (Hgid & Hng & Hlid & Hnl) & Htargets & _).
  rewrite rebuildUI_loraState in Hgid, Hng, Hlid, Hnl.
  rewrite renumber_groups_length in Hgid, Hng.
  rewrite renumber_loras_length in Hlid, Hnl.
  rewrite rebuildUI_loraState in *.
  split; [exact Hgid|]. split; [exact Hlid|]. split; [exact Hng|]. split; [exact Hnl|].
  split; [exact Hrefs'|]. split; [exact Hidx'|]. split; [exact Hlay'|].
  split; [exact Htargets|exact Hn].
Qed.

Lemma rebuild_establishes_consistency_witness :
  Lora.id <$> loras (Node.loraState (nodeWith sparseState)) = [7; 3; 4]
  ∧ Group.id <$> groups (Node.loraState (nodeWith sparseState)) = [5; 9]
  ∧ Group.id <$> groups (Node.loraState (rebuildUI (nodeWith sparseState)))
    = seqZ 1 (Z.of_nat (length (groups (Node.loraState (nodeWith sparseState))))).
Proof.
  split; [reflexivity|]. split; [reflexivity|].
  apply (rebuild_establishes_consistency (nodeWith sparseState)).
  - exists [], []. split; [vm_compute; reflexivity|]. split; [by left|apply Forall_nil_2].
  - split; [decide_by_evaluation|]. split; [decide_by_evaluation|].
    split; decide_by_evaluation.
  - vm_compute. reflexivity.
  - vm_compute. reflexivity.
Defined.

(** X19.  No control can break consistency: in a consistent node, running the
    callback of any control of the list, with any value, gives a consistent
    node. *)
Theorem activation_keeps_consistency (n : Node.t) (w : Widget.t) (v : JsVal) :
  consistent n → w ∈ Node.widgets n → consistent (fire (Widget.callback w) v n).
Proof.
  intros Hn Hw. apply fire_consistent; [done|].
  destruct Hn as (_ & _ & _ & _ & Htargets & _). by apply Htargets.
Qed.

Lemma activation_keeps_consistency_witness :
  consistent
    (fire (Widget.callback
             (Widget.mk "button" "✕ Remove" None (CallRemoveGroup 1) (groupTag 1) None
                true None))
       (VBool true) exampleNode).
Proof.
  apply (activation_keeps_consistency exampleNode).
  - consistent_by_evaluation [seedWidget].
  - decide_by_evaluation.
Defined.

(** X20.  Every node the user can reach by working the controls of a freshly
    created node is consistent: whatever controls are activated, in whatever
    order and with whatever values, the control list keeps its shape with
    the two action buttons last, the group ids are 1, 2, ... in display
    order, the item ids are the numbers 1, 2, ... in some order, the counters
    are one past the ids in use, the group labels count from 1, every
    grouped item names an existing group, and no control is left that works
    on a removed group or item. *)
Theorem reachable_consistent (nodeId : Z) (hasSeed : bool) (storage : Storage.t)
    (steps : list (nat * JsVal)) :
  consistent (session steps (onNodeCreated nodeId hasSeed storage)).
Proof.
  assert (∀ steps n, consistent n → consistent (session steps n)) as Hsession.
  { clear steps. intros steps. induction steps as [|step steps IH]; intros n Hn; [done|].
    unfold session in *. cbn [foldl]. apply IH. unfold activate.
    destruct (Node.widgets n !! step.1) as [w|] eqn:Hw; [|done].
    apply fire_consistent; [done|].
    destruct Hn as (_ & _ & _ & _ & Htargets & _).
    apply Htargets. by eapply list_elem_of_lookup_2. }
  apply Hsession, onNodeCreated_consistent.
Qed.

(** ** Loading *)

Lemma clearDynamicWidgets_laidOut n :
  laidOut (Node.widgets n) → laidOut (Node.widgets (clearDynamicWidgets n)).
Proof.
  intros (seeds & dyn & Hws & Hseeds & Hdyn). exists seeds, [].
  split; [|by split]. unfold clearDynamicWidgets. cbn [Node.widgets Node.set_widgets].
  rewrite Hws. by apply filter_layout.
Qed.

Lemma restoreState_consistent n :
  consistent n →
  (∀ state, JSON_parse (Node.stack_data n) = Some state → wellFormed state ∧ indexed state) →
  (∀ state, loadStateFromLocalStorage (Node.id n) (Node.localStorage n) = Some state →
     wellFormed state ∧ indexed state) →
  consistent (restoreState n).
Proof.
  intros Hn Hfield Hcache. pose proof Hn as (Hlay & _ & _ & _ & _ & Hsv).
  unfold restoreState. destruct (truthyText (Node.stack_data n)).
  - destruct (JSON_parse (Node.stack_data n)) as [state|] eqn:Hparse; [|done].
    destruct (Hfield state eq_refl) as [Hwf Hidx].
    apply rebuildUI_consistent; [|done..].
    by apply clearDynamicWidgets_laidOut in Hlay.
  - destruct (loadStateFromLocalStorage _ _) as [state|]; [|done].
    destruct (Hcache state eq_refl) as [Hwf Hidx].
    rewrite saveState_stack_data by done. cbn [JSON_parse JSON_stringify].
    destruct (saveState_frame (Node.set_loraState state n)) as (_ & _ & _ & _ & Hws & Hsv' & _).
    apply rebuildUI_consistent; [|done|done|].
    + change (laidOut (Node.widgets
                (clearDynamicWidgets (saveState (Node.set_loraState state n))))).
      apply clearDynamicWidgets_laidOut. by rewrite Hws.
    + change (Node._saving (saveState (Node.set_loraState state n)) = false).
      by rewrite Hsv'.
Qed.

(** X21.  Loading keeps consistency: when every snapshot the load can read (a text
    among the prior values, the text in the document field, the entry of the
    backup cache) is well formed, the load hook takes a consistent node to a
    consistent node, whichever source it ends up using. *)
Theorem load_keeps_consistency (values : option (list Text)) (n : Node.t) :
  consistent n → readable values n → consistent (onConfigure values n).
Proof.
  intros Hn (Hvals & Hfield & Hcache). unfold onConfigure.
  destruct values as [vs|]; [|by apply restoreState_consistent].
  destruct (list_find _ _) as [[idx w]|]; [|by apply restoreState_consistent].
  destruct (vs !! idx) as [text|] eqn:Htext; [|by apply restoreState_consistent].
  destruct (truthyText text); [|by apply restoreState_consistent].
  apply restoreState_consistent; [by apply (consistent_same_ids n)| |done].
  intros state Hparse. apply (Hvals vs text); [done| |done].
  by eapply list_elem_of_lookup_2.
Qed.


Lemma load_keeps_consistency_witness :
  consistent (onConfigure (Some (savedValues false mixedNode)) freshNode).
Proof.
  apply (load_keeps_consistency (Some (savedValues false mixedNode)) freshNode).
  - consistent_by_evaluation (@nil Widget.t).
  - split; [|split].
    + intros vs t state [= <-] Ht Hparse.
      apply list_elem_of_singleton in Ht as ->.
      vm_compute in Hparse. injection Hparse as <-.
      split; [|vm_compute; reflexivity].
      split; [decide_by_evaluation|]. split; [decide_by_evaluation|].
      split; decide_by_evaluation.
    + intros state Hparse. discriminate Hparse.
    + intros state Hparse. discriminate Hparse.
Defined.


(** * A rebuild in a consistent node *)

Lemma dense_lookup state j g :
  Group.id <$> groups state = seqZ 1 (Z.of_nat (length (groups state))) →
  groups state !! j = Some g →
  Group.id g = 1 + Z.of_nat j
  ∧ groupIdMap (rebuildVars state) !! Group.id g = Some (Group.id g).
Proof.
  intros Hd Hg.
  assert (Group.id g = 1 + Z.of_nat j) as Hid.
  { apply (list_lookup_fmap_Some_2 Group.id) in Hg. rewrite Hd in Hg.
    by apply lookup_seqZ in Hg as [-> _]. }
  split; [done|]. unfold rebuildVars. cbn [groupIdMap].
  rewrite Hid at 2. apply numberIds_NoDup.
  - rewrite Hd. apply NoDup_seqZ.
  - by rewrite list_lookup_fmap, Hg.
Qed.

Lemma renumber_dense_groups state :
  Group.id <$> groups state = seqZ 1 (Z.of_nat (length (groups state))) →
  groups (renumber state) = groups state.
Proof.
  intros Hd. unfold renumber. cbn [groups].
  apply list_eq. intros j. rewrite list_lookup_fmap.
  destruct (groups state !! j) as [g|] eqn:Hg; [|done]. cbn. f_equal.
  destruct (dense_lookup state j g Hd Hg) as [Hid Hmap].
  unfold updateGroupId. rewrite Hmap, truthyZ_true by lia.
  apply Group_set_id_same.
Qed.

Lemma renumber_dense_group_id state l :
  Group.id <$> groups state = seqZ 1 (Z.of_nat (length (groups state))) →
  refsResolve state → l ∈ loras state → ¬ isUngrouped l →
  Lora.group_id (updateLoraIds (rebuildVars state) l) = Lora.group_id l.
Proof.
  intros Hd Hrefs Hl Hnu.
  destruct (Hrefs l Hl) as [?|(g & Hg & Hmem)]; [done|].
  apply list_elem_of_lookup in Hg as (j & Hg).
  destruct (dense_lookup state j g Hd Hg) as [Hid Hmap].
  rewrite Hmem. apply (updateLoraIds_group_Some _ _ (Group.id g)); [done|lia|done].
Qed.

(** X22.  In a consistent node a rebuild renumbers only the items: the groups stay
    exactly as they are, the counters do not move, every item keeps its
    fields and its group, and the item ids become 1, 2, ... in build
    order. *)
Theorem rebuild_in_consistent_node (n : Node.t) :
  consistent n →
  groups (Node.loraState (rebuildUI n)) = groups (Node.loraState n)
  ∧ Node.nextGroupId (rebuildUI n) = Node.nextGroupId n
  ∧ Node.nextLoraId (rebuildUI n) = Node.nextLoraId n
  ∧ Forall2
      (λ l l', Lora.props l' = Lora.props l
               ∧ (isUngrouped l → Lora.group_id l' = None)
               ∧ (¬ isUngrouped l → Lora.group_id l' = Lora.group_id l))
      (loras (Node.loraState n)) (loras (Node.loraState (rebuildUI n)))
  ∧ Lora.id <$> buildOrder (Node.loraState (rebuildUI n))
    = seqZ 1 (Z.of_nat (length (loras (Node.loraState n)))).
Proof.
  intros Hn. pose proof (consistent_wellFormed n Hn) as Hwf.
  pose proof Hwf as (Hrefs & Htruthy & Hgs & Hls).
  destruct Hn as (_ & _ & _ & (Hgid & Hng & Hlid & Hnl) & _ & _).
  rewrite rebuildUI_loraState, rebuildUI_nextGroupId, rebuildUI_nextLoraId.
  split; [by apply renumber_dense_groups|]. split; [by rewrite Hng|]. split.
  { rewrite Hnl. do 2 f_equal. apply Permutation_length.
    by apply buildOrder_Permutation. }
  split; [|by apply renumber_buildOrder_ids].
  unfold renumber. cbn [loras]. apply Forall2_fmap_r, Forall_Forall2_diag, Forall_forall.
  intros l Hl. split; [apply updateLoraIds_props|]. split.
  - apply updateLoraIds_ungrouped.
  - by apply renumber_dense_group_id.
Qed.

Lemma rebuild_in_consistent_node_witness :
  Lora.id <$> loras (Node.loraState mixedNode) = [1; 2]
  ∧ Lora.id <$> loras (Node.loraState (rebuildUI mixedNode)) = [2; 1]
  ∧ groups (Node.loraState (rebuildUI mixedNode)) = groups (Node.loraState mixedNode).
Proof.
  split; [vm_compute; reflexivity|]. split; [vm_compute; reflexivity|].
  apply (rebuild_in_consistent_node mixedNode).
  consistent_by_evaluation (@nil Widget.t).
Defined.

(** * Edits and removals of items *)

Lemma renumber_props state :
  Lora.props <$> loras (renumber state) = Lora.props <$> loras state.
Proof.
  unfold renumber. cbn [loras]. rewrite <- list_fmap_compose.
  apply list_fmap_ext. intros j l _. apply updateLoraIds_props.
Qed.

Lemma renumber_groupFields state :
  Forall2 sameGroupFields (groups state) (groups (renumber state)).
Proof.
  unfold renumber. cbn [groups]. apply Forall2_fmap_r, Forall_Forall2_diag, Forall_forall.
  intros g _. apply updateGroupId_fields.
Qed.

Lemma sameGroupFields_refl gs : Forall2 sameGroupFields gs gs.
Proof. by apply Forall_Forall2_diag, Forall_forall. Qed.

(** X23.  An edit made through a control of an item sets the key of that control
    in the first item carrying the id, and changes no other key of any item
    and no field of any group but its id; the items stay in their order.
    This holds for the plain keys, which are saved at once, and for the
    lock and randomize switches, which are followed by a rebuild.  With no
    item of that id, the snapshot stays as it is. *)
Theorem edit_changes_one_key (n : Node.t) (i : Z) (key : string) (v : JsVal) :
  Lora.props <$> loras (Node.loraState (fire (SetLoraField i key) v n))
  = Lora.props
      <$> match list_find (λ l, Lora.id l = i) (loras (Node.loraState n)) with
          | Some (idx, _) => alter (Lora.set key v) idx (loras (Node.loraState n))
          | None => loras (Node.loraState n)
          end
  ∧ Forall2 sameGroupFields
      (groups (Node.loraState n))
      (groups (Node.loraState (fire (SetLoraField i key) v n))).
Proof.
  cbn [fire]. destruct (list_find _ _) as [[idx l]|]; [|split; [done|]].
  2:{ apply sameGroupFields_refl. }
  rewrite saveState_loraState. destruct (togglesControls key).
  - rewrite rebuildUI_loraState. cbn [Node.loraState Node.set_loraState]. split.
    + by rewrite renumber_props.
    + apply (renumber_groupFields
               (mkState (groups (Node.loraState n))
                  (alter (Lora.set key v) idx (loras (Node.loraState n))))).
  - cbn [Node.loraState Node.set_loraState groups loras]. split; [done|].
    apply sameGroupFields_refl.
Qed.

(** X24.  [removeLora] removes exactly the first item carrying the id: when
    every item is ungrouped or names an existing group and no group has the
    id 0, the snapshot afterwards is the old one without that item, up to id
    renumbering, and its text has been written to the document field. *)
Theorem removeLora_effect (n : Node.t) (i : Z) (idx : nat) (l : Lora.t) :
  refsResolve (Node.loraState n) →
  groupIdsTruthy (Node.loraState n) →
  list_find (λ x, Lora.id x = i) (loras (Node.loraState n)) = Some (idx, l) →
  Node._saving n = false →
  sameUpToIds
    (mkState (groups (Node.loraState n)) (delete idx (loras (Node.loraState n))))
    (Node.loraState (removeLora i n))
  ∧ inSync (removeLora i n).
Proof.
  intros Hrefs Htruthy Hfind Hsv. unfold removeLora. rewrite Hfind. split.
  - rewrite saveState_loraState, rebuildUI_loraState.
    cbn [Node.loraState Node.set_loraState].
    apply renumber_sameUpToIds; [|exact Htruthy]. intros l0 Hl0. cbn [loras groups] in *.
    apply Hrefs. by eapply list_elem_of_delete_inv.
  - apply saveState_inSync.
    by destruct (rebuildUI_frame (Node.set_loraState
         (mkState (groups (Node.loraState n)) (delete idx (loras (Node.loraState n)))) n))
      as (_ & _ & _ & -> & _).
Qed.

Lemma removeLora_effect_witness :
  sameUpToIds
    (mkState (groups (Node.loraState exampleNode))
       (delete 1%nat (loras (Node.loraState exampleNode))))
    (Node.loraState (removeLora 2 exampleNode))
  ∧ inSync (removeLora 2 exampleNode).
Proof.
  apply (removeLora_effect exampleNode 2 1%nat (Lora.mk 2 (Some 2) groupedDefaults)).
  - decide_by_evaluation.
  - decide_by_evaluation.
  - vm_compute. reflexivity.
  - vm_compute. reflexivity.
Defined.


(** * Loading twice *)

Lemma onConfigure_primeField values n :
  onConfigure values n = restoreState (primeField values n).
Proof. done. Qed.

Lemma primeField_cases values n :
  (∀ m, list_find (λ w, Widget.name w = "stack_data") (Node.widgets m)
        = list_find (λ w, Widget.name w = "stack_data") (Node.widgets n) →
        primeField values m = m)
  ∨ (∃ t, truthyText t = true
          ∧ ∀ m, list_find (λ w, Widget.name w = "stack_data") (Node.widgets m)
                 = list_find (λ w, Widget.name w = "stack_data") (Node.widgets n) →
                 primeField values m = Node.set_stack_data t m).
Proof.
  unfold primeField. destruct values as [vs|]; [|by left].
  destruct (list_find _ (Node.widgets n)) as [[idx w]|] eqn:Hfind.
  2:{ left. by intros m ->. }
  destruct (vs !! idx) as [t|] eqn:Ht.
  2:{ left. intros m ->. by rewrite Ht. }
  destruct (truthyText t) eqn:Htruthy.
  - right. exists t. split; [done|]. intros m ->. by rewrite Ht, Htruthy.
  - left. intros m ->. by rewrite Ht, Htruthy.
Qed.

Lemma list_find_stack_data seeds dyn :
  isSeeds seeds →
  list_find (λ w, Widget.name w = "stack_data") (layout seeds dyn)
  = Some (length seeds, stackDataWidget).
Proof.
  intros Hseeds. apply list_find_Some. unfold layout. cbn [app].
  split; [by rewrite list_lookup_middle|]. split; [done|].
  intros j y Hj Hlt. rewrite lookup_app_l in Hj by done.
  apply list_elem_of_lookup_2 in Hj.
  apply (isSeeds_elem _ _ Hseeds) in Hj as [-> _]. done.
Qed.

Lemma rebuildUI_ext a b :
  Node.id a = Node.id b → Node.loraState a = Node.loraState b →
  Node.collapsedGroups a = Node.collapsedGroups b → Node.widgets a = Node.widgets b →
  Node.stack_data a = Node.stack_data b → Node._saving a = Node._saving b →
  Node.localStorage a = Node.localStorage b →
  rebuildUI a = rebuildUI b.
Proof.
  intros Hid HS Hcg Hws Hsd Hsv Hst. rewrite !rebuildUI_unfold. cbv zeta.
  rewrite Hid, HS, Hcg, Hws, Hsd, Hsv, Hst. done.
Qed.

Lemma set_stack_data_same n : Node.set_stack_data (Node.stack_data n) n = n.
Proof. by destruct n. Qed.

Lemma reload_layout m state seeds dyn :
  Node.widgets m = layout seeds dyn → isSeeds seeds → Forall isDynamic dyn →
  Node.widgets (rebuildUI (Node.set_loraState state (clearDynamicWidgets m)))
  = layout seeds (rebuildCreated (Node.collapsedGroups m) state).
Proof.
  intros Hws Hseeds Hdyn. rewrite rebuildUI_widgets.
  unfold clearDynamicWidgets.
  cbn [Node.widgets Node.set_widgets Node.set_loraState Node.collapsedGroups Node.loraState].
  rewrite Hws, filter_layout by done.
  by apply rebuiltWidgets_layout.
Qed.

Lemma reload_fixpoint m state seeds dyn :
  Node.widgets m = layout seeds dyn → isSeeds seeds → Forall isDynamic dyn →
  rebuildUI (Node.set_loraState state
    (clearDynamicWidgets (rebuildUI (Node.set_loraState state (clearDynamicWidgets m)))))
  = rebuildUI (Node.set_loraState state (clearDynamicWidgets m)).
Proof.
  intros Hws Hseeds Hdyn.
  pose proof (reload_layout m state seeds dyn Hws Hseeds Hdyn) as Hws'.
  destruct (rebuildUI_frame (Node.set_loraState state (clearDynamicWidgets m)))
    as (Hid & Hcg & Hsd & Hsv & Hst).
  apply rebuildUI_ext.
  - exact Hid.
  - reflexivity.
  - exact Hcg.
  - unfold clearDynamicWidgets at 1. cbn [Node.widgets Node.set_widgets Node.set_loraState].
    rewrite Hws', filter_layout by (done || apply rebuildCreated_dynamic).
    unfold clearDynamicWidgets. cbn [Node.widgets Node.set_widgets Node.set_loraState].
    by rewrite Hws, filter_layout.
  - exact Hsd.
  - exact Hsv.
  - exact Hst.
Qed.

Lemma restoreState_truthy m :
  truthyText (Node.stack_data m) = true →
  restoreState m
  = match JSON_parse (Node.stack_data m) with
    | Some state => rebuildUI (Node.set_loraState state (clearDynamicWidgets m))
    | None => m
    end.
Proof. intros Ht. unfold restoreState. by rewrite Ht. Qed.

Lemma restoreState_empty m :
  truthyText (Node.stack_data m) = false → Node._saving m = false →
  restoreState m
  = match loadStateFromLocalStorage (Node.id m) (Node.localStorage m) with
    | Some state =>
        rebuildUI (Node.set_loraState state
          (clearDynamicWidgets (saveState (Node.set_loraState state m))))
    | None => m
    end.
Proof.
  intros Ht Hsv. unfold restoreState. rewrite Ht.
  destruct (loadStateFromLocalStorage _ _) as [state|]; [|done].
  by rewrite saveState_stack_data.
Qed.

Lemma restoreState_restored m seeds dyn :
  Node.widgets m = layout seeds dyn → isSeeds seeds → Forall isDynamic dyn →
  Node._saving m = false →
  (∃ dyn', Node.widgets (restoreState m) = layout seeds dyn' ∧ Forall isDynamic dyn')
  ∧ restoreState (restoreState m) = restoreState m
  ∧ (truthyText (Node.stack_data m) = true →
     Node.stack_data (restoreState m) = Node.stack_data m).
Proof.
  intros Hws Hseeds Hdyn Hsv.
  destruct (truthyText (Node.stack_data m)) eqn:Htruthy.
  - rewrite (restoreState_truthy m) by done.
    destruct (JSON_parse (Node.stack_data m)) as [state|] eqn:Hparse.
    + destruct (rebuildUI_frame (Node.set_loraState state (clearDynamicWidgets m)))
        as (_ & _ & Hsd & _).
      change (Node.stack_data (Node.set_loraState state (clearDynamicWidgets m)))
        with (Node.stack_data m) in Hsd.
      split; [|split; [|done]].
      * eexists. split; [by eapply reload_layout|apply rebuildCreated_dynamic].
      * rewrite restoreState_truthy by by rewrite Hsd.
        rewrite Hsd, Hparse. by eapply reload_fixpoint.
    + split; [by eauto|]. split; [|done].
      rewrite restoreState_truthy by done. by rewrite Hparse.
  - rewrite (restoreState_empty m) by done.
    destruct (loadStateFromLocalStorage _ _) as [state|] eqn:Hcache.
    + assert (Node.stack_data (saveState (Node.set_loraState state m))
              = JSON_stringify state) as Hsaved by by rewrite saveState_stack_data.
      destruct (saveState_frame (Node.set_loraState state m))
        as (_ & _ & _ & _ & Hws2 & Hsv2 & _).
      change (Node.widgets (Node.set_loraState state m)) with (Node.widgets m) in Hws2.
      rewrite Hws in Hws2.
      destruct (rebuildUI_frame (Node.set_loraState state
                  (clearDynamicWidgets (saveState (Node.set_loraState state m)))))
        as (_ & _ & Hsd & _).
      change (Node.stack_data (Node.set_loraState state
                (clearDynamicWidgets (saveState (Node.set_loraState state m)))))
        with (Node.stack_data (saveState (Node.set_loraState state m))) in Hsd.
      rewrite Hsaved in Hsd.
      split; [|split; [|done]].
      * eexists. split; [by eapply reload_layout|apply rebuildCreated_dynamic].
      * rewrite restoreState_truthy by by rewrite Hsd.
        rewrite Hsd. cbn [JSON_parse JSON_stringify]. by eapply reload_fixpoint.
    + split; [by eauto|]. split; [|done].
      rewrite restoreState_empty by done. by rewrite Hcache.
Qed.

(** X25.  Loading is idempotent: on a node with a well laid out control list,
    calling the load hook a second time with the same prior values changes
    nothing, whichever source the first call used and whatever snapshot it
    read. *)
Theorem load_twice (values : option (list Text)) (n : Node.t) :
  laidOut (Node.widgets n) → Node._saving n = false →
  onConfigure values (onConfigure values n) = onConfigure values n.
Proof.
  intros (seeds & dyn & Hws & Hseeds & Hdyn) Hsv.
  rewrite !onConfigure_primeField.
  destruct (primeField_cases values n) as [Hprime|(t & Ht & Hprime)].
  - rewrite (Hprime n eq_refl).
    destruct (restoreState_restored n seeds dyn Hws Hseeds Hdyn Hsv)
      as ((dyn' & Hws' & Hdyn') & Hfix & _).
    rewrite Hprime; [done|].
    by rewrite Hws', Hws, !list_find_stack_data.
  - rewrite (Hprime n eq_refl).
    destruct (restoreState_restored (Node.set_stack_data t n) seeds dyn Hws Hseeds Hdyn Hsv)
      as ((dyn' & Hws' & Hdyn') & Hfix & Hsd).
    rewrite Hprime by by rewrite Hws', Hws, !list_find_stack_data.
    rewrite <- (Hsd Ht) at 1. by rewrite set_stack_data_same.
Qed.

Lemma load_twice_witness :
  onConfigure (Some [JSON_stringify danglingState])
    (onConfigure (Some [JSON_stringify danglingState]) freshNode)
  = onConfigure (Some [JSON_stringify danglingState]) freshNode.
Proof.
  apply (load_twice (Some [JSON_stringify danglingState]) freshNode).
  - exists [], []. split; [vm_compute; reflexivity|]. split; [by left|apply Forall_nil_2].
  - vm_compute. reflexivity.
Defined.


(** * Saving and reopening *)

Lemma onNodeCreated_widgets nodeId (hasSeed : bool) storage :
  Node.widgets (onNodeCreated nodeId hasSeed storage)
  = layout (if hasSeed then [seedWidget] else []) [].
Proof. done. Qed.

Lemma isSeeds_if (hasSeed : bool) : isSeeds (if hasSeed then [seedWidget] else []).
Proof. destruct hasSeed; [apply isSeeds_seedWidget|by left]. Qed.

Lemma savedValues_lookup (hasSeed : bool) n :
  Node._saving n = false →
  savedValues hasSeed n !! length (if hasSeed then [seedWidget] else [])
  = Some (JSON_stringify (Node.loraState n)).
Proof.
  intros Hsv. unfold savedValues, serializeValue. cbn [snd].
  rewrite saveState_stack_data by done. by destruct hasSeed.
Qed.

Lemma reopen_unfold n nodeId (hasSeed : bool) storage :
  Node._saving n = false →
  onConfigure (Some (savedValues hasSeed n)) (onNodeCreated nodeId hasSeed storage)
  = rebuildUI
      (Node.set_loraState (Node.loraState n)
         (clearDynamicWidgets
            (Node.set_stack_data (JSON_stringify (Node.loraState n))
               (onNodeCreated nodeId hasSeed storage)))).
Proof.
  intros Hsv. rewrite onConfigure_primeField. unfold primeField.
  rewrite onNodeCreated_widgets, list_find_stack_data by apply isSeeds_if.
  rewrite savedValues_lookup by done. cbn [truthyText JSON_stringify].
  by rewrite restoreState_truthy.
Qed.

(** X26.  Saving and reopening: the text the serialization hook of a consistent
    node reports is handed, as the host does when it opens a workflow, to
    the load hook of a freshly created node.  The reopened node is
    consistent, its groups are exactly the groups of the saved node, its
    snapshot equals the saved one up to the ids of the items, and its
    document field holds the saved text. *)
Theorem reopen_keeps_groups (n : Node.t) (nodeId : Z) (hasSeed : bool)
    (storage : Storage.t) :
  consistent n →
  consistent
    (onConfigure (Some (savedValues hasSeed n)) (onNodeCreated nodeId hasSeed storage))
  ∧ groups (Node.loraState
              (onConfigure (Some (savedValues hasSeed n))
                 (onNodeCreated nodeId hasSeed storage)))
    = groups (Node.loraState n)
  ∧ sameUpToIds (Node.loraState n)
      (Node.loraState
         (onConfigure (Some (savedValues hasSeed n))
            (onNodeCreated nodeId hasSeed storage)))
  ∧ Node.stack_data
      (onConfigure (Some (savedValues hasSeed n)) (onNodeCreated nodeId hasSeed storage))
    = JSON_stringify (Node.loraState n).
Proof.
  intros Hn. pose proof (consistent_wellFormed n Hn) as Hwf.
  destruct Hn as (_ & Hrefs & Hidx & (Hgid & _) & _ & Hsv).
  rewrite reopen_unfold by done.
  split; [|split; [|split]].
  - apply rebuildUI_consistent; [|done..].
    apply (clearDynamicWidgets_laidOut
             (Node.set_stack_data (JSON_stringify (Node.loraState n))
                (onNodeCreated nodeId hasSeed storage))).
    exists (if hasSeed then [seedWidget] else []), [].
    split; [done|]. split; [apply isSeeds_if|done].
  - rewrite rebuildUI_loraState. by apply renumber_dense_groups.
  - rewrite rebuildUI_loraState. apply renumber_sameUpToIds; [done|apply Hwf].
  - by destruct (rebuildUI_frame (Node.set_loraState (Node.loraState n)
         (clearDynamicWidgets
            (Node.set_stack_data (JSON_stringify (Node.loraState n))
               (onNodeCreated nodeId hasSeed storage))))) as (_ & _ & -> & _).
Qed.

Lemma reopen_keeps_groups_witness :
  consistent (onConfigure (Some (savedValues true mixedNode)) (onNodeCreated 3 true ∅))
  ∧ groups (Node.loraState
              (onConfigure (Some (savedValues true mixedNode)) (onNodeCreated 3 true ∅)))
    = groups (Node.loraState mixedNode).
Proof.
  assert (consistent mixedNode) as Hn by consistent_by_evaluation (@nil Widget.t).
  split.
  - exact (proj1 (reopen_keeps_groups mixedNode 3 true ∅ Hn)).
  - exact (proj1 (proj2 (reopen_keeps_groups mixedNode 3 true ∅ Hn))).
Defined.


(** * The placement helpers of the earlier revision *)

Lemma spliceInsert_in_range index w ws :
  0 ≤ index ≤ Z.of_nat (length ws) →
  spliceInsert index w ws = take (Z.to_nat index) ws ++ w :: drop (Z.to_nat index) ws.
Proof.
  intros Hidx. unfold spliceInsert.
  assert ((index <? 0) = false) as -> by (apply Z.ltb_ge; lia).
  by rewrite Z.min_l by lia.
Qed.

Lemma spliceInsert_beyond index w ws :
  Z.of_nat (length ws) < index → spliceInsert index w ws = ws ++ [w].
Proof.
  intros Hidx. unfold spliceInsert.
  assert ((index <? 0) = false) as -> by (apply Z.ltb_ge; lia).
  rewrite Z.min_r by lia. by rewrite Nat2Z.id, firstn_all, drop_all.
Qed.

Lemma spliceInsert_negative index w ws :
  index < 0 →
  spliceInsert index w ws
  = take (Z.to_nat (Z.of_nat (length ws) + index)) ws
    ++ w :: drop (Z.to_nat (Z.of_nat (length ws) + index)) ws.
Proof.
  intros Hidx. unfold spliceInsert.
  assert ((index <? 0) = true) as -> by (apply Z.ltb_lt; lia).
  by replace (Z.to_nat (Z.max (Z.of_nat (length ws) + index) 0))
    with (Z.to_nat (Z.of_nat (length ws) + index)) by lia.
Qed.

Lemma spliceInsert_at a b w :
  spliceInsert (Z.of_nat (length a)) w (a ++ b) = a ++ w :: b.
Proof.
  rewrite spliceInsert_in_range by (rewrite length_app; lia).
  by rewrite Nat2Z.id, take_app_length, drop_app_length.
Qed.

Lemma moveTo_widgets index w n :
  Node.widgets (Legacy.moveTo index w (addWidget w n)) = spliceInsert index w (Node.widgets n).
Proof.
  unfold Legacy.moveTo, addWidget. cbn [Node.widgets Node.set_widgets].
  destruct (Z.eqb_spec (Z.of_nat (length (Node.widgets n ++ [w])) - 1) index) as [Heq|Hne].
  - cbn [Node.widgets]. rewrite length_app in Heq. cbn [length] in Heq.
    rewrite spliceInsert_in_range by lia.
    replace (Z.to_nat index) with (length (Node.widgets n)) by lia.
    by rewrite firstn_all, drop_all.
  - cbn [Node.widgets]. by rewrite delete_last.
Qed.

(** X27.  [insertWidget] of the earlier revision puts the control it creates
    at the index asked for when the index is within the list, and leaves the
    other controls in their order.  An index past the end puts the control
    last; a negative index counts from the end, as [splice] does, and one
    below minus the length puts the control first. *)
Theorem legacy_insertWidget_position (index : Z) (type name : string)
    (value : option JsVal) (callback : Callback) (n : Node.t) :
  let ws := Node.widgets n in
  let w := (Legacy.insertWidget index type name value callback n).2 in
  let ws' := Node.widgets (Legacy.insertWidget index type name value callback n).1 in
  w = Legacy.createWidget type name value callback
  ∧ (0 ≤ index ≤ Z.of_nat (length ws) →
     ws' = take (Z.to_nat index) ws ++ w :: drop (Z.to_nat index) ws)
  ∧ (Z.of_nat (length ws) < index → ws' = ws ++ [w])
  ∧ (index < 0 →
     ws' = take (Z.to_nat (Z.of_nat (length ws) + index)) ws
           ++ w :: drop (Z.to_nat (Z.of_nat (length ws) + index)) ws).
Proof.
  cbv zeta. unfold Legacy.insertWidget. cbn [fst snd]. rewrite moveTo_widgets.
  split; [done|]. split; [|split]; intros Hidx.
  - by apply spliceInsert_in_range.
  - by apply spliceInsert_beyond.
  - by apply spliceInsert_negative.
Qed.

Lemma legacy_insertWidget_position_witness :
  Node.widgets (Legacy.insertWidget 1 "button" "x" None NoCallback freshNode).1
  = take 1 (Node.widgets freshNode)
    ++ (Legacy.insertWidget 1 "button" "x" None NoCallback freshNode).2
       :: drop 1 (Node.widgets freshNode).
Proof.
  apply (proj1 (proj2 (legacy_insertWidget_position 1 "button" "x" None NoCallback freshNode))).
  vm_compute. split; discriminate.
Defined.

Lemma insertGroupWidget_widgets index groupId type name value callback n :
  Node.widgets (Legacy.insertGroupWidget index groupId type name value callback n)
  = spliceInsert index
      (Legacy.tagGroup groupId (Legacy.createWidget type name value callback))
      (Node.widgets n).
Proof. unfold Legacy.insertGroupWidget. apply moveTo_widgets. Qed.

Lemma insertGroupWidget_collapsedGroups index groupId type name value callback n :
  Node.collapsedGroups (Legacy.insertGroupWidget index groupId type name value callback n)
  = Node.collapsedGroups n.
Proof.
  unfold Legacy.insertGroupWidget, Legacy.moveTo, addWidget.
  cbn [Node.widgets Node.set_widgets]. by case_match.
Qed.

Lemma getInsertIndexForGroup_after_stack_data groupId n seeds rest :
  Node.widgets n = seeds ++ stackDataWidget :: rest → isSeeds seeds →
  (∀ w, w ∈ rest → Widget.name w ≠ "seed") →
  Legacy.getInsertIndexForGroup groupId n = Z.of_nat (length (seeds ++ [stackDataWidget])).
Proof.
  intros Hws Hseeds Hrest. unfold Legacy.getInsertIndexForGroup. rewrite Hws.
  rewrite length_app. cbn [length].
  destruct Hseeds as [-> |(s & -> & Hs & _)]; cbn [app length].
  - assert (list_find (λ w, Widget.name w = "seed") (stackDataWidget :: rest) = None) as ->.
    { apply list_find_None, Forall_cons. split; [done|]. by apply Forall_forall. }
    done.
  - assert (list_find (λ w, Widget.name w = "seed") (s :: stackDataWidget :: rest)
            = Some (0%nat, s)) as ->.
    { apply list_find_Some. split; [done|]. split; [done|]. intros j y _ Hj. lia. }
    done.
Qed.

(** X28.  [createGroupWidgets] of the earlier revision: on a control list
    that starts with the seed control (if any) and the document field, the
    five controls of the group end up, in creation order, right after the
    document field, above every control that was there before; so the group
    created last is displayed first. *)
Theorem legacy_group_controls_on_top (groupId : Z) (groupData : Group.t) (n : Node.t)
    (seeds rest : list Widget.t) :
  Node.widgets n = seeds ++ stackDataWidget :: rest →
  isSeeds seeds →
  (∀ w, w ∈ rest → Widget.name w ≠ "seed") →
  Node.widgets (Legacy.createGroupWidgets groupId groupData n)
  = seeds ++ stackDataWidget
      :: Legacy.groupWidgets (bool_decide (groupId ∈ Node.collapsedGroups n))
           groupId groupData
      ++ rest.
Proof.
  intros Hws Hseeds Hrest. unfold Legacy.createGroupWidgets. cbv zeta.
  rewrite (getInsertIndexForGroup_after_stack_data groupId n seeds rest) by done.
  set (a := seeds ++ [stackDataWidget]).
  assert (Node.widgets n = a ++ rest) as Hws0.
  { subst a. by rewrite Hws, <- app_assoc. }
  unfold Legacy.groupWidgets. cbn [fmap list_fmap].
  set (w1 := Legacy.tagGroup groupId (Legacy.createWidget "button" _ _ _)).
  set (w2 := Legacy.tagGroup groupId (Legacy.createWidget "button" "✕ Remove" _ _)).
  set (w3 := Legacy.tagGroup groupId (Legacy.createWidget "number" "  Max MODEL" _ _)).
  set (w4 := Legacy.tagGroup groupId (Legacy.createWidget "number" "  Max CLIP" _ _)).
  set (w5 := Legacy.tagGroup groupId (Legacy.createWidget "button" "  ➕ Add LoRA" _ _)).
  rewrite !insertGroupWidget_widgets. fold w1 w2 w3 w4 w5.
  rewrite Hws0, spliceInsert_at.
  replace (Z.of_nat (length a) + 1) with (Z.of_nat (length (a ++ [w1])))
    by (rewrite length_app; cbn [length]; lia).
  replace (a ++ w1 :: rest) with ((a ++ [w1]) ++ rest) by by rewrite <- app_assoc.
  rewrite spliceInsert_at.
  replace (Z.of_nat (length a) + 2) with (Z.of_nat (length ((a ++ [w1]) ++ [w2])))
    by (rewrite !length_app; cbn [length]; lia).
  replace ((a ++ [w1]) ++ w2 :: rest) with (((a ++ [w1]) ++ [w2]) ++ rest)
    by by rewrite <- !app_assoc.
  rewrite spliceInsert_at.
  replace (Z.of_nat (length a) + 3)
    with (Z.of_nat (length (((a ++ [w1]) ++ [w2]) ++ [w3])))
    by (rewrite !length_app; cbn [length]; lia).
  replace (((a ++ [w1]) ++ [w2]) ++ w3 :: rest)
    with ((((a ++ [w1]) ++ [w2]) ++ [w3]) ++ rest) by by rewrite <- !app_assoc.
  rewrite spliceInsert_at.
  replace (Z.of_nat (length a) + 4)
    with (Z.of_nat (length ((((a ++ [w1]) ++ [w2]) ++ [w3]) ++ [w4])))
    by (rewrite !length_app; cbn [length]; lia).
  replace ((((a ++ [w1]) ++ [w2]) ++ [w3]) ++ w4 :: rest)
    with (((((a ++ [w1]) ++ [w2]) ++ [w3]) ++ [w4]) ++ rest) by by rewrite <- !app_assoc.
  rewrite spliceInsert_at.
  subst a. by rewrite <- !app_assoc.
Qed.

Lemma legacy_group_controls_on_top_witness :
  Widget.name <$> Node.widgets legacyTwoGroups
  = ["seed"; "stack_data"; "▼ Group 2"; "✕ Remove"; "  Max MODEL"; "  Max CLIP";
     "  ➕ Add LoRA"; "▼ Group 1"; "✕ Remove"; "  Max MODEL"; "  Max CLIP";
     "  ➕ Add LoRA"; "➕ Add LoRA"; "➕ Add Group"]
  ∧ Node.widgets
      (Legacy.createGroupWidgets 1 (Group.mk 1 1 1 1) (onNodeCreated 7 true ∅))
    = [seedWidget] ++ stackDataWidget
        :: Legacy.groupWidgets
             (bool_decide (1 ∈ Node.collapsedGroups (onNodeCreated 7 true ∅)))
             1 (Group.mk 1 1 1 1)
        ++ [addLoraButton; addGroupButton].
Proof.
  split; [vm_compute; reflexivity|].
  apply (legacy_group_controls_on_top 1 (Group.mk 1 1 1 1) (onNodeCreated 7 true ∅)
           [seedWidget] [addLoraButton; addGroupButton]).
  - vm_compute. reflexivity.
  - right. exists seedWidget. repeat split; reflexivity.
  - apply Forall_forall. decide_by_evaluation.
Defined.

Lemma lastIndex_none P ws :
  (∀ w, w ∈ ws → P w = false) → Legacy.lastIndex P ws = None.
Proof.
  induction ws as [|x ws IH]; intros Hws; [done|]. cbn [Legacy.lastIndex].
  rewrite IH by (intros w Hw; apply Hws; by right).
  by rewrite Hws by by left.
Qed.

Lemma lastIndex_last P a w b :
  P w = true → (∀ x, x ∈ b → P x = false) →
  Legacy.lastIndex P (a ++ w :: b) = Some (length a).
Proof.
  intros Hw Hb. induction a as [|x a IH]; cbn [app Legacy.lastIndex length].
  - by rewrite lastIndex_none, Hw.
  - by rewrite IH.
Qed.

(** X29.  [getInsertIndexForLora] of the earlier revision.  For an ungrouped
    item it gives the position of the Add LoRA button, and -1 when the
    button is not in the list.  For an item of a group it gives the position
    right after the last control tagged as a group control of that group,
    and, when the list has no such control, the length of the list minus
    2. *)
Theorem legacy_lora_insert_index (loraId : Z) (n : Node.t) :
  (∀ a b, Node.widgets n = a ++ addLoraButton :: b → addLoraButton ∉ a →
     Legacy.getInsertIndexForLora loraId None n = Z.of_nat (length a))
  ∧ (addLoraButton ∉ Node.widgets n → Legacy.getInsertIndexForLora loraId None n = -1)
  ∧ (∀ g a w b, Node.widgets n = a ++ w :: b →
       Legacy.isGroupWidgetOf g w = true →
       (∀ x, x ∈ b → Legacy.isGroupWidgetOf g x = false) →
       Legacy.getInsertIndexForLora loraId (Some g) n = Z.of_nat (length a) + 1)
  ∧ (∀ g, (∀ x, x ∈ Node.widgets n → Legacy.isGroupWidgetOf g x = false) →
       Legacy.getInsertIndexForLora loraId (Some g) n
       = Z.of_nat (length (Node.widgets n)) - 2).
Proof.
  unfold Legacy.getInsertIndexForLora. cbv zeta. split; [|split; [|split]].
  - intros a b -> Ha. by apply indexOf_middle.
  - intros Hws. by apply indexOf_absent.
  - intros g a w b -> Hw Hb. by rewrite (lastIndex_last _ a w b).
  - intros g Hws. by rewrite lastIndex_none.
Qed.

Lemma legacy_lora_insert_index_witness :
  Legacy.getInsertIndexForLora 1 (Some 1) legacyTwoGroups = 12
  ∧ Legacy.getInsertIndexForLora 1 (Some 9) legacyTwoGroups = 12
  ∧ Legacy.getInsertIndexForLora 1 None legacyTwoGroups = 12.
Proof.
  split; [|split].
  - apply (proj1 (proj2 (proj2 (legacy_lora_insert_index 1 legacyTwoGroups))) 1
             (take 11 (Node.widgets legacyTwoGroups))
             (Legacy.tagGroup 1
                (Legacy.createWidget "button" "  ➕ Add LoRA" None (CallAddLora (Some 1))))
             [addLoraButton; addGroupButton]).
    + vm_compute. reflexivity.
    + vm_compute. reflexivity.
    + apply Forall_forall. decide_by_evaluation.
  - apply (proj2 (proj2 (proj2 (legacy_lora_insert_index 1 legacyTwoGroups))) 9).
    apply Forall_forall. decide_by_evaluation.
  - apply (proj1 (legacy_lora_insert_index 1 legacyTwoGroups)
             (take 12 (Node.widgets legacyTwoGroups)) [addGroupButton]).
    + vm_compute. reflexivity.
    + decide_by_evaluation.
Defined.


(** * Removals of an id that is not there *)

(** X30.  A removal is a no-op exactly when its id is not in the snapshot.
    [removeGroup] with an id no group has and [removeLora] with an id no item
    has return before they touch anything: the node, with its snapshot,
    document field, backup cache and controls, is exactly as it was, also
    when the removal comes from the callback of a remove button.  With an id
    that is there, the snapshot loses a group, or an item. *)
Theorem removal_of_missing_id (n : Node.t) (v : JsVal) :
  (∀ g, g ∉ Group.id <$> groups (Node.loraState n) ↔ removeGroup g n = n)
  ∧ (∀ i, i ∉ Lora.id <$> loras (Node.loraState n) ↔ removeLora i n = n)
  ∧ (∀ g, g ∉ Group.id <$> groups (Node.loraState n) →
          fire (CallRemoveGroup g) v n = n)
  ∧ (∀ i, i ∉ Lora.id <$> loras (Node.loraState n) →
          fire (CallRemoveLora i) v n = n).
Proof.
  split; [|split; [|split]].
  - intros g. split; [apply removeGroup_missing|].
    intros Hsame Hin. apply list_find_id_Some in Hin as (idx & g0 & Hfind).
    apply (f_equal (λ m, length (groups (Node.loraState m)))) in Hsame.
    unfold removeGroup in Hsame. rewrite Hfind in Hsame. cbv beta zeta in Hsame.
    rewrite saveState_loraState, rebuildUI_loraState, renumber_groups_length in Hsame.
    cbn [Node.loraState Node.set_loraState groups] in Hsame.
    rewrite renumberIndex_length, length_delete in Hsame.
    2:{ apply list_find_Some in Hfind as (Hlook & _). by eexists. }
    apply list_find_Some in Hfind as (Hlook & _). apply lookup_lt_Some in Hlook. lia.
  - intros i. split; [apply removeLora_missing|].
    intros Hsame Hin. apply list_find_id_Some in Hin as (idx & l0 & Hfind).
    apply (f_equal (λ m, length (loras (Node.loraState m)))) in Hsame.
    unfold removeLora in Hsame. rewrite Hfind in Hsame. cbv beta zeta in Hsame.
    rewrite saveState_loraState, rebuildUI_loraState, renumber_loras_length in Hsame.
    cbn [Node.loraState Node.set_loraState loras] in Hsame.
    rewrite length_delete in Hsame.
    2:{ apply list_find_Some in Hfind as (Hlook & _). by eexists. }
    apply list_find_Some in Hfind as (Hlook & _). apply lookup_lt_Some in Hlook. lia.
  - intros g Hg. cbn [fire]. by apply removeGroup_missing.
  - intros i Hi. cbn [fire]. by apply removeLora_missing.
Qed.

Lemma removal_of_missing_id_witness :
  removeGroup 9 exampleNode = exampleNode ∧ removeLora 9 exampleNode = exampleNode.
Proof.
  assert (9 ∉ Group.id <$> groups (Node.loraState exampleNode)) as Hg.
  { decide_by_evaluation. }
  assert (9 ∉ Lora.id <$> loras (Node.loraState exampleNode)) as Hl.
  { decide_by_evaluation. }
  split.
  - exact (proj1 (proj1 (removal_of_missing_id exampleNode (VBool true)) 9) Hg).
  - exact (proj1 (proj1 (proj2 (removal_of_missing_id exampleNode (VBool true))) 9) Hl).
Defined.
